(** * Reference extraction and quality scoring (PREA)

    A shallow embedding of [src/agents/pdf_reference_extraction_agent.py]:
    the text-extraction arbiter ([PDFTextExtractor]), the reference parser
    ([ReferenceParser]: segmentation, style matching, metadata enrichment,
    deduplication, quality scoring) and the part of
    [PDFReferenceExtractionAgent.extract_references_from_pdf] that follows
    text extraction; further on, the dispatch of
    [ReferenceStorageManager.store_references] with the counts of its
    summaries, the agent's statistics with [batch_extract_references],
    and [integrate_with_aras].

    Conventions.
    - A Python [str] is a [list ascii] (the ASCII fragment of Unicode).
    - A Python [float] is an exact rational [Q]; the constants 0.3, 0.8, ...
      are the rationals 3/10, 8/10, ...
    - Python's [re] module is embedded as a backtracking matcher over a
      small regular-expression syntax ([Module Re]); every pattern of the
      source is transcribed next to its source text (where a star meets a
      closing parenthesis a blank is inserted between them, and the double
      quote is written [\x22]). *)

From Stdlib Require Import List Ascii String ZArith QArith Qminmax Lia Lqa Bool.
From stdpp Require Import gmap.
Import ListNotations.

Local Open Scope bool_scope.
Local Open Scope list_scope.

(** ** Characters and strings *)

Abbreviation str := (list ascii).

(** String literals: [py "abc"] is the Python string ['abc']. *)
Abbreviation py s := (list_ascii_of_string s%string).

Definition code (c : ascii) : N := N_of_ascii c.

Definition between (lo hi : N) (c : ascii) : bool :=
  ((lo <=? code c) && (code c <=? hi))%N.

Definition isupper : ascii -> bool := between 65 90.
Definition islower : ascii -> bool := between 97 122.
Definition isdigit : ascii -> bool := between 48 57.

(** [str.isspace] on ASCII: TAB, LF, VT, FF, CR, FS, GS, RS, US and space.
    [str.strip()], [str.split()] and the regular expression class [\s] all
    use this class. *)
Definition isspace (c : ascii) : bool := between 9 13 c || between 28 32 c.

Definition eqc (x : ascii) (c : ascii) : bool := Ascii.eqb x c.

Definition newline : ascii := ascii_of_N 10.
Definition dquote : ascii := ascii_of_N 34.

(** [str.lower] *)
Definition lower (c : ascii) : ascii :=
  if isupper c then ascii_of_N (code c + 32) else c.

Definition str_lower (s : str) : str := map lower s.

Definition str_eqb (a b : str) : bool := bool_decide (a = b).

(** Truthiness of a Python string: non-empty. *)
Definition truthy {A} (s : list A) : bool :=
  match s with [] => false | _ :: _ => true end.

Fixpoint lstrip_by (p : ascii -> bool) (s : str) : str :=
  match s with
  | c :: t => if p c then lstrip_by p t else s
  | [] => []
  end.

Definition rstrip_by (p : ascii -> bool) (s : str) : str :=
  rev (lstrip_by p (rev s)).

Definition strip_by (p : ascii -> bool) (s : str) : str :=
  rstrip_by p (lstrip_by p s).

(** [s.strip()] *)
Definition strip : str -> str := strip_by isspace.

(** [s.strip(chars)] *)
Definition strip_chars (chars : str) : str -> str :=
  strip_by (fun c => existsb (eqc c) chars).

(** [s.split()]: the maximal runs of non-whitespace characters. *)
Fixpoint split_ws_aux (cur : str) (s : str) : list str :=
  match s with
  | [] => if truthy cur then [rev cur] else []
  | c :: t =>
      if isspace c
      then (if truthy cur then rev cur :: split_ws_aux [] t
            else split_ws_aux [] t)
      else split_ws_aux (c :: cur) t
  end.

Definition split_ws (s : str) : list str := split_ws_aux [] s.

(** [s.split(sep)] for a one-character separator. *)
Fixpoint split_on_aux (sep : ascii) (cur : str) (s : str) : list str :=
  match s with
  | [] => [rev cur]
  | c :: t =>
      if eqc sep c then rev cur :: split_on_aux sep [] t
      else split_on_aux sep (c :: cur) t
  end.

Definition split_on (sep : ascii) (s : str) : list str := split_on_aux sep [] s.

Fixpoint starts_with (p s : str) : bool :=
  match p, s with
  | [], _ => true
  | a :: p', b :: s' => Ascii.eqb a b && starts_with p' s'
  | _ :: _, [] => false
  end.

(** [sub in s] *)
Fixpoint contains (sub s : str) : bool :=
  starts_with sub s ||
  match s with
  | [] => false
  | _ :: t => contains sub t
  end.

(** [int(s)] for a string of decimal digits. *)
Definition digit_val (c : ascii) : Z := Z.of_N (code c) - 48.

Definition int_of_digits (s : str) : Z :=
  fold_left (fun acc c => 10 * acc + digit_val c)%Z s 0%Z.

(** [s.isdigit()] on ASCII *)
Definition str_isdigit (s : str) : bool := truthy s && forallb isdigit s.

(** [sep.join(l)] *)
Fixpoint join (sep : str) (l : list str) : str :=
  match l with
  | [] => []
  | [x] => x
  | x :: t => x ++ sep ++ join sep t
  end.

(** ** Floats *)

(** [float(n)] for a length or a count. *)
Definition Qnat (n : nat) : Q := inject_Z (Z.of_nat n).

(** [a > b] *)
Definition Qgtb (a b : Q) : bool := negb (Qle_bool a b).

(** ** Python's [re] module *)

Module Re.

(** The fragment of the pattern language the source uses. *)
Inductive regex : Type :=
| Eps                                 (* empty pattern *)
| Chr (p : ascii -> bool)             (* one character of a class *)
| Seq (r1 r2 : regex)                 (* r1 r2 *)
| Alt (r1 r2 : regex)                 (* r1|r2 *)
| Star (r : regex)                    (* r*   greedy *)
| LazyStar (r : regex)                (* r*?  non-greedy *)
| Grp (i : nat) (r : regex)           (* capturing group number i *)
| Ahead (r : regex)                   (* (?=r) *)
| Bos                                 (* ^ without MULTILINE *)
| EolM.                               (* $ with MULTILINE *)

(** Matcher state: offset in the subject, the text still to read and the
    groups captured so far (latest binding first). *)
Record mstate : Type := MState {
  pos : nat;
  rest : str;
  caps : list (nat * str)
}.

Definition advance (st : mstate) : mstate :=
  match rest st with
  | [] => st
  | _ :: t => MState (S (pos st)) t (caps st)
  end.

Definition consumed (st0 st1 : mstate) : str :=
  firstn (pos st1 - pos st0) (rest st0).

Definition progress (st0 st1 : mstate) : bool :=
  (length (rest st1) <? length (rest st0))%nat.

(** Backtracking matcher in continuation-passing style.  Alternatives
    are tried left to right, [Star] prefers one more iteration and
    [LazyStar] prefers to stop, which is the priority order of the
    [re] module.  An iteration of a starred body has to consume input
    (all starred bodies of the source do). *)
Fixpoint exec (r : regex) (st : mstate) (k : mstate -> option mstate)
  {struct r} : option mstate :=
  match r with
  | Eps => k st
  | Chr p =>
      match rest st with
      | c :: _ => if p c then k (advance st) else None
      | [] => None
      end
  | Seq r1 r2 => exec r1 st (fun st1 => exec r2 st1 k)
  | Alt r1 r2 =>
      match exec r1 st k with
      | Some m => Some m
      | None => exec r2 st k
      end
  | Star r1 =>
      (fix loop (n : nat) (st : mstate) {struct n} : option mstate :=
         match n with
         | O => k st
         | S n' =>
             match exec r1 st (fun st1 =>
                      if progress st st1 then loop n' st1 else None) with
             | Some m => Some m
             | None => k st
             end
         end) (length (rest st)) st
  | LazyStar r1 =>
      (fix loop (n : nat) (st : mstate) {struct n} : option mstate :=
         match k st with
         | Some m => Some m
         | None =>
             match n with
             | O => None
             | S n' =>
                 exec r1 st (fun st1 =>
                   if progress st st1 then loop n' st1 else None)
             end
         end) (length (rest st)) st
  | Grp i r1 =>
      exec r1 st (fun st1 =>
        k (MState (pos st1) (rest st1) ((i, consumed st st1) :: caps st1)))
  | Ahead r1 =>
      match exec r1 st Some with
      | Some st1 => k (MState (pos st) (rest st) (caps st1))
      | None => None
      end
  | Bos => if (pos st =? 0)%nat then k st else None
  | EolM =>
      match rest st with
      | [] => k st
      | c :: _ => if eqc newline c then k st else None
      end
  end.

(** A match object. *)
Record rmatch : Type := RMatch {
  m_start : nat;
  m_end : nat;
  m_rest : str;                (* the subject after the match *)
  m_caps : list (nat * str)
}.

(** [pattern.match] at a given offset of the subject. *)
Definition match_at (r : regex) (p : nat) (s : str) : option rmatch :=
  match exec r (MState p s []) Some with
  | Some st => Some (RMatch p (pos st) (rest st) (caps st))
  | None => None
  end.

(** [re.search] from offset [p], where [s] is the subject from [p] on:
    the leftmost start position that admits a match wins. *)
Fixpoint search_from (r : regex) (p : nat) (s : str) : option rmatch :=
  match match_at r p s with
  | Some m => Some m
  | None =>
      match s with
      | [] => None
      | _ :: t => search_from r (S p) t
      end
  end.

(** [re.search(r, s)] *)
Definition search (r : regex) (s : str) : option rmatch := search_from r 0 s.

(** [re.match(r, s)] *)
Definition rematch (r : regex) (s : str) : option rmatch := match_at r 0 s.

(** [m.group(i)]; [None] when the group took no part in the match. *)
Fixpoint lookup (i : nat) (cs : list (nat * str)) : option str :=
  match cs with
  | [] => None
  | (j, v) :: t => if (i =? j)%nat then Some v else lookup i t
  end.

Definition group (m : rmatch) (i : nat) : option str := lookup i (m_caps m).

(** Number of capturing groups of a pattern. *)
Fixpoint ngroups (r : regex) : nat :=
  match r with
  | Eps | Chr _ | Bos | EolM => 0
  | Seq a b | Alt a b => Nat.max (ngroups a) (ngroups b)
  | Star a | LazyStar a | Ahead a => ngroups a
  | Grp i a => Nat.max i (ngroups a)
  end.

(** [m.groups()] *)
Definition groups (r : regex) (m : rmatch) : list (option str) :=
  map (group m) (seq 1 (ngroups r)).

(** The successive non-overlapping matches of [re.finditer].  The next
    search starts where the previous match ended; after an empty match
    it starts one character further. *)
Fixpoint matches_from (fuel : nat) (r : regex) (p : nat) (s : str)
  : list rmatch :=
  match fuel with
  | O => []
  | S fuel' =>
      match search_from r p s with
      | None => []
      | Some m =>
          m :: (if (m_start m <? m_end m)%nat
                then matches_from fuel' r (m_end m) (m_rest m)
                else match m_rest m with
                     | [] => []
                     | _ :: t => matches_from fuel' r (S (m_end m)) t
                     end)
      end
  end.

Definition finditer (r : regex) (s : str) : list rmatch :=
  matches_from (S (length s)) r 0 s.

(** [s[a:b]] *)
Definition slice (s : str) (a b : nat) : str := firstn (b - a) (skipn a s).

(** [re.split(r, s)]: the text between the matches, each followed by the
    groups of the match that ends it (an unset group, [None] in Python,
    is rendered as the empty string). *)
Fixpoint split_pieces (r : regex) (s : str) (last : nat) (ms : list rmatch)
  : list str :=
  match ms with
  | [] => [skipn last s]
  | m :: ms' =>
      slice s last (m_start m)
      :: map (fun g => default [] g) (groups r m)
      ++ split_pieces r s (m_end m) ms'
  end.

Definition split (r : regex) (s : str) : list str :=
  split_pieces r s 0 (finditer r s).

(** [re.sub(r, repl, s)] for a replacement string without group
    references. *)
Fixpoint sub_pieces (repl : str) (s : str) (last : nat) (ms : list rmatch)
  : str :=
  match ms with
  | [] => skipn last s
  | m :: ms' =>
      slice s last (m_start m) ++ repl ++ sub_pieces repl s (m_end m) ms'
  end.

Definition sub (r : regex) (repl : str) (s : str) : str :=
  sub_pieces repl s 0 (finditer r s).

(** *** Pattern combinators *)

Definition plus (r : regex) : regex := Seq r (Star r).        (* r+ *)
Definition opt (r : regex) : regex := Alt r Eps.              (* r? *)

Fixpoint seqs (l : list regex) : regex :=
  match l with
  | [] => Eps
  | [r] => r
  | r :: t => Seq r (seqs t)
  end.

Fixpoint alts (l : list regex) : regex :=
  match l with
  | [] => Eps
  | [r] => r
  | r :: t => Alt r (alts t)
  end.

(** r{n} *)
Fixpoint rep (n : nat) (r : regex) : regex :=
  match n with
  | O => Eps
  | S n' => Seq r (rep n' r)
  end.

(** r{0,n}, greedy *)
Fixpoint upto (n : nat) (r : regex) : regex :=
  match n with
  | O => Eps
  | S n' => opt (Seq r (upto n' r))
  end.

(** r{lo,hi} *)
Definition range (lo hi : nat) (r : regex) : regex :=
  Seq (rep lo r) (upto (hi - lo) r).

(** A literal string, and the same under [re.IGNORECASE]. *)
Definition lit (s : string) : regex :=
  seqs (map (fun c => Chr (eqc c)) (py s)).
Definition liti (s : string) : regex :=
  seqs (map (fun c => Chr (fun x => eqc (lower c) (lower x))) (py s)).

Definition ch (s : string) : regex :=
  Chr (fun c => existsb (eqc c) (py s)).
Definition notch (s : string) : regex :=
  Chr (fun c => negb (existsb (eqc c) (py s))).

Definition dg : regex := Chr isdigit.                          (* \d *)
Definition ws : regex := Chr isspace.                         (* \s *)
Definition nonws : regex := Chr (fun c => negb (isspace c)).  (* \S, [^\s] *)
Definition AZ : regex := Chr isupper.                         (* [A-Z] *)
Definition az : regex := Chr islower.                         (* [a-z] *)
Definition dash_digit : regex :=                              (* [\d-] *)
  Chr (fun c => isdigit c || eqc "-"%char c).

End Re.

Import Re.

(** ** The data model: [ExtractedReference] *)

Record ExtractedReference : Type := mkRef {
  reference_number : option Z;
  full_text : str;
  authors : list str;
  title : str;
  year : option Z;
  venue : str;
  volume : str;
  issue : str;
  pages : str;
  doi : str;
  url : str;
  isbn : str;
  reference_type : str;
  citation_style : str;
  confidence_score : Q;
  extraction_notes : str
}.

(** The dataclass constructor with its defaults:
    [ExtractedReference(reference_number=n, full_text=t, citation_style=s,
    confidence_score=c, extraction_notes=e)]. *)
Definition new_reference (n : option Z) (t s : str) (c : Q) (e : str)
  : ExtractedReference :=
  mkRef n t [] [] None [] [] [] [] [] [] [] [] s c e.

(** Attribute assignments [ref.field = v]. *)
Definition set_reference_number v r :=
  mkRef v (full_text r) (authors r) (title r) (year r) (venue r) (volume r)
    (issue r) (pages r) (doi r) (url r) (isbn r) (reference_type r)
    (citation_style r) (confidence_score r) (extraction_notes r).
Definition set_full_text v r :=
  mkRef (reference_number r) v (authors r) (title r) (year r) (venue r)
    (volume r) (issue r) (pages r) (doi r) (url r) (isbn r) (reference_type r)
    (citation_style r) (confidence_score r) (extraction_notes r).
Definition set_authors v r :=
  mkRef (reference_number r) (full_text r) v (title r) (year r) (venue r)
    (volume r) (issue r) (pages r) (doi r) (url r) (isbn r) (reference_type r)
    (citation_style r) (confidence_score r) (extraction_notes r).
Definition set_title v r :=
  mkRef (reference_number r) (full_text r) (authors r) v (year r) (venue r)
    (volume r) (issue r) (pages r) (doi r) (url r) (isbn r) (reference_type r)
    (citation_style r) (confidence_score r) (extraction_notes r).
Definition set_year v r :=
  mkRef (reference_number r) (full_text r) (authors r) (title r) v (venue r)
    (volume r) (issue r) (pages r) (doi r) (url r) (isbn r) (reference_type r)
    (citation_style r) (confidence_score r) (extraction_notes r).
Definition set_venue v r :=
  mkRef (reference_number r) (full_text r) (authors r) (title r) (year r) v
    (volume r) (issue r) (pages r) (doi r) (url r) (isbn r) (reference_type r)
    (citation_style r) (confidence_score r) (extraction_notes r).
Definition set_volume v r :=
  mkRef (reference_number r) (full_text r) (authors r) (title r) (year r)
    (venue r) v (issue r) (pages r) (doi r) (url r) (isbn r) (reference_type r)
    (citation_style r) (confidence_score r) (extraction_notes r).
Definition set_issue v r :=
  mkRef (reference_number r) (full_text r) (authors r) (title r) (year r)
    (venue r) (volume r) v (pages r) (doi r) (url r) (isbn r) (reference_type r)
    (citation_style r) (confidence_score r) (extraction_notes r).
Definition set_pages v r :=
  mkRef (reference_number r) (full_text r) (authors r) (title r) (year r)
    (venue r) (volume r) (issue r) v (doi r) (url r) (isbn r) (reference_type r)
    (citation_style r) (confidence_score r) (extraction_notes r).
Definition set_doi v r :=
  mkRef (reference_number r) (full_text r) (authors r) (title r) (year r)
    (venue r) (volume r) (issue r) (pages r) v (url r) (isbn r)
    (reference_type r) (citation_style r) (confidence_score r)
    (extraction_notes r).
Definition set_url v r :=
  mkRef (reference_number r) (full_text r) (authors r) (title r) (year r)
    (venue r) (volume r) (issue r) (pages r) (doi r) v (isbn r)
    (reference_type r) (citation_style r) (confidence_score r)
    (extraction_notes r).
Definition set_isbn v r :=
  mkRef (reference_number r) (full_text r) (authors r) (title r) (year r)
    (venue r) (volume r) (issue r) (pages r) (doi r) (url r) v
    (reference_type r) (citation_style r) (confidence_score r)
    (extraction_notes r).
Definition set_reference_type v r :=
  mkRef (reference_number r) (full_text r) (authors r) (title r) (year r)
    (venue r) (volume r) (issue r) (pages r) (doi r) (url r) (isbn r) v
    (citation_style r) (confidence_score r) (extraction_notes r).
Definition set_confidence_score v r :=
  mkRef (reference_number r) (full_text r) (authors r) (title r) (year r)
    (venue r) (volume r) (issue r) (pages r) (doi r) (url r) (isbn r)
    (reference_type r) (citation_style r) v (extraction_notes r).
Definition set_extraction_notes v r :=
  mkRef (reference_number r) (full_text r) (authors r) (title r) (year r)
    (venue r) (volume r) (issue r) (pages r) (doi r) (url r) (isbn r)
    (reference_type r) (citation_style r) (confidence_score r) v.

(** The generated [__eq__] of the dataclass compares the fields in order;
    two floats are equal when they denote the same number. *)
Definition ref_eqb (a b : ExtractedReference) : bool :=
  bool_decide (reference_number a = reference_number b)
  && str_eqb (full_text a) (full_text b)
  && bool_decide (authors a = authors b)
  && str_eqb (title a) (title b)
  && bool_decide (year a = year b)
  && str_eqb (venue a) (venue b)
  && str_eqb (volume a) (volume b)
  && str_eqb (issue a) (issue b)
  && str_eqb (pages a) (pages b)
  && str_eqb (doi a) (doi b)
  && str_eqb (url a) (url b)
  && str_eqb (isbn a) (isbn b)
  && str_eqb (reference_type a) (reference_type b)
  && str_eqb (citation_style a) (citation_style b)
  && Qeq_bool (confidence_score a) (confidence_score b)
  && str_eqb (extraction_notes a) (extraction_notes b).

(** ** [ReferenceParser] *)

Module ReferenceParser.

(** *** [_initialize_citation_patterns] *)

(* [A-Z][a-z]+ *)
Definition surname : regex := Seq AZ (plus az).

(* (?:,\s*[A-Z]\.(?:\s*[A-Z]\.)?)* *)
Definition initials : regex :=
  Star (seqs [lit ","; Star ws; AZ; lit ".";
              opt (seqs [Star ws; AZ; lit "."])]).

(* ([A-Z][a-z]+(?:,\s*[A-Z]\.(?:\s*[A-Z]\.)?)* )\s*\((\d{4})\)\.\s*([^.]+)\.
   \s*([^,]+)(?:,\s*(\d+)(?:\((\d+)\))?)(?:,\s*([\d-]+))? *)
Definition apa_1 : regex :=
  seqs [Grp 1 (Seq surname initials); Star ws;
        lit "("; Grp 2 (rep 4 dg); lit ")"; lit "."; Star ws;
        Grp 3 (plus (notch ".")); lit "."; Star ws;
        Grp 4 (plus (notch ","));
        seqs [lit ","; Star ws; Grp 5 (plus dg);
              opt (seqs [lit "("; Grp 6 (plus dg); lit ")"])];
        opt (seqs [lit ","; Star ws; Grp 7 (plus dash_digit)])].

(* ([A-Z][a-z]+(?:,\s*[A-Z]\.(?:\s*[A-Z]\.)?)*
    (?:,?\s*&\s*[A-Z][a-z]+(?:,\s*[A-Z]\.(?:\s*[A-Z]\.)?)* )* )
   \s*\((\d{4})\)\.\s*([^.]+)\.\s*([^.]+)\. *)
Definition apa_2 : regex :=
  seqs [Grp 1 (seqs [surname; initials;
                     Star (seqs [opt (lit ","); Star ws; lit "&"; Star ws;
                                 surname; initials])]);
        Star ws; lit "("; Grp 2 (rep 4 dg); lit ")"; lit "."; Star ws;
        Grp 3 (plus (notch ".")); lit "."; Star ws;
        Grp 4 (plus (notch ".")); lit "."].

(** The double quote of the source patterns is written [\x22] in the
    transcriptions below. *)
Definition quote : regex := Chr (eqc dquote).
Definition notquote : regex := Chr (fun c => negb (eqc dquote c)).

(* ([A-Z][a-z]+,\s*[A-Z][a-z]+)\.\s*\x22([^\x22]+)\x22\.\s*([^,]+),\s*vol\.\s*(\d+)
   (?:,\s*no\.\s*(\d+))?,\s*(\d{4}),\s*pp\.\s*([\d-]+) *)
Definition mla_1 : regex :=
  seqs [Grp 1 (seqs [surname; lit ","; Star ws; surname]); lit ".";
        Star ws; quote; Grp 2 (plus notquote); quote; lit "."; Star ws;
        Grp 3 (plus (notch ",")); lit ","; Star ws; lit "vol."; Star ws;
        Grp 4 (plus dg);
        opt (seqs [lit ","; Star ws; lit "no."; Star ws; Grp 5 (plus dg)]);
        lit ","; Star ws; Grp 6 (rep 4 dg); lit ","; Star ws; lit "pp.";
        Star ws; Grp 7 (plus dash_digit)].

(* ([A-Z][a-z]+,\s*[A-Z][a-z]+)\.\s*([^.]+)\.\s*([^,]+),\s*(\d{4})\. *)
Definition mla_2 : regex :=
  seqs [Grp 1 (seqs [surname; lit ","; Star ws; surname]); lit ".";
        Star ws; Grp 2 (plus (notch ".")); lit "."; Star ws;
        Grp 3 (plus (notch ",")); lit ","; Star ws; Grp 4 (rep 4 dg);
        lit "."].

(* [A-Z][a-z]+,\s*[A-Z][a-z]+(?:\s+[A-Z][a-z]+)* *)
Definition chicago_author : regex :=
  seqs [surname; lit ","; Star ws; surname; Star (Seq (plus ws) surname)].

(* ([A-Z][a-z]+,\s*[A-Z][a-z]+(?:\s+[A-Z][a-z]+)* )\.\s*\x22([^\x22]+)\x22\.
   \s*([^0-9]+)\s*(\d+)(?:,\s*no\.\s*(\d+))?\s*\((\d{4})\):\s*([\d-]+) *)
Definition chicago_1 : regex :=
  seqs [Grp 1 chicago_author; lit "."; Star ws;
        quote; Grp 2 (plus notquote); quote; lit "."; Star ws;
        Grp 3 (plus (Chr (fun c => negb (isdigit c)))); Star ws;
        Grp 4 (plus dg);
        opt (seqs [lit ","; Star ws; lit "no."; Star ws; Grp 5 (plus dg)]);
        Star ws; lit "("; Grp 6 (rep 4 dg); lit ")"; lit ":"; Star ws;
        Grp 7 (plus dash_digit)].

(* ([A-Z][a-z]+,\s*[A-Z][a-z]+(?:\s+[A-Z][a-z]+)* )\.\s*([^.]+)\.
   \s*[^:]+:\s*([^,]+),\s*(\d{4})\. *)
Definition chicago_2 : regex :=
  seqs [Grp 1 chicago_author; lit "."; Star ws;
        Grp 2 (plus (notch ".")); lit "."; Star ws;
        plus (notch ":"); lit ":"; Star ws;
        Grp 3 (plus (notch ",")); lit ","; Star ws; Grp 4 (rep 4 dg);
        lit "."].

(* [A-Z]\.\s*[A-Z][a-z]+(?:,\s*[A-Z]\.\s*[A-Z][a-z]+)* *)
Definition ieee_author : regex :=
  seqs [AZ; lit "."; Star ws; surname;
        Star (seqs [lit ","; Star ws; AZ; lit "."; Star ws; surname])].

(* \[(\d+)\]\s*([A-Z]\.\s*[A-Z][a-z]+(?:,\s*[A-Z]\.\s*[A-Z][a-z]+)* ),
   \s*\x22([^\x22]+)\x22,\s*([^,]+),\s*vol\.\s*(\d+)(?:,\s*no\.\s*(\d+))?,
   \s*pp\.\s*([\d-]+),\s*(\d{4}) *)
Definition ieee_1 : regex :=
  seqs [lit "["; Grp 1 (plus dg); lit "]"; Star ws; Grp 2 ieee_author;
        lit ","; Star ws; quote; Grp 3 (plus notquote); quote; lit ",";
        Star ws; Grp 4 (plus (notch ",")); lit ","; Star ws; lit "vol.";
        Star ws; Grp 5 (plus dg);
        opt (seqs [lit ","; Star ws; lit "no."; Star ws; Grp 6 (plus dg)]);
        lit ","; Star ws; lit "pp."; Star ws; Grp 7 (plus dash_digit);
        lit ","; Star ws; Grp 8 (rep 4 dg)].

(* \[(\d+)\]\s*([A-Z]\.\s*[A-Z][a-z]+(?:,\s*[A-Z]\.\s*[A-Z][a-z]+)* ),
   \s*([^.]+)\.\s*([^,]+),\s*(\d{4})\. *)
Definition ieee_2 : regex :=
  seqs [lit "["; Grp 1 (plus dg); lit "]"; Star ws; Grp 2 ieee_author;
        lit ","; Star ws; Grp 3 (plus (notch ".")); lit "."; Star ws;
        Grp 4 (plus (notch ",")); lit ","; Star ws; Grp 5 (rep 4 dg);
        lit "."].

(** The dictionary of patterns, in insertion order. *)
Definition citation_patterns : list (str * list regex) :=
  [ (py "apa", [apa_1; apa_2]);
    (py "mla", [mla_1; mla_2]);
    (py "chicago", [chicago_1; chicago_2]);
    (py "ieee", [ieee_1; ieee_2]) ].

(** *** [_determine_reference_type] *)

(** [any(keyword in ref_lower for keyword in keywords)] *)
Definition any_in (keywords : list str) (s : str) : bool :=
  existsb (fun kw => contains kw s) keywords.

Definition journal_keywords : list str :=
  [py "journal"; py "vol."; py "volume"; py "issue"].
Definition conference_keywords : list str :=
  [py "proceedings"; py "conference"; py "symposium"].
Definition book_keywords : list str :=
  [py "book"; py "publisher"; py "press"].
Definition web_keywords : list str :=
  [py "http://"; py "https://"; py "www."].

Definition _determine_reference_type (ref_text : str) : str :=
  let ref_lower := str_lower ref_text in
  if any_in journal_keywords ref_lower then py "journal"
  else if any_in conference_keywords ref_lower then py "conference"
  else if any_in book_keywords ref_lower then py "book"
  else if any_in web_keywords ref_lower then py "website"
  else if contains (py "thesis") ref_lower
          || contains (py "dissertation") ref_lower then py "thesis"
  else py "unknown".

(** *** [_extract_additional_metadata] *)

(* (?:doi:|DOI:)\s*(10\.\d+/[^\s]+)      with re.IGNORECASE *)
Definition doi_pattern : regex :=
  seqs [Alt (liti "doi:") (liti "DOI:"); Star ws;
        Grp 1 (seqs [lit "10"; lit "."; plus dg; lit "/"; plus nonws])].

(* (https?://[^\s]+) *)
Definition url_pattern : regex :=
  Grp 1 (seqs [lit "http"; opt (lit "s"); lit "://"; plus nonws]).

(* (?:ISBN:?\s* )((?:\d{3}-)?\d{1,5}-\d{1,7}-\d{1,7}-[\dX])
   with re.IGNORECASE *)
Definition isbn_pattern : regex :=
  seqs [seqs [liti "ISBN"; opt (lit ":"); Star ws];
        Grp 1 (seqs [opt (Seq (rep 3 dg) (lit "-"));
                     range 1 5 dg; lit "-"; range 1 7 dg; lit "-";
                     range 1 7 dg; lit "-";
                     Chr (fun c => isdigit c || eqc "x"%char (lower c))])].

(* (?:vol\.?\s*|volume\s* )(\d+)          with re.IGNORECASE *)
Definition volume_pattern : regex :=
  seqs [Alt (seqs [liti "vol"; opt (lit "."); Star ws])
            (seqs [liti "volume"; Star ws]);
        Grp 1 (plus dg)].

(* (?:no\.?\s*|issue\s*|number\s* )(\d+)  with re.IGNORECASE *)
Definition issue_pattern : regex :=
  seqs [alts [seqs [liti "no"; opt (lit "."); Star ws];
              seqs [liti "issue"; Star ws];
              seqs [liti "number"; Star ws]];
        Grp 1 (plus dg)].

(* (?:pp?\.?\s*|pages?\s* )([\d-]+)       with re.IGNORECASE *)
Definition pages_pattern : regex :=
  seqs [Alt (seqs [liti "p"; opt (liti "p"); opt (lit "."); Star ws])
            (seqs [liti "page"; opt (liti "s"); Star ws]);
        Grp 1 (plus dash_digit)].

(** [m = re.search(p, text)] followed by [if m: setter(m.group(1))]. *)
Definition capture (p : regex) (text : str) : option str :=
  match search p text with
  | Some m => Some (default [] (group m 1))
  | None => None
  end.

Definition assign_if {A} (o : option A)
  (setter : A -> ExtractedReference -> ExtractedReference)
  (r : ExtractedReference) : ExtractedReference :=
  match o with
  | Some v => setter v r
  | None => r
  end.

Definition _extract_additional_metadata (reference : ExtractedReference)
  (ref_text : str) : ExtractedReference :=
  let reference := assign_if (capture doi_pattern ref_text) set_doi reference in
  let reference := assign_if (capture url_pattern ref_text) set_url reference in
  let reference := assign_if (capture isbn_pattern ref_text) set_isbn reference in
  let reference :=
    assign_if (capture volume_pattern ref_text) set_volume reference in
  let reference := assign_if (capture issue_pattern ref_text) set_issue reference in
  let reference := assign_if (capture pages_pattern ref_text) set_pages reference in
  set_reference_type (_determine_reference_type ref_text) reference.

(** *** [_create_reference_from_match] *)

(** [groups[i]] of a group that takes part in every match. *)
Definition grp (gs : list (option str)) (i : nat) : str :=
  default [] (nth i gs None).

Definition _create_reference_from_match (gs : list (option str))
  (ref_text : str) (ref_number : Z) (style : str) : ExtractedReference :=
  let reference :=
    new_reference (Some ref_number) ref_text style (8 # 10) [] in
  let reference :=
    if str_eqb style (py "apa") && (3 <=? length gs)%nat then
      let reference := set_authors [strip (grp gs 0)] reference in
      let reference :=
        set_year (if str_isdigit (grp gs 1)
                  then Some (int_of_digits (grp gs 1)) else None) reference in
      let reference := set_title (strip (grp gs 2)) reference in
      if (3 <? length gs)%nat
      then set_venue (strip (grp gs 3)) reference
      else reference
    else if str_eqb style (py "ieee") && (4 <=? length gs)%nat then
      if str_isdigit (grp gs 0) then
        let reference :=
          set_reference_number (Some (int_of_digits (grp gs 0))) reference in
        let reference := set_authors [strip (grp gs 1)] reference in
        let reference := set_title (strip (grp gs 2)) reference in
        set_venue (strip (grp gs 3)) reference
      else reference
    else reference in
  _extract_additional_metadata reference ref_text.

(** *** [_parse_single_reference] *)

(** The first pattern of a style that matches, with its groups. *)
Fixpoint first_pattern (patterns : list regex) (ref_text : str)
  : option (list (option str)) :=
  match patterns with
  | [] => None
  | p :: ps =>
      match search p ref_text with
      | Some m => Some (groups p m)
      | None => first_pattern ps ref_text
      end
  end.

(** The first style, in dictionary order, one of whose patterns matches. *)
Fixpoint first_style (styles : list (str * list regex)) (ref_text : str)
  : option (str * list (option str)) :=
  match styles with
  | [] => None
  | (style, patterns) :: rest =>
      match first_pattern patterns ref_text with
      | Some gs => Some (style, gs)
      | None => first_style rest ref_text
      end
  end.

Definition failure_note : str :=
  py "Pattern matching failed, basic extraction only".

Definition _parse_single_reference (ref_text : str) (ref_number : Z)
  : ExtractedReference :=
  let ref_text := strip ref_text in
  match first_style citation_patterns ref_text with
  | Some (style, gs) =>
      _create_reference_from_match gs ref_text ref_number style
  | None =>
      new_reference (Some ref_number) ref_text [] (3 # 10) failure_note
  end.


(** *** [_find_references_section] *)

Definition nl : regex := Chr (eqc newline).                   (* \n *)

(* (?i)\n\s*references\s*\n, ..., (?i)\n\s*citations\s*\n *)
Definition section_patterns : list regex :=
  [ seqs [nl; Star ws; liti "references"; Star ws; nl];
    seqs [nl; Star ws; liti "bibliography"; Star ws; nl];
    seqs [nl; Star ws; liti "works"; plus ws; liti "cited"; Star ws; nl];
    seqs [nl; Star ws; liti "literature"; plus ws; liti "cited"; Star ws; nl];
    seqs [nl; Star ws; liti "citations"; Star ws; nl] ].

(* (?i)\n\s*appendix, (?i)\n\s*acknowledgments?,
   (?i)\n\s*author\s+information, (?i)\n\s*about\s+the\s+authors? *)
Definition end_patterns : list regex :=
  [ seqs [nl; Star ws; liti "appendix"];
    seqs [nl; Star ws; liti "acknowledgment"; opt (liti "s")];
    seqs [nl; Star ws; liti "author"; plus ws; liti "information"];
    seqs [nl; Star ws; liti "about"; plus ws; liti "the"; plus ws;
          liti "author"; opt (liti "s")] ].

(** The inner loop: the start of the first end pattern that occurs in
    [text[start_pos:]]. *)
Fixpoint first_end (patterns : list regex) (tail : str) : option nat :=
  match patterns with
  | [] => None
  | p :: ps =>
      match search p tail with
      | Some end_match => Some (m_start end_match)
      | None => first_end ps tail
      end
  end.

Fixpoint find_section (patterns : list regex) (text : str) : option str :=
  match patterns with
  | [] => None
  | p :: ps =>
      match search p text with
      | Some m =>
          let start_pos := m_end m in
          let end_pos :=
            match first_end end_patterns (skipn start_pos text) with
            | Some e => (start_pos + e)%nat
            | None => length text
            end in
          Some (strip (slice text start_pos end_pos))
      | None => find_section ps text
      end
  end.

Definition _find_references_section (text : str) : option str :=
  find_section section_patterns text.

(** *** [_is_reference_start] *)

(* ^\[\d+\]   ^\d+\.   ^[A-Z][a-z]+,\s*[A-Z]   ^[A-Z][a-z]+,\s*[A-Z][a-z]+ *)
Definition start_patterns : list regex :=
  [ seqs [Bos; lit "["; plus dg; lit "]"];
    seqs [Bos; plus dg; lit "."];
    seqs [Bos; surname; lit ","; Star ws; AZ];
    seqs [Bos; surname; lit ","; Star ws; surname] ].

Definition _is_reference_start (line : str) : bool :=
  existsb (fun p => bool_decide (is_Some (rematch p line))) start_patterns.

(** *** [_split_into_references] *)

(* \[(\d+)\] *)
Definition numbered_pattern : regex :=
  seqs [lit "["; Grp 1 (plus dg); lit "]"].

(** Strategy 1, the loop [for i in range(1, len(parts), 2)] over
    [parts[1:]]: the pairs [(parts[i], parts[i + 1])]. *)
Fixpoint bracket_refs (parts : list str) : list str :=
  match parts with
  | ref_number :: text :: parts' =>
      let ref_text := strip text in
      (if truthy ref_text
       then [py "[" ++ ref_number ++ py "] " ++ ref_text]
       else [])
      ++ bracket_refs parts'
  | _ => []
  end.

(** Strategy 2, one turn of the loop over the lines; the state is
    [(references, current_ref)]. *)
Definition line_step (st : list str * str) (line : str) : list str * str :=
  let '(references, current_ref) := st in
  let line := strip line in
  if negb (truthy line) then
    if truthy current_ref then (references ++ [current_ref], [])
    else (references, current_ref)
  else if _is_reference_start line then
    ((if truthy current_ref then references ++ [current_ref]
      else references), line)
  else if truthy current_ref then (references, current_ref ++ py " " ++ line)
  else (references, line).

Definition line_refs (text : str) : list str :=
  let '(references, current_ref) :=
    fold_left line_step (split_on newline text) ([], []) in
  if truthy current_ref then references ++ [current_ref] else references.

Definition _split_into_references (text : str) : list str :=
  match search numbered_pattern text with
  | Some _ => bracket_refs (tl (split numbered_pattern text))
  | None => line_refs text
  end.

(** *** [_parse_references_section] *)

(** The loop over [enumerate(reference_lines)], from index [i]. *)
Fixpoint parse_lines (i : Z) (reference_lines : list str)
  : list ExtractedReference :=
  match reference_lines with
  | [] => []
  | ref_text :: t =>
      if (length (strip ref_text) <? 20)%nat then parse_lines (i + 1) t
      else _parse_single_reference ref_text (i + 1) :: parse_lines (i + 1) t
  end.

Definition _parse_references_section (references_text : str)
  : list ExtractedReference :=
  parse_lines 0 (_split_into_references references_text).

(** *** [_find_numbered_references] *)

Definition not_bracket_nl : regex :=                          (* [^[\n] *)
  Chr (fun c => negb (eqc "["%char c || eqc newline c)).

(* \[(\d+)\]\s*([^[\n]+(?:\n[^[\n]+)*?)(?=\[\d+\]|\n\s*\n|$)
   with re.MULTILINE *)
Definition numbered_reference_pattern : regex :=
  seqs [lit "["; Grp 1 (plus dg); lit "]"; Star ws;
        Grp 2 (Seq (plus not_bracket_nl)
                   (LazyStar (Seq nl (plus not_bracket_nl))));
        Ahead (alts [seqs [lit "["; plus dg; lit "]"];
                     seqs [nl; Star ws; nl];
                     EolM])].

Fixpoint numbered_refs (ms : list rmatch) : list ExtractedReference :=
  match ms with
  | [] => []
  | m :: ms' =>
      let ref_number := int_of_digits (default [] (group m 1)) in
      let ref_text := strip (default [] (group m 2)) in
      if (20 <? length ref_text)%nat
      then _parse_single_reference ref_text ref_number :: numbered_refs ms'
      else numbered_refs ms'
  end.

Definition _find_numbered_references (text : str) : list ExtractedReference :=
  numbered_refs (finditer numbered_reference_pattern text).

(** *** [_calculate_string_similarity], [_are_references_similar] *)

(** [set(s.split())] *)
Definition word_set (s : str) : gset str := list_to_set (split_ws s).

Definition _calculate_string_similarity (str1 str2 : str) : Q :=
  if negb (truthy str1) || negb (truthy str2) then 0
  else
    let str1_lower := str_lower str1 in
    let str2_lower := str_lower str2 in
    if str_eqb str1_lower str2_lower then 1
    else
      let words1 := word_set str1_lower in
      let words2 := word_set str2_lower in
      let intersection := words1 ∩ words2 in
      let union := words1 ∪ words2 in
      if bool_decide (union = ∅) then 0
      else (Qnat (size intersection) / Qnat (size union))%Q.

Definition _are_references_similar (ref1 ref2 : ExtractedReference) : bool :=
  if truthy (title ref1) && truthy (title ref2)
     && Qgtb (_calculate_string_similarity (title ref1) (title ref2)) (8 # 10)
  then true
  else Qgtb (_calculate_string_similarity (full_text ref1) (full_text ref2))
            (9 # 10).

(** *** [_deduplicate_references] *)

(** [l.remove(x)]: drops the first item equal to [x]. *)
Fixpoint remove (x : ExtractedReference) (l : list ExtractedReference)
  : list ExtractedReference :=
  match l with
  | [] => []
  | y :: t => if ref_eqb y x then t else y :: remove x t
  end.

(** The inner loop: the first accepted entry the incoming one is similar
    to. *)
Fixpoint first_similar (ref : ExtractedReference)
  (unique_references : list ExtractedReference) : option ExtractedReference :=
  match unique_references with
  | [] => None
  | existing_ref :: t =>
      if _are_references_similar ref existing_ref then Some existing_ref
      else first_similar ref t
  end.

(** One turn of the outer loop. *)
Definition dedup_step (unique_references : list ExtractedReference)
  (ref : ExtractedReference) : list ExtractedReference :=
  match first_similar ref unique_references with
  | Some existing_ref =>
      if Qgtb (confidence_score ref) (confidence_score existing_ref)
      then remove existing_ref unique_references ++ [ref]
      else unique_references
  | None => unique_references ++ [ref]
  end.

Definition _deduplicate_references (references : list ExtractedReference)
  : list ExtractedReference :=
  fold_left dedup_step references [].

(** *** [_clean_reference_text] *)

Definition _clean_reference_text (text : str) : str :=
  if negb (truthy text) then []
  else
    let text := sub (plus ws) (py " ") text in                (* \s+ *)
    strip_chars (py " .,;:") text.

(** *** [_calculate_reference_completeness] *)

(** Truthiness of [ref.year]: an integer other than 0. *)
Definition year_truthy (y : option Z) : bool :=
  match y with
  | Some v => negb (v =? 0)%Z
  | None => false
  end.

Definition count_truthy (fields : list str) : nat :=
  length (filter truthy fields).

Definition _calculate_reference_completeness (ref : ExtractedReference) : Q :=
  let score : Q := 0%Q in
  let score := if truthy (authors ref) then (score + (3 # 10))%Q else score in
  let score := if truthy (title ref) then (score + (3 # 10))%Q else score in
  let score := if year_truthy (year ref) then (score + (2 # 10))%Q else score in
  let score := if truthy (venue ref) then (score + (2 # 10))%Q else score in
  let optional_fields :=
    [doi ref; url ref; volume ref; issue ref; pages ref] in
  let filled_optional := count_truthy optional_fields in
  let score :=
    (score
     + (Qnat filled_optional / Qnat (length optional_fields)) * (2 # 10))%Q in
  Qmin 1 score.

(** *** [_enhance_reference_quality] *)

Definition invalid_year_note : str := py "Invalid year detected. ".

Definition year_out_of_range (y : option Z) : bool :=
  match y with
  | Some v => (v <? 1900)%Z || (2030 <? v)%Z
  | None => false
  end.

(** The body of the loop. *)
Definition enhance_one (ref : ExtractedReference) : ExtractedReference :=
  let ref := set_full_text (_clean_reference_text (full_text ref)) ref in
  let ref := set_title (_clean_reference_text (title ref)) ref in
  let ref := set_venue (_clean_reference_text (venue ref)) ref in
  let ref :=
    if year_truthy (year ref) && year_out_of_range (year ref)
    then set_extraction_notes (extraction_notes ref ++ invalid_year_note)
           (set_year None ref)
    else ref in
  set_confidence_score (_calculate_reference_completeness ref) ref.

Definition _enhance_reference_quality (references : list ExtractedReference)
  : list ExtractedReference :=
  map enhance_one references.

(** *** [extract_references_from_text] *)

Definition extract_references_from_text (text : str)
  : list ExtractedReference :=
  let references := [] in
  let references :=
    match _find_references_section text with
    | Some references_section =>
        if truthy references_section
        then references ++ _parse_references_section references_section
        else references
    | None => references
    end in
  let references := references ++ _find_numbered_references text in
  let references := _deduplicate_references references in
  _enhance_reference_quality references.

End ReferenceParser.

(** ** [PDFTextExtractor]: the text-extraction arbiter *)

Module PDFTextExtractor.

(** A result dictionary; the keys a dictionary may lack are optional. *)
Record extraction_result : Type := mkResult {
  res_text : str;
  res_pages : option (list (Z * str));
  res_method : option str;
  res_success : option bool;
  res_error : option str;
  res_quality_score : option Q
}.

Definition academic_indicators : list str :=
  [ py "abstract"; py "introduction"; py "methodology"; py "results";
    py "conclusion"; py "references"; py "bibliography"; py "doi:";
    py "http://"; py "https://"; py "journal"; py "conference";
    py "proceedings"; py "volume"; py "issue" ].

(** [sum(1 for indicator in academic_indicators
         if indicator.lower() in text.lower())] *)
Definition indicator_count (text : str) : nat :=
  length (filter (fun indicator =>
                    contains (str_lower indicator) (str_lower text))
                 academic_indicators).

Definition _calculate_text_quality (text : str) : Q :=
  if negb (truthy text) then 0
  else
    let char_count := length text in
    let word_count := length (split_ws text) in
    Qmin 1 ((Qnat char_count / 10000) * (3 # 10)
            + (Qnat word_count / 2000) * (3 # 10)
            + (Qnat (indicator_count text)
               / Qnat (length academic_indicators)) * (4 # 10))%Q.

(** What a backend hands back: the text of each page ([None] when the
    page has no text layer), or an exception. *)
Inductive backend_outcome : Type :=
| Pages (page_texts : list (option str))
| Raises (error : str).

(** The loop over [enumerate(pdf.pages)]: the pages kept are those whose
    text passes the test [keep]. *)
Fixpoint collect_pages (keep : str -> bool) (page_num : Z)
  (page_texts : list (option str)) : list (Z * str) :=
  match page_texts with
  | [] => []
  | None :: t => collect_pages keep (page_num + 1) t
  | Some page_text :: t =>
      if keep page_text
      then (page_num + 1, page_text)%Z :: collect_pages keep (page_num + 1) t
      else collect_pages keep (page_num + 1) t
  end.

(** The dictionary built by the handler of the loop in
    [extract_text_from_pdf] when a backend raises. *)
Definition failed (error : str) : extraction_result :=
  mkResult [] (Some []) None (Some false) (Some error) None.

(** [_extract_with_pdfplumber] and [_extract_with_pypdf2] *)
Definition extract_plain (method : str) (o : backend_outcome)
  : extraction_result :=
  match o with
  | Pages page_texts =>
      let pages_content := collect_pages truthy 0 page_texts in
      let full_text := join [newline] (map snd pages_content) in
      mkResult full_text (Some pages_content) (Some method) (Some true) None
        (Some (_calculate_text_quality full_text))
  | Raises error => failed error
  end.

Definition _extract_with_pdfplumber := extract_plain (py "pdfplumber").
Definition _extract_with_pypdf2 := extract_plain (py "pypdf2").

(** [_extract_with_ocr] catches its own exceptions. *)
Definition _extract_with_ocr (o : backend_outcome) : extraction_result :=
  match o with
  | Pages page_texts =>
      let pages_content :=
        collect_pages (fun t => truthy (strip t)) 0 page_texts in
      let full_text := join [newline] (map snd pages_content) in
      mkResult full_text (Some pages_content) (Some (py "ocr")) (Some true)
        None (Some (_calculate_text_quality full_text * (8 # 10))%Q)
  | Raises error =>
      mkResult [] (Some []) (Some (py "ocr")) (Some false) (Some error)
        (Some 0%Q)
  end.

(** [result.get("success", False)], [result.get("quality_score", 0.0)] *)
Definition success (r : extraction_result) : bool :=
  default false (res_success r).
Definition quality_score (r : extraction_result) : Q :=
  default 0%Q (res_quality_score r).

Definition no_result : extraction_result :=
  mkResult [] None (Some (py "none")) None None (Some 0%Q).

(** One turn of the loop of [_select_best_extraction]. *)
Definition select_step (best_result : extraction_result)
  (entry : str * extraction_result) : extraction_result :=
  let result := snd entry in
  if success result && Qgtb (quality_score result) (quality_score best_result)
  then result
  else best_result.

(** The dictionary [extraction_results] is the list of its items in
    insertion order. *)
Definition _select_best_extraction
  (extraction_results : list (str * extraction_result)) : extraction_result :=
  fold_left select_step extraction_results no_result.

(** The dictionary filled by the loop over [self.extraction_methods]. *)
Definition run_backends (plumber pypdf2 ocr : backend_outcome)
  : list (str * extraction_result) :=
  [ (py "pdfplumber", _extract_with_pdfplumber plumber);
    (py "pypdf2", _extract_with_pypdf2 pypdf2);
    (py "ocr", _extract_with_ocr ocr) ].

Record text_extraction : Type := mkExtraction {
  text : str;
  pages : list (Z * str);
  method_used : str;
  extraction_quality : Q;
  all_results : list (str * extraction_result)
}.

Definition extract_text_from_pdf (plumber pypdf2 ocr : backend_outcome)
  : text_extraction :=
  let extraction_results := run_backends plumber pypdf2 ocr in
  let best_result := _select_best_extraction extraction_results in
  mkExtraction (res_text best_result)
    (default [] (res_pages best_result))
    (default (py "unknown") (res_method best_result))
    (quality_score best_result)
    extraction_results.

End PDFTextExtractor.

(** ** [PDFReferenceExtractionAgent] *)

Module PDFReferenceExtractionAgent.

Definition min_confidence_threshold : Q := 3 # 10.

(** What [extract_references_from_pdf] returns: the error dictionary of
    its exception handler, or the success dictionary with the references
    found and those at or above the threshold. *)
Inductive pdf_result : Type :=
| PdfError (error : str)
| PdfSuccess (references filtered_references : list ExtractedReference).

(** [extract_references_from_pdf] from the point where the text has been
    extracted (file checks before and storage after are input and
    output). *)
Definition extract_references_from_pdf
  (text_extraction_result : PDFTextExtractor.text_extraction) : pdf_result :=
  let text := PDFTextExtractor.text text_extraction_result in
  if negb (truthy text)
  then PdfError (py "No text could be extracted from the PDF")
  else
    let references := ReferenceParser.extract_references_from_text text in
    let filtered_references :=
      filter (fun ref =>
                Qle_bool min_confidence_threshold (confidence_score ref))
             references in
    PdfSuccess references filtered_references.

End PDFReferenceExtractionAgent.

(** ** Inputs and specification-level notions *)

Import ReferenceParser.

(** The input of Example 2 of the specification. *)
Definition example_2 : str :=
  py "Johnson, M., & Brown, K. (2022). Data Science Fundamentals. Academic Press.".

(** A document whose only reference carries the year 0000. *)
Definition year_zero_document : str :=
  py "[1] Smith, J. (0000). Machine learning in research. AI Journal, 15(3), 45-62.".

(** A book reference in MLA form. *)
Definition mla_book : str :=
  py "Smith, John. Deep Learning Basics. MIT Press, 2020.".

(** A candidate no style pattern matches, with a URL, a volume, pages and
    a DOI in its text. *)
Definition unmatched_candidate : str :=
  py "See https://example.org/paper for volume 3 of the journal, pp. 4-5, doi: 10.1000/182".

(** The completeness formula as the specification words it: the year
    counts when it is present (not [None]). *)
Definition indicator (b : bool) : Q := if b then 1 else 0.

Definition spec_completeness (ref : ExtractedReference) : Q :=
  Qmin 1 ((3 # 10) * indicator (truthy (authors ref))
          + (3 # 10) * indicator (truthy (title ref))
          + (2 # 10) * indicator (bool_decide (year ref <> None))
          + (2 # 10) * indicator (truthy (venue ref))
          + (2 # 10) * (Qnat (count_truthy [doi ref; url ref; volume ref;
                                            issue ref; pages ref]) / 5))%Q.

(** What the backends return for a scanned document when the OCR engine is
    missing: the two text-layer backends succeed with no text, the OCR
    backend raises. *)
Definition scanned_pdf_results : list (str * PDFTextExtractor.extraction_result) :=
  PDFTextExtractor.run_backends
    (PDFTextExtractor.Pages [None; None])
    (PDFTextExtractor.Pages [None; None])
    (PDFTextExtractor.Raises (py "tesseract is not installed")).





(** Three references for the Deduplicator: the titles of [dup_a] and
    [dup_b] each share five of their six words with the title of [dup_c],
    and only five of seven with each other. *)
Definition titled (t ft : string) (c : Q) : ExtractedReference :=
  set_title (py t) (new_reference None (py ft) [] c []).

Definition dup_a : ExtractedReference :=
  titled "automated citation analysis of research papers" "alpha" (3 # 10).
Definition dup_b : ExtractedReference :=
  titled "automated citation analysis of research articles" "beta" (3 # 10).
Definition dup_c : ExtractedReference :=
  titled "automated citation analysis of research" "gamma" (8 # 10).

(** A list of accepted entries in which no entry is similar to an earlier
    one; [seen] holds the entries before the list. *)
Fixpoint clean_from (seen l : list ExtractedReference) : Prop :=
  match l with
  | [] => True
  | x :: t =>
      (forall e, In e seen -> _are_references_similar x e = false)
      /\ clean_from (seen ++ [x]) t
  end.


(** The loops of [Re.exec] at [Star] and [LazyStar], named. *)
Definition star_loop (r1 : regex) (k : mstate -> option mstate)
  : nat -> mstate -> option mstate :=
  fix loop (n : nat) (st : mstate) {struct n} : option mstate :=
    match n with
    | O => k st
    | S n' =>
        match exec r1 st (fun st1 =>
                 if progress st st1 then loop n' st1 else None) with
        | Some m => Some m
        | None => k st
        end
    end.

Definition lazy_loop (r1 : regex) (k : mstate -> option mstate)
  : nat -> mstate -> option mstate :=
  fix loop (n : nat) (st : mstate) {struct n} : option mstate :=
    match k st with
    | Some m => Some m
    | None =>
        match n with
        | O => None
        | S n' =>
            exec r1 st (fun st1 =>
              if progress st st1 then loop n' st1 else None)
        end
    end.

(** All 256 characters. *)
Definition all_ascii : list ascii := map ascii_of_nat (seq 0 256).

(** [stuck ok r]: the pattern [r] asks for a character outside the class
    [ok], so it matches nowhere in a text made of [ok] characters only. *)
Fixpoint stuck (ok : ascii -> bool) (r : regex) : bool :=
  match r with
  | Eps | Star _ | LazyStar _ | Bos | EolM => false
  | Chr p => forallb (fun c => negb (ok c && p c)) all_ascii
  | Seq a b => stuck ok a || stuck ok b
  | Alt a b => stuck ok a && stuck ok b
  | Grp _ a | Ahead a => stuck ok a
  end.

(** The text still to read holds characters of the class [ok] only. *)
Definition all_in (ok : ascii -> bool) (st : mstate) : Prop :=
  Forall (fun c => ok c = true) (rest st).

(** A text made of whitespace only (the empty text included). *)
Definition blank (text : str) : Prop := Forall (fun c => isspace c = true) text.

(** A page that holds blanks and a line break only, and what the arbiter
    makes of a document with that single page when only the first backend
    works. *)
Definition blank_page : str := py "   " ++ [newline] ++ py "  ".

Definition blank_page_extraction : PDFTextExtractor.text_extraction :=
  PDFTextExtractor.extract_text_from_pdf
    (PDFTextExtractor.Pages [Some blank_page])
    (PDFTextExtractor.Raises (py "cannot read"))
    (PDFTextExtractor.Raises (py "tesseract is not installed")).

(** *** Bracket markers *)

(** The longest prefix of characters of a class, and what follows it. *)
Fixpoint span (p : ascii -> bool) (s : str) : str * str :=
  match s with
  | c :: t =>
      if p c then let '(a, b) := span p t in (c :: a, b) else ([], s)
  | [] => ([], [])
  end.

(** [scan_marker s]: when [s] starts with a marker, an opening bracket, one
    or more digits and a closing bracket, the digits and the text after the
    marker. *)
Definition scan_marker (s : str) : option (str * str) :=
  match s with
  | c :: t =>
      if eqc "["%char c then
        match span isdigit t with
        | ((_ :: _) as ds, c2 :: after) =>
            if eqc "]"%char c2 then Some (ds, after) else None
        | _ => None
        end
      else None
  | [] => None
  end.

(** A marker starts somewhere in [s]. *)
Fixpoint has_marker (s : str) : bool :=
  bool_decide (is_Some (scan_marker s))
  || match s with
     | [] => false
     | _ :: t => has_marker t
     end.

(** The marker with number [d]. *)
Definition marker (d : str) : str := py "[" ++ d ++ py "]".

(** A list of numbered entries, each a marker followed by its text. *)
Fixpoint numbered_entries (entries : list (str * str)) : str :=
  match entries with
  | [] => []
  | (d, body) :: es => marker d ++ body ++ numbered_entries es
  end.

(** The matches of the marker pattern in [pre ++ numbered_entries entries],
    where [pre] starts at offset [p]. *)
Fixpoint marker_matches (p : nat) (pre : str) (entries : list (str * str))
  : list rmatch :=
  match entries with
  | [] => []
  | (d, body) :: es =>
      let s := (p + length pre)%nat in
      let e := (s + 2 + length d)%nat in
      RMatch s e (body ++ numbered_entries es) [(1%nat, d)]
      :: marker_matches e body es
  end.

(** An entry of a numbered list: the number is a digit string, and the text
    holds no marker and is not blank. *)
Definition entry_ok (e : str * str) : Prop :=
  str_isdigit (fst e) = true
  /\ has_marker (snd e) = false
  /\ strip (snd e) <> [].

(** A bibliography with three bracket-numbered entries. *)
Definition three_entries : list (str * str) :=
  [ (py "1", py " Smith, J. A. (2023). Machine learning in research." ++ [newline]);
    (py "2", py " Johnson, M. (2022). Data Science [sic]." ++ [newline]);
    (py "3", py " Short one.") ].

(** What [re.split] on the marker pattern returns for
    [pre ++ numbered_entries entries]. *)
Fixpoint pieces (pre : str) (entries : list (str * str)) : list str :=
  match entries with
  | [] => [pre]
  | (d, body) :: es => pre :: d :: pieces body es
  end.

(** ** Notions used by the further properties *)

(** [r'] has every field filled that [r] has filled, among the nine fields
    the completeness score looks at. *)
Definition at_least_as_filled (r r' : ExtractedReference) : Prop :=
  (authors r <> [] -> authors r' <> [])
  /\ (title r <> [] -> title r' <> [])
  /\ (year_truthy (year r) = true -> year_truthy (year r') = true)
  /\ (venue r <> [] -> venue r' <> [])
  /\ (doi r <> [] -> doi r' <> [])
  /\ (url r <> [] -> url r' <> [])
  /\ (volume r <> [] -> volume r' <> [])
  /\ (issue r <> [] -> issue r' <> [])
  /\ (pages r <> [] -> pages r' <> []).

(** [within P r]: every character the pattern [r] can consume belongs to
    the class [P] (a lookahead consumes nothing). *)
Fixpoint within (P : ascii -> bool) (r : regex) : bool :=
  match r with
  | Eps | Bos | EolM | Ahead _ => true
  | Chr p => forallb (fun c => implb (p c) (P c)) all_ascii
  | Seq a b | Alt a b => within P a && within P b
  | Star a | LazyStar a | Grp _ a => within P a
  end.

(** [group_within i P r]: every group of [r] with number [i] captures
    characters of the class [P] only. *)
Fixpoint group_within (i : nat) (P : ascii -> bool) (r : regex) : bool :=
  match r with
  | Eps | Bos | EolM | Chr _ => true
  | Seq a b | Alt a b => group_within i P a && group_within i P b
  | Star a | LazyStar a | Ahead a => group_within i P a
  | Grp j a => (if (j =? i)%nat then within P a else true) && group_within i P a
  end.

(** Every binding of group [i] among the captures holds characters of the
    class [P] only. *)
Definition caps_within (i : nat) (P : ascii -> bool) (cs : list (nat * str))
  : Prop :=
  forall w, In (i, w) cs -> forallb P w = true.

(** What [re.sub(r'\s+', ' ', s)] returns: every run of whitespace is
    replaced by one blank; [in_ws] tells that the previous character was
    whitespace. *)
Fixpoint collapse_aux (in_ws : bool) (s : str) : str :=
  match s with
  | [] => []
  | c :: t =>
      if isspace c
      then (if in_ws then collapse_aux true t
            else " "%char :: collapse_aux true t)
      else c :: collapse_aux false t
  end.

(** [tidy prev s]: the only whitespace in [s] is the blank, and no blank
    follows whitespace ([prev] tells that whitespace precedes [s]). *)
Fixpoint tidy (prev : bool) (s : str) : bool :=
  match s with
  | [] => true
  | c :: t =>
      if isspace c then eqc " "%char c && negb prev && tidy true t
      else tidy false t
  end.

(** The characters [_clean_reference_text] strips at both ends. *)
Definition edge_char (c : ascii) : bool := existsb (eqc c) (py " .,;:").

(** ** Dictionaries *)

(** A [dict] with string keys is the list of its items in insertion
    order.  [dict_get k d] is [d.get(k)]. *)
Fixpoint dict_get {V : Type} (k : str) (d : list (str * V)) : option V :=
  match d with
  | [] => None
  | (k', v) :: t => if str_eqb k k' then Some v else dict_get k t
  end.

(** [d[k] = v]: a key already present keeps its place. *)
Fixpoint dict_set {V : Type} (k : str) (v : V) (d : list (str * V))
  : list (str * V) :=
  match d with
  | [] => [(k, v)]
  | (k', v') :: t =>
      if str_eqb k k' then (k', v) :: t else (k', v') :: dict_set k v t
  end.

(** ** [ReferenceStorageManager] *)

Module ReferenceStorageManager.

(** What the environment decides for one run: whether the spreadsheet
    libraries were imported, and, for each path, whether the saver that
    writes the file there raises (with the text of the exception).  The
    contents written are left out: the file system is the set of the
    paths written, and a saver that raises is taken to leave it as it
    was. *)
Record environment : Type := mkEnvironment {
  SPREADSHEET_LIBRARIES_AVAILABLE : bool;
  write_error : str -> option str
}.

(** How a call of a saver ends. *)
Inductive saved : Type :=
| Returned (file_path : str)
| Raised (message : str).

(** [with open(file_path, 'w') as f: ...; return file_path], and
    [wb.save(file_path); return file_path]. *)
Definition write (env : environment) (files : gset str) (file_path : str)
  : gset str * saved :=
  match write_error env file_path with
  | Some message => (files, Raised message)
  | None => ({[ file_path ]} ∪ files, Returned file_path)
  end.

Definition _save_as_json (env : environment) (files : gset str)
  (references : list ExtractedReference) (file_path : str)
  : gset str * saved :=
  write env files file_path.

Definition _save_as_csv (env : environment) (files : gset str)
  (references : list ExtractedReference) (file_path : str)
  : gset str * saved :=
  if negb (truthy references) then (files, Returned file_path)
  else write env files file_path.

Definition _save_as_text (env : environment) (files : gset str)
  (references : list ExtractedReference) (file_path : str)
  : gset str * saved :=
  write env files file_path.

Definition _save_as_excel (env : environment) (files : gset str)
  (references : list ExtractedReference) (file_path : str)
  : gset str * saved :=
  if negb (SPREADSHEET_LIBRARIES_AVAILABLE env)
  then (files, Raised (py "Spreadsheet libraries not available"))
  else write env files file_path.

Definition _save_as_markdown (env : environment) (files : gset str)
  (references : list ExtractedReference) (file_path : str)
  : gset str * saved :=
  write env files file_path.

Definition output_formats : list str :=
  [py "json"; py "csv"; py "txt"; py "xlsx"; py "md"].

(** The saver chosen by the [if]/[elif] chain, applied to its path;
    [None] is the [continue] of the last branch. *)
Definition dispatch (env : environment) (files : gset str)
  (references : list ExtractedReference) (output_path : str)
  (format_type : str) : option (gset str * saved) :=
  if str_eqb format_type (py "json")
  then Some (_save_as_json env files references (output_path ++ py ".json"))
  else if str_eqb format_type (py "csv")
  then Some (_save_as_csv env files references (output_path ++ py ".csv"))
  else if str_eqb format_type (py "txt")
  then Some (_save_as_text env files references (output_path ++ py ".txt"))
  else if str_eqb format_type (py "xlsx")
  then Some (_save_as_excel env files references (output_path ++ py ".xlsx"))
  else if str_eqb format_type (py "md")
  then Some (_save_as_markdown env files references (output_path ++ py ".md"))
  else None.

(** One turn of the loop of [store_references]; the state is the file
    system and the dictionary [output_files]. *)
Definition store_step (env : environment)
  (references : list ExtractedReference) (output_path : str)
  (state : gset str * list (str * str)) (format_type : str)
  : gset str * list (str * str) :=
  match dispatch env (fst state) references output_path format_type with
  | None => state
  | Some (files, Returned file_path) =>
      (files, dict_set format_type file_path (snd state))
  | Some (files, Raised message) =>
      (files, dict_set format_type (py "Error: " ++ message) (snd state))
  end.

Definition store_references (env : environment) (files : gset str)
  (references : list ExtractedReference) (output_path : str)
  (formats : option (list str)) : gset str * list (str * str) :=
  let formats := default output_formats formats in
  fold_left (store_step env references output_path) formats (files, []).

(** The counting loop of the summaries of [_save_as_excel] and
    [_save_as_markdown]:
    [key = field or "unknown"; counts[key] = counts.get(key, 0) + 1]. *)
Definition count_key (field : ExtractedReference -> str)
  (ref : ExtractedReference) : str :=
  if truthy (field ref) then field ref else py "unknown".

Definition count_step (field : ExtractedReference -> str)
  (counts : list (str * nat)) (ref : ExtractedReference)
  : list (str * nat) :=
  let key := count_key field ref in
  dict_set key (default 0%nat (dict_get key counts) + 1)%nat counts.

Definition reference_types (references : list ExtractedReference)
  : list (str * nat) :=
  fold_left (count_step reference_type) references [].

Definition citation_styles (references : list ExtractedReference)
  : list (str * nat) :=
  fold_left (count_step citation_style) references [].

End ReferenceStorageManager.

(** ** The agent's statistics and batch runs *)

Module AgentState.

(** [self.processing_stats]; a processing error is kept as the pair of
    the path and the message (the time stamp is left out). *)
Record processing_stats : Type := mkStats {
  total_pdfs_processed : nat;
  total_references_extracted : nat;
  average_confidence_score : Q;
  processing_errors : list (str * str)
}.

(** [__init__] and [reset_statistics] *)
Definition reset_statistics : processing_stats := mkStats 0 0 0 [].

(** [sum(ref.confidence_score for ref in refs) / len(refs)] *)
Definition sum_confidence (refs : list ExtractedReference) : Q :=
  fold_left (fun acc ref => acc + confidence_score ref)%Q refs 0%Q.

Definition average_confidence (refs : list ExtractedReference) : Q :=
  (sum_confidence refs / Qnat (length refs))%Q.

(** What the environment hands to one call: the exception raised by the
    checks of the file (missing, too large), or the outcomes of the three
    backends on it. *)
Inductive pdf_input : Type :=
| Rejected (error : str)
| Opened (plumber pypdf2 ocr : PDFTextExtractor.backend_outcome).

Definition run_pdf (input : pdf_input)
  : PDFReferenceExtractionAgent.pdf_result :=
  match input with
  | Rejected error => PDFReferenceExtractionAgent.PdfError error
  | Opened plumber pypdf2 ocr =>
      PDFReferenceExtractionAgent.extract_references_from_pdf
        (PDFTextExtractor.extract_text_from_pdf plumber pypdf2 ocr)
  end.

(** The update of the statistics at the end of
    [extract_references_from_pdf], and the one of its exception handler. *)
Definition update_statistics (stats : processing_stats) (pdf_path : str)
  (result : PDFReferenceExtractionAgent.pdf_result) : processing_stats :=
  match result with
  | PDFReferenceExtractionAgent.PdfSuccess _ filtered_references =>
      let total_processed := (total_pdfs_processed stats + 1)%nat in
      let current_avg := average_confidence_score stats in
      mkStats total_processed
        (total_references_extracted stats + length filtered_references)
        (if truthy filtered_references
         then
           let new_avg := average_confidence filtered_references in
           ((current_avg * (Qnat total_processed - 1) + new_avg)
            / Qnat total_processed)%Q
         else current_avg)
        (processing_errors stats)
  | PDFReferenceExtractionAgent.PdfError error_msg =>
      mkStats (total_pdfs_processed stats)
        (total_references_extracted stats)
        (average_confidence_score stats)
        (processing_errors stats ++ [(pdf_path, error_msg)])
  end.

(** [extract_references_from_pdf] as a transition of the agent. *)
Definition extract_references_from_pdf (stats : processing_stats)
  (pdf_path : str) (input : pdf_input)
  : processing_stats * PDFReferenceExtractionAgent.pdf_result :=
  let result := run_pdf input in
  (update_statistics stats pdf_path result, result).

Definition is_success (result : PDFReferenceExtractionAgent.pdf_result)
  : bool :=
  match result with
  | PDFReferenceExtractionAgent.PdfSuccess _ _ => true
  | PDFReferenceExtractionAgent.PdfError _ => false
  end.

(** [len(result.get("references", []))] *)
Definition references_count
  (result : PDFReferenceExtractionAgent.pdf_result) : nat :=
  match result with
  | PDFReferenceExtractionAgent.PdfSuccess _ filtered_references =>
      length filtered_references
  | PDFReferenceExtractionAgent.PdfError _ => 0
  end.

Record batch_state : Type := mkBatch {
  stats : processing_stats;
  batch_results : list (str * PDFReferenceExtractionAgent.pdf_result);
  successful_extractions : nat;
  failed_extractions : nat
}.

(** One turn of the loop of [batch_extract_references]. *)
Definition batch_step (st : batch_state) (job : str * pdf_input)
  : batch_state :=
  let pdf_path := fst job in
  let (stats', result) :=
    extract_references_from_pdf (stats st) pdf_path (snd job) in
  let batch_results := dict_set pdf_path result (batch_results st) in
  if is_success result
  then mkBatch stats' batch_results (successful_extractions st + 1)
         (failed_extractions st)
  else mkBatch stats' batch_results (successful_extractions st)
         (failed_extractions st + 1).

Record batch_summary : Type := mkSummary {
  total_files : nat;
  summary_successful_extractions : nat;
  summary_failed_extractions : nat;
  summary_total_references_extracted : nat
}.

(** [sum(len(result.get("references", []))
         for result in batch_results.values()
         if result["status"] == "success")] *)
Definition total_references
  (batch_results : list (str * PDFReferenceExtractionAgent.pdf_result))
  : nat :=
  list_sum (map (fun item => references_count (snd item))
              (List.filter (fun item => is_success (snd item))
                 batch_results)).

(** [batch_extract_references]: the paths come with what the environment
    hands to each call; the result is the agent's statistics afterwards,
    the summary and the individual results. *)
Definition batch_extract_references (stats0 : processing_stats)
  (pdf_paths : list (str * pdf_input))
  : processing_stats * batch_summary
    * list (str * PDFReferenceExtractionAgent.pdf_result) :=
  let st := fold_left batch_step pdf_paths (mkBatch stats0 [] 0 0) in
  (stats st,
   mkSummary (length pdf_paths) (successful_extractions st)
     (failed_extractions st) (total_references (batch_results st)),
   batch_results st).

End AgentState.

(** The mean confidence of the references a call accepted (0 for a call
    that failed). *)
Definition job_average (job : str * AgentState.pdf_input) : Q :=
  match AgentState.run_pdf (snd job) with
  | PDFReferenceExtractionAgent.PdfSuccess _ filtered_references =>
      AgentState.average_confidence filtered_references
  | PDFReferenceExtractionAgent.PdfError _ => 0
  end.

(** A call that succeeded accepted at least one reference. *)
Definition accepts_some (job : str * AgentState.pdf_input) : Prop :=
  match AgentState.run_pdf (snd job) with
  | PDFReferenceExtractionAgent.PdfSuccess _ filtered_references =>
      filtered_references <> []
  | PDFReferenceExtractionAgent.PdfError _ => True
  end.

(** A one-page document with the bracket-numbered form of Example 2, read
    by the first backend only. *)
Definition example_job : str * AgentState.pdf_input :=
  (py "paper.pdf",
   AgentState.Opened
     (PDFTextExtractor.Pages [Some (py "[1] " ++ example_2)])
     (PDFTextExtractor.Raises (py "cannot read"))
     (PDFTextExtractor.Raises (py "cannot read"))).

(** A file the checks reject. *)
Definition missing_job : str * AgentState.pdf_input :=
  (py "missing.pdf", AgentState.Rejected (py "PDF file not found: missing.pdf")).

(** What [store_references] can record for a known format: the path of
    its file, or the text of the error of its own saver. *)
Definition entry_of (env : ReferenceStorageManager.environment)
  (output_path format_type v : str) : Prop :=
  v = output_path ++ py "." ++ format_type
  \/ exists message,
       v = py "Error: " ++ message
       /\ (ReferenceStorageManager.write_error env
             (output_path ++ py "." ++ format_type) = Some message
           \/ (format_type = py "xlsx"
               /\ ReferenceStorageManager.SPREADSHEET_LIBRARIES_AVAILABLE env
                  = false
               /\ message = py "Spreadsheet libraries not available")).

(** An environment without the spreadsheet libraries, in which every file
    can be written. *)
Definition plain_environment : ReferenceStorageManager.environment :=
  ReferenceStorageManager.mkEnvironment false (fun _ => None).

(** ** [integrate_with_aras] *)

Module Aras.

(** What [validation_result.get("corrections")] gives: nothing (no such
    key, or a falsy value), a truthy value (with the text the f-string
    renders for it), or an exception. *)
Inductive corrections : Type :=
| NoCorrections
| Corrections (rendered : str)
| GetRaises (message : str).

(** What [aras_system.validate_citations([citation_text])] followed by
    the lookup of ["status"] gives: an exception (with its text), or the
    status and what the corrections will be. *)
Inductive validation : Type :=
| ValidationRaises (message : str)
| Validation (status : str) (c : corrections).

(** The body of the loop; [aras_system] answers the call for this
    reference. *)
Definition validate_ref (answer : validation) (ref : ExtractedReference)
  : ExtractedReference :=
  match answer with
  | ValidationRaises message =>
      set_extraction_notes
        (extraction_notes ref ++ py " ARAS integration error: " ++ message)
        ref
  | Validation status c =>
      if str_eqb status (py "success")
      then
        let ref :=
          set_extraction_notes
            (extraction_notes ref ++ py " ARAS validation completed.") ref in
        match c with
        | NoCorrections => ref
        | Corrections rendered =>
            set_extraction_notes
              (extraction_notes ref ++ py " ARAS suggestions: " ++ rendered)
              ref
        | GetRaises message =>
            set_extraction_notes
              (extraction_notes ref
               ++ py " ARAS integration error: " ++ message)
              ref
        end
      else ref
  end.

(** The loop over the references; [aras_system i text] is the answer to
    the call number [i], made with the citation text [text].  The
    references are taken to be distinct objects, as those the parser
    builds are. *)
Fixpoint validate_from (aras_system : nat -> str -> validation) (i : nat)
  (references : list ExtractedReference) : list ExtractedReference :=
  match references with
  | [] => []
  | ref :: rest =>
      let citation_text := full_text ref in
      validate_ref (aras_system i citation_text) ref
      :: validate_from aras_system (S i) rest
  end.

(** The result dictionary and whether it has the key
    ["aras_integration"]. *)
Definition integrate_with_aras
  (pdf_extraction_result : PDFReferenceExtractionAgent.pdf_result)
  (aras_system : nat -> str -> validation)
  : PDFReferenceExtractionAgent.pdf_result * bool :=
  match pdf_extraction_result with
  | PDFReferenceExtractionAgent.PdfError _ => (pdf_extraction_result, false)
  | PDFReferenceExtractionAgent.PdfSuccess found references =>
      (PDFReferenceExtractionAgent.PdfSuccess found
         (validate_from aras_system 0 references), true)
  end.

End Aras.

(** * Theorems *)

(** ** The worked example of the specification (C10) *)

(** C10, as stated, fails: handed the bare text of Example 2, the pipeline
    entry point returns the empty list, because the text has neither a
    references header nor a bracket marker. *)
Lemma C10_bare_text_yields_nothing :
  extract_references_from_text example_2 = [].
Proof. vm_compute. reflexivity. Qed.

(** C10, amended: on the text of Example 2 the Style Matcher and the
    Metadata Enricher ([_parse_single_reference]) build a record with year
    2022, title "Data Science Fundamentals", venue "Academic Press" and
    type "book", whatever the sequence number; and the pipeline returns
    exactly one such record when the text is a bracket-numbered reference. *)
Theorem C10_example_2_record :
  (forall n : Z,
     let r := _parse_single_reference example_2 n in
     year r = Some 2022%Z
     /\ title r = py "Data Science Fundamentals"
     /\ venue r = py "Academic Press"
     /\ reference_type r = py "book")
  /\ (exists r,
        extract_references_from_text (py "[1] " ++ example_2) = [r]
        /\ year r = Some 2022%Z
        /\ title r = py "Data Science Fundamentals"
        /\ venue r = py "Academic Press"
        /\ reference_type r = py "book").
Proof.
  split.
  - intros n. vm_compute. repeat split; reflexivity.
  - eexists. split; [vm_compute; reflexivity|].
    vm_compute. repeat split; reflexivity.
Qed.

(** ** Year validation and the completeness score (C2, C3) *)

(** C2: the code at the failing input.  The year 0000 is parsed to the
    integer 0, which the validation [if ref.year and ...] takes for an
    absent year: the record leaves the pipeline with year 0 and no
    invalid-year note. *)
Theorem C2_year_zero_survives :
  exists r,
    extract_references_from_text year_zero_document = [r]
    /\ year r = Some 0%Z
    /\ extraction_notes r = [].
Proof.
  eexists. split; [vm_compute; reflexivity|].
  vm_compute. split; reflexivity.
Qed.

(** C3: the code at the failing input.  The surviving record has a year
    (the integer 0), so the formula of the claim gives 1, but the score
    assigned is 0.8: the test [if ref.year] leaves the year term out. *)
Theorem C3_year_zero_score :
  exists r,
    extract_references_from_text year_zero_document = [r]
    /\ year r = Some 0%Z
    /\ confidence_score r == 8 # 10
    /\ spec_completeness r == 1.
Proof.
  eexists. split; [vm_compute; reflexivity|].
  vm_compute. repeat split; reflexivity || discriminate.
Qed.

Lemma Qnat_nonneg (n : nat) : (0 <= Qnat n)%Q.
Proof. unfold Qnat, Qle. simpl. lia. Qed.

Lemma optional_share_nonneg (k : nat) : (0 <= Qnat k / Qnat 5 * (2 # 10))%Q.
Proof.
  apply Qmult_le_0_compat; [|discriminate].
  apply Qle_shift_div_l; [reflexivity|].
  rewrite Qmult_0_l. apply Qnat_nonneg.
Qed.

(** The completeness score lies in [0, 1]. *)
Lemma completeness_bounded (ref : ExtractedReference) :
  (0 <= _calculate_reference_completeness ref <= 1)%Q.
Proof.
  unfold _calculate_reference_completeness. split.
  - apply Q.min_glb; [discriminate|].
    pose proof (optional_share_nonneg
      (count_truthy [doi ref; url ref; volume ref; issue ref; pages ref])) as H.
    change (Qnat (length [doi ref; url ref; volume ref; issue ref; pages ref]))
      with (Qnat 5).
    set (o := (Qnat _ / Qnat 5 * (2 # 10))%Q) in *.
    assert (forall a : Q, (0 <= a -> 0 <= a + o)%Q) as Hadd.
    { intros a Ha. rewrite <- (Qplus_0_l 0). apply Qplus_le_compat; assumption. }
    destruct (truthy (authors ref)), (truthy (title ref)),
      (year_truthy (year ref)), (truthy (venue ref));
      apply Hadd; discriminate.
  - apply Q.le_min_l.
Qed.

(** After validation a year is absent, zero, or within [1900, 2030]. *)
Lemma enhance_one_year (ref : ExtractedReference) :
  year (enhance_one ref) = None
  \/ year (enhance_one ref) = Some 0%Z
  \/ exists y, year (enhance_one ref) = Some y /\ (1900 <= y <= 2030)%Z.
Proof.
  unfold enhance_one. cbn [year set_confidence_score].
  destruct (year ref) as [y|] eqn:Hy; cbn [year set_title set_venue set_full_text
    year_truthy year_out_of_range]; rewrite ?Hy; cbn [year_truthy year_out_of_range].
  - destruct (Z.eqb_spec y 0) as [->|Hne]; cbn.
    + right; left. rewrite Hy. reflexivity.
    + destruct (Z.ltb_spec y 1900); cbn.
      * left; reflexivity.
      * destruct (Z.ltb_spec 2030 y); cbn.
        -- left; reflexivity.
        -- right; right. exists y. rewrite Hy. split; [reflexivity|lia].
  - left. cbn. rewrite Hy. reflexivity.
Qed.

(** Every record the pipeline returns has a score in [0, 1]. *)
Lemma pipeline_confidence_bounded (text : str) :
  Forall (fun r => (0 <= confidence_score r <= 1)%Q)
         (extract_references_from_text text).
Proof.
  unfold extract_references_from_text, _enhance_reference_quality.
  apply Forall_map, Forall_forall. intros r _. apply completeness_bounded.
Qed.

(** Away from the year 0 the score is the formula of the specification. *)
Lemma completeness_agrees_off_zero (ref : ExtractedReference) :
  year ref <> Some 0%Z ->
  _calculate_reference_completeness ref == spec_completeness ref.
Proof.
  intros Hy. unfold _calculate_reference_completeness, spec_completeness.
  assert (year_truthy (year ref) = bool_decide (year ref <> None)) as ->.
  { destruct (year ref) as [y|]; cbn.
    - destruct (Z.eqb_spec y 0) as [->|]; [congruence|].
      reflexivity.
    - reflexivity. }
  change (Qnat (length [doi ref; url ref; volume ref; issue ref; pages ref]))
    with (5%Q).
  set (k := Qnat (count_truthy _)).
  apply Q.min_compat; [reflexivity|].
  destruct (truthy (authors ref)), (truthy (title ref)),
    (bool_decide (year ref <> None)), (truthy (venue ref));
    unfold indicator; field.
Qed.

(** The score of a record leaving [_enhance_reference_quality] is computed
    from its cleaned title and venue and its validated year, and replaces
    whatever confidence the record came with. *)
Lemma enhance_one_score (ref : ExtractedReference) :
  let ref' := enhance_one ref in
  confidence_score ref' = _calculate_reference_completeness ref'
  /\ full_text ref' = _clean_reference_text (full_text ref)
  /\ title ref' = _clean_reference_text (title ref)
  /\ venue ref' = _clean_reference_text (venue ref)
  /\ authors ref' = authors ref.
Proof.
  unfold enhance_one. cbv zeta.
  destruct (year_truthy _ && year_out_of_range _); repeat split; reflexivity.
Qed.

(** Unless the year 0 survives, the final score is the formula of the
    specification on the final fields. *)
Lemma enhance_one_score_formula (ref : ExtractedReference) :
  year (enhance_one ref) <> Some 0%Z ->
  confidence_score (enhance_one ref) == spec_completeness (enhance_one ref).
Proof.
  intros Hy. destruct (enhance_one_score ref) as [-> _].
  apply completeness_agrees_off_zero. exact Hy.
Qed.

(** ** The Style Matcher and the Metadata Enricher (C4, C1) *)

(** The fields the enricher assigns, whatever record it starts from. *)
Lemma extract_additional_metadata_fields (r : ExtractedReference) (t : str) :
  let r' := _extract_additional_metadata r t in
  doi r' = default (doi r) (capture doi_pattern t)
  /\ url r' = default (url r) (capture url_pattern t)
  /\ isbn r' = default (isbn r) (capture isbn_pattern t)
  /\ volume r' = default (volume r) (capture volume_pattern t)
  /\ issue r' = default (issue r) (capture issue_pattern t)
  /\ pages r' = default (pages r) (capture pages_pattern t)
  /\ reference_type r' = _determine_reference_type t.
Proof.
  unfold _extract_additional_metadata, assign_if.
  destruct (capture doi_pattern t), (capture url_pattern t),
    (capture isbn_pattern t), (capture volume_pattern t),
    (capture issue_pattern t), (capture pages_pattern t);
    cbn; repeat split; reflexivity.
Qed.

(** The enricher leaves the fields of the Style Matcher alone. *)
Lemma extract_additional_metadata_keeps (r : ExtractedReference) (t : str) :
  let r' := _extract_additional_metadata r t in
  reference_number r' = reference_number r
  /\ full_text r' = full_text r
  /\ authors r' = authors r
  /\ title r' = title r
  /\ year r' = year r
  /\ venue r' = venue r
  /\ citation_style r' = citation_style r
  /\ confidence_score r' = confidence_score r
  /\ extraction_notes r' = extraction_notes r.
Proof.
  unfold _extract_additional_metadata, assign_if.
  destruct (capture doi_pattern t), (capture url_pattern t),
    (capture isbn_pattern t), (capture volume_pattern t),
    (capture issue_pattern t), (capture pages_pattern t);
    cbn; repeat split; reflexivity.
Qed.

(** The record of a match before enrichment: what [_create_reference_from_match]
    hands to the enricher has no auxiliary field yet. *)
Lemma create_reference_from_match_fields
  (gs : list (option str)) (t : str) (n : Z) (style : str) :
  let r := _create_reference_from_match gs t n style in
  doi r = default [] (capture doi_pattern t)
  /\ url r = default [] (capture url_pattern t)
  /\ isbn r = default [] (capture isbn_pattern t)
  /\ volume r = default [] (capture volume_pattern t)
  /\ issue r = default [] (capture issue_pattern t)
  /\ pages r = default [] (capture pages_pattern t)
  /\ reference_type r = _determine_reference_type t
  /\ full_text r = t
  /\ citation_style r = style
  /\ confidence_score r = 8 # 10.
Proof.
  unfold _create_reference_from_match.
  match goal with
  | |- context [_extract_additional_metadata ?r0 t] =>
      pose proof (extract_additional_metadata_fields r0 t) as F;
      pose proof (extract_additional_metadata_keeps r0 t) as K;
      assert (doi r0 = [] /\ url r0 = [] /\ isbn r0 = [] /\ volume r0 = []
              /\ issue r0 = [] /\ pages r0 = [] /\ full_text r0 = t
              /\ citation_style r0 = style /\ confidence_score r0 = 8 # 10)
        as E
  end.
  { destruct (str_eqb style (py "apa") && (3 <=? length gs)%nat).
    - destruct (3 <? length gs)%nat; cbn; repeat split; reflexivity.
    - destruct (str_eqb style (py "ieee") && (4 <=? length gs)%nat);
        [destruct (str_isdigit (grp gs 0))|]; cbn; repeat split; reflexivity. }
  cbv zeta in F, K.
  destruct F as (F1 & F2 & F3 & F4 & F5 & F6 & F7).
  destruct K as (_ & K2 & _ & _ & _ & _ & K7 & K8 & _).
  destruct E as (E1 & E2 & E3 & E4 & E5 & E6 & E7 & E8 & E9).
  cbv zeta.
  rewrite F1, F2, F3, F4, F5, F6, F7, K2, K7, K8, E1, E2, E3, E4, E5, E6, E7,
    E8, E9.
  repeat split; reflexivity.
Qed.

(** The keyword-priority rule of [_determine_reference_type]. *)
Lemma determine_reference_type_priority (t : str) :
  let l := str_lower t in
  (any_in journal_keywords l = true ->
   _determine_reference_type t = py "journal")
  /\ (any_in journal_keywords l = false ->
      any_in conference_keywords l = true ->
      _determine_reference_type t = py "conference")
  /\ (any_in journal_keywords l = false ->
      any_in conference_keywords l = false ->
      any_in book_keywords l = true ->
      _determine_reference_type t = py "book")
  /\ (any_in journal_keywords l = false ->
      any_in conference_keywords l = false ->
      any_in book_keywords l = false ->
      any_in web_keywords l = true ->
      _determine_reference_type t = py "website")
  /\ (any_in journal_keywords l = false ->
      any_in conference_keywords l = false ->
      any_in book_keywords l = false ->
      any_in web_keywords l = false ->
      any_in [py "thesis"; py "dissertation"] l = true ->
      _determine_reference_type t = py "thesis")
  /\ (any_in journal_keywords l = false ->
      any_in conference_keywords l = false ->
      any_in book_keywords l = false ->
      any_in web_keywords l = false ->
      any_in [py "thesis"; py "dissertation"] l = false ->
      _determine_reference_type t = py "unknown").
Proof.
  cbv zeta. unfold _determine_reference_type.
  assert (any_in [py "thesis"; py "dissertation"] (str_lower t)
          = contains (py "thesis") (str_lower t)
            || contains (py "dissertation") (str_lower t)) as ->.
  { unfold any_in. cbn [existsb]. rewrite orb_false_r. reflexivity. }
  repeat split; intros; repeat
    match goal with H : _ = _ |- _ => rewrite H; clear H end; reflexivity.
Qed.

(** C1, as stated, fails: the candidate below is matched by no style
    pattern; its text holds a URL, a volume, pages, a DOI and the keyword
    "journal", yet the record built for it has none of these fields and an
    empty reference type, at the Style Matcher and at the end of the
    pipeline alike. *)
Lemma C1_unmatched_candidate_not_enriched :
  capture url_pattern unmatched_candidate = Some (py "https://example.org/paper")
  /\ capture doi_pattern unmatched_candidate = Some (py "10.1000/182")
  /\ capture volume_pattern unmatched_candidate = Some (py "3")
  /\ capture pages_pattern unmatched_candidate = Some (py "4-5")
  /\ _determine_reference_type unmatched_candidate = py "journal"
  /\ (let r := _parse_single_reference unmatched_candidate 1 in
      confidence_score r = 3 # 10
      /\ url r = [] /\ doi r = [] /\ volume r = [] /\ pages r = []
      /\ reference_type r = [])
  /\ (exists r,
        extract_references_from_text (py "[1] " ++ unmatched_candidate) = [r]
        /\ url r = [] /\ doi r = [] /\ volume r = [] /\ pages r = []
        /\ reference_type r = []).
Proof.
  repeat split; try (vm_compute; reflexivity).
  eexists. split; [vm_compute; reflexivity|].
  vm_compute. repeat split; reflexivity.
Qed.

(** C1, amended: the Metadata Enricher is applied to every candidate that
    some style pattern matches: DOI, URL, ISBN, volume, issue and pages are
    what the auxiliary patterns capture in the candidate's text (empty when
    a pattern does not occur) and the reference type follows the keyword
    priority journal, conference, book, website, thesis, unknown.  A
    candidate no style pattern matches gets the minimal record with
    confidence 0.3, these six fields empty and an empty reference type. *)
Theorem C1_enricher_runs_on_matched_candidates (ref_text : str) (n : Z) :
  let t := strip ref_text in
  let r := _parse_single_reference ref_text n in
  match first_style citation_patterns t with
  | Some _ =>
      doi r = default [] (capture doi_pattern t)
      /\ url r = default [] (capture url_pattern t)
      /\ isbn r = default [] (capture isbn_pattern t)
      /\ volume r = default [] (capture volume_pattern t)
      /\ issue r = default [] (capture issue_pattern t)
      /\ pages r = default [] (capture pages_pattern t)
      /\ reference_type r = _determine_reference_type t
      /\ reference_type r =
           (let l := str_lower t in
            if any_in journal_keywords l then py "journal"
            else if any_in conference_keywords l then py "conference"
            else if any_in book_keywords l then py "book"
            else if any_in web_keywords l then py "website"
            else if any_in [py "thesis"; py "dissertation"] l then py "thesis"
            else py "unknown")
  | None =>
      r = new_reference (Some n) t [] (3 # 10) failure_note
      /\ doi r = [] /\ url r = [] /\ isbn r = [] /\ volume r = []
      /\ issue r = [] /\ pages r = [] /\ reference_type r = []
  end.
Proof.
  cbv zeta. unfold _parse_single_reference.
  destruct (first_style citation_patterns (strip ref_text)) as [[style gs]|].
  - pose proof (create_reference_from_match_fields gs (strip ref_text) n style)
      as F. cbv zeta in F.
    destruct F as (F1 & F2 & F3 & F4 & F5 & F6 & F7 & _).
    repeat split; try assumption.
    rewrite F7. unfold _determine_reference_type, any_in. cbn [existsb].
    rewrite orb_false_r. reflexivity.
  - repeat split; reflexivity.
Qed.

(** The Style Matcher in general: no match gives the minimal record; a
    match gives the style of the first matching pattern, confidence 0.8
    and the stripped candidate as full text. *)
Lemma parse_single_reference_style (ref_text : str) (n : Z) :
  let t := strip ref_text in
  let r := _parse_single_reference ref_text n in
  match first_style citation_patterns t with
  | Some (style, _) =>
      citation_style r = style /\ confidence_score r = 8 # 10 /\ full_text r = t
  | None =>
      r = new_reference (Some n) t [] (3 # 10) failure_note
  end.
Proof.
  cbv zeta. unfold _parse_single_reference.
  destruct (first_style citation_patterns (strip ref_text)) as [[style gs]|];
    [|reflexivity].
  pose proof (create_reference_from_match_fields gs (strip ref_text) n style)
    as F. cbv zeta in F.
  destruct F as (_ & _ & _ & _ & _ & _ & _ & F8 & F9 & F10). auto.
Qed.

(** Order of evaluation: a style is consulted only when no pattern of an
    earlier style matches, and within a style a pattern only when no
    earlier one matches. *)
Lemma first_style_order (t : str) :
  first_style citation_patterns t
  = match search apa_1 t, search apa_2 t with
    | Some m, _ => Some (py "apa", groups apa_1 m)
    | None, Some m => Some (py "apa", groups apa_2 m)
    | None, None =>
        match search mla_1 t, search mla_2 t with
        | Some m, _ => Some (py "mla", groups mla_1 m)
        | None, Some m => Some (py "mla", groups mla_2 m)
        | None, None =>
            match search chicago_1 t, search chicago_2 t with
            | Some m, _ => Some (py "chicago", groups chicago_1 m)
            | None, Some m => Some (py "chicago", groups chicago_2 m)
            | None, None =>
                match search ieee_1 t, search ieee_2 t with
                | Some m, _ => Some (py "ieee", groups ieee_1 m)
                | None, Some m => Some (py "ieee", groups ieee_2 m)
                | None, None => None
                end
            end
        end
    end.
Proof.
  unfold citation_patterns. cbn [first_style first_pattern].
  destruct (search apa_1 t), (search apa_2 t), (search mla_1 t),
    (search mla_2 t), (search chicago_1 t), (search chicago_2 t),
    (search ieee_1 t), (search ieee_2 t); reflexivity.
Qed.

Lemma groups_length (p : regex) (m : rmatch) :
  length (groups p m) = ngroups p.
Proof. unfold groups. rewrite length_map, length_seq. reflexivity. Qed.

(** An APA match does populate authors, year, title and venue from the
    first four capture groups. *)
Lemma apa_match_populates (ref_text : str) (n : Z) (gs : list (option str)) :
  first_style citation_patterns (strip ref_text) = Some (py "apa", gs) ->
  let r := _parse_single_reference ref_text n in
  authors r = [strip (grp gs 0)]
  /\ year r = (if str_isdigit (grp gs 1)
               then Some (int_of_digits (grp gs 1)) else None)
  /\ title r = strip (grp gs 2)
  /\ venue r = strip (grp gs 3).
Proof.
  intros H. cbv zeta. unfold _parse_single_reference. rewrite H.
  assert (length gs = 7%nat \/ length gs = 4%nat) as Hlen.
  { rewrite first_style_order in H.
    destruct (search apa_1 (strip ref_text)) as [m1|].
    - injection H as <-. left. apply groups_length.
    - destruct (search apa_2 (strip ref_text)) as [m2|].
      + injection H as <-. right. apply groups_length.
      + destruct (search mla_1 (strip ref_text)), (search mla_2 (strip ref_text)),
          (search chicago_1 (strip ref_text)),
          (search chicago_2 (strip ref_text)),
          (search ieee_1 (strip ref_text)), (search ieee_2 (strip ref_text));
          discriminate H. }
  unfold _create_reference_from_match.
  match goal with
  | |- context [_extract_additional_metadata ?r0 ?x] =>
      pose proof (extract_additional_metadata_keeps r0 x) as K;
      cbv zeta in K; destruct K as (_ & _ & K3 & K4 & K5 & K6 & _);
      rewrite K3, K4, K5, K6; clear K3 K4 K5 K6
  end.
  change (str_eqb (py "apa") (py "apa")) with true.
  destruct Hlen as [-> | ->]; cbn; repeat split; reflexivity.
Qed.

(** C4: the code at the failing input.  The MLA book pattern matches and
    captures author, title, publisher and year, but
    [_create_reference_from_match] has no branch for the style "mla": the
    record keeps an empty author list, title and venue and no year.  At the
    end of the pipeline its completeness score is therefore 0. *)
Theorem C4_mla_match_populates_nothing :
  first_style citation_patterns mla_book
  = Some (py "mla", [Some (py "Smith, John"); Some (py "Deep Learning Basics");
                     Some (py "MIT Press"); Some (py "2020")])
  /\ (let r := _parse_single_reference mla_book 1 in
      citation_style r = py "mla" /\ confidence_score r = 8 # 10
      /\ authors r = [] /\ title r = [] /\ year r = None /\ venue r = [])
  /\ (exists r,
        extract_references_from_text (py "[1] " ++ mla_book) = [r]
        /\ citation_style r = py "mla"
        /\ authors r = [] /\ title r = [] /\ year r = None /\ venue r = []
        /\ confidence_score r == 0).
Proof.
  split; [vm_compute; reflexivity|]. split.
  - vm_compute. repeat split; reflexivity.
  - eexists. split; [vm_compute; reflexivity|].
    vm_compute. repeat split; reflexivity.
Qed.

(** ** The text-extraction arbiter (C7) *)

Section Arbiter.

Import PDFTextExtractor.

Lemma Qgtb_true (a b : Q) : Qgtb a b = true <-> (b < a)%Q.
Proof.
  unfold Qgtb. rewrite negb_true_iff. split.
  - intros H. apply Qnot_le_lt. intros Hle.
    apply Qle_bool_iff in Hle. congruence.
  - intros H. destruct (Qle_bool a b) eqn:E; [|reflexivity].
    apply Qle_bool_iff in E. exfalso. exact (Qlt_not_le _ _ H E).
Qed.

Lemma Qgtb_false (a b : Q) : Qgtb a b = false <-> (a <= b)%Q.
Proof.
  unfold Qgtb. rewrite negb_false_iff. apply Qle_bool_iff.
Qed.

(** The quality score is the formula of the specification. *)
Lemma calculate_text_quality_formula (text : str) :
  (_calculate_text_quality text
   == Qmin 1 ((3 # 10) * (Qnat (length text) / 10000)
              + (3 # 10) * (Qnat (length (split_ws text)) / 2000)
              + (4 # 10) * (Qnat (indicator_count text)
                            / Qnat (length academic_indicators))))%Q.
Proof.
  unfold _calculate_text_quality. destruct text as [|c text].
  - vm_compute. reflexivity.
  - cbn [truthy negb]. apply Q.min_compat; [reflexivity|].
    change (Qnat (length academic_indicators)) with (15%Q). field.
Qed.

(** The loop of [_select_best_extraction], from any current best. *)
Lemma select_fold (results : list (str * extraction_result))
  (b : extraction_result) :
  let best := fold_left select_step results b in
  (best = b
   /\ forall e, In e results -> success (snd e) = true ->
        (quality_score (snd e) <= quality_score b)%Q)
  \/ (exists before m after,
        results = before ++ (m, best) :: after
        /\ success best = true
        /\ (quality_score b < quality_score best)%Q
        /\ (forall e, In e before -> success (snd e) = true ->
              (quality_score (snd e) < quality_score best)%Q)
        /\ (forall e, In e after -> success (snd e) = true ->
              (quality_score (snd e) <= quality_score best)%Q)).
Proof.
  revert b. induction results as [|e rest IH]; intros b best.
  - left. split; [reflexivity|]. intros e [].
  - subst best. cbn [fold_left].
    assert (select_step b e
            = if success (snd e)
                 && Qgtb (quality_score (snd e)) (quality_score b)
              then snd e else b) as Hstep by reflexivity.
    destruct (success (snd e)) eqn:Hs; cbn [andb] in Hstep.
    + destruct (Qgtb (quality_score (snd e)) (quality_score b)) eqn:Hq;
        rewrite Hstep.
      * cbv iota. apply Qgtb_true in Hq.
        destruct (IH (snd e)) as [[Hb Hall]|(bf & m & af & Hr & Hsb & Hlt & Hbf & Haf)].
        -- right. exists [], (fst e), rest. rewrite Hb.
           repeat split; try assumption.
           ++ cbn. destruct e; reflexivity.
           ++ intros e' [].
        -- right. exists (e :: bf), m, af. repeat split; try assumption.
           ++ cbn. rewrite <- Hr. reflexivity.
           ++ eapply Qlt_trans; eassumption.
           ++ intros e' [<-|Hin] Hs'; [assumption|]. apply Hbf; assumption.
      * cbv iota. apply Qgtb_false in Hq.
        destruct (IH b) as [[Hb Hall]|(bf & m & af & Hr & Hsb & Hlt & Hbf & Haf)].
        -- left. split; [assumption|].
           intros e' [<-|Hin] Hs'; [assumption|]. apply Hall; assumption.
        -- right. exists (e :: bf), m, af. repeat split; try assumption.
           ++ cbn. rewrite <- Hr. reflexivity.
           ++ intros e' [<-|Hin] Hs'; [|apply Hbf; assumption].
              eapply Qle_lt_trans; eassumption.
    + rewrite Hstep.
      destruct (IH b) as [[Hb Hall]|(bf & m & af & Hr & Hsb & Hlt & Hbf & Haf)].
      * left. split; [assumption|].
        intros e' [<-|Hin] Hs'; [congruence|]. apply Hall; assumption.
      * right. exists (e :: bf), m, af. repeat split; try assumption.
        -- cbn. rewrite <- Hr. reflexivity.
        -- intros e' [<-|Hin] Hs'; [congruence|]. apply Hbf; assumption.
Qed.

(** C7, as stated, fails: for a scanned document both text-layer backends
    succeed with an empty text and score 0; a successful result of highest
    score exists, but the arbiter returns none of the per-backend results:
    it returns its initial placeholder, whose method is "none". *)
Lemma C7_zero_score_success_not_selected :
  (exists e, In e scanned_pdf_results
             /\ success (snd e) = true
             /\ forall e', In e' scanned_pdf_results ->
                  success (snd e') = true ->
                  (quality_score (snd e') <= quality_score (snd e))%Q)
  /\ ~ In (_select_best_extraction scanned_pdf_results)
          (map snd scanned_pdf_results)
  /\ res_method (_select_best_extraction scanned_pdf_results) = Some (py "none").
Proof.
  split; [|split].
  - exists (py "pdfplumber", _extract_with_pdfplumber (Pages [None; None])).
    split; [left; reflexivity|]. split; [reflexivity|].
    intros e' [<-|[<-|[<-|[]]]] _; vm_compute; discriminate.
  - intros H.
    assert (In (res_method (_select_best_extraction scanned_pdf_results))
               (map res_method (map snd scanned_pdf_results))) as H'
      by (apply in_map; exact H).
    vm_compute in H'.
    destruct H' as [H'|[H'|[H'|[]]]]; discriminate H'.
  - vm_compute. reflexivity.
Qed.

(** C7, amended: the quality score of a text is
    min(1, 0.3 (chars/10000) + 0.3 (words/2000) + 0.4 (indicators/N)), with
    N = 15 distinct indicators counted case-insensitively; the text-layer
    backends report that score and the OCR backend reports it multiplied
    by 0.8; the arbiter returns the successful result of highest score
    when that score is positive, the earliest such result on a tie, and
    otherwise (no successful result with a positive score) its placeholder
    with empty text, method "none" and score 0. *)
Theorem C7_arbiter_quality_and_selection :
  (forall text,
     (_calculate_text_quality text
      == Qmin 1 ((3 # 10) * (Qnat (length text) / 10000)
                 + (3 # 10) * (Qnat (length (split_ws text)) / 2000)
                 + (4 # 10) * (Qnat (indicator_count text) / 15)))%Q
     /\ indicator_count text
        = length (filter (fun i => contains (str_lower i) (str_lower text))
                         academic_indicators))
  /\ NoDup academic_indicators /\ length academic_indicators = 15%nat
  /\ (forall method page_texts,
        let r := extract_plain method (Pages page_texts) in
        success r = true
        /\ quality_score r = _calculate_text_quality (res_text r))
  /\ (forall page_texts,
        let r := _extract_with_ocr (Pages page_texts) in
        success r = true
        /\ quality_score r = (_calculate_text_quality (res_text r) * (8 # 10))%Q)
  /\ (forall results,
        let best := _select_best_extraction results in
        (best = no_result
         /\ forall e, In e results -> success (snd e) = true ->
              (quality_score (snd e) <= 0)%Q)
        \/ (exists before m after,
              results = before ++ (m, best) :: after
              /\ success best = true
              /\ (0 < quality_score best)%Q
              /\ (forall e, In e before -> success (snd e) = true ->
                    (quality_score (snd e) < quality_score best)%Q)
              /\ (forall e, In e after -> success (snd e) = true ->
                    (quality_score (snd e) <= quality_score best)%Q))).
Proof.
  repeat split.
  - apply calculate_text_quality_formula.
  - apply (bool_decide_eq_true_1 (NoDup academic_indicators)). vm_compute. reflexivity.
  - intros results. exact (select_fold results no_result).
Qed.

End Arbiter.

(** ** The Deduplicator (C5, C6) *)




Lemma lstrip_by_head (p : ascii -> bool) (s : str) (c : ascii) (t : str) :
  lstrip_by p s = c :: t -> p c = false.
Proof.
  induction s as [|x s IH]; cbn; [discriminate|].
  destruct (p x) eqn:Hx; [exact IH|]. intros [= <- _]. exact Hx.
Qed.





Lemma Qnat_pos (n : nat) : n <> 0%nat -> (0 < Qnat n)%Q.
Proof. intros H. unfold Qnat, Qlt. simpl. lia. Qed.



Lemma ref_eqb_refl (a : ExtractedReference) : ref_eqb a a = true.
Proof.
  unfold ref_eqb, str_eqb.
  rewrite !bool_decide_eq_true_2 by reflexivity.
  cbn. rewrite andb_true_r. apply Qeq_bool_iff. reflexivity.
Qed.



Lemma first_similar_none (ref : ExtractedReference)
  (unique : list ExtractedReference) :
  (forall e, In e unique -> _are_references_similar ref e = false) ->
  first_similar ref unique = None.
Proof.
  induction unique as [|x unique IH]; intros H; cbn; [reflexivity|].
  rewrite (H x) by (left; reflexivity).
  apply IH. intros e Hin. apply H. right. exact Hin.
Qed.





(** C6, as stated, fails: [dup_c] collides with [dup_a] and replaces it
    without being compared with [dup_b], which it also resembles; the
    output keeps both, and a second run merges them. *)
Lemma C6_dedup_not_idempotent :
  _deduplicate_references [dup_a; dup_b; dup_c] = [dup_b; dup_c]
  /\ _are_references_similar dup_c dup_b = true
  /\ _deduplicate_references (_deduplicate_references [dup_a; dup_b; dup_c])
     = [dup_c]
  /\ _deduplicate_references (_deduplicate_references [dup_a; dup_b; dup_c])
     <> _deduplicate_references [dup_a; dup_b; dup_c].
Proof.
  repeat split; try (vm_compute; reflexivity).
  vm_compute. discriminate.
Qed.

Lemma first_similar_None_inv (ref : ExtractedReference)
  (unique : list ExtractedReference) :
  first_similar ref unique = None ->
  forall e, In e unique -> _are_references_similar ref e = false.
Proof.
  induction unique as [|x unique IH]; cbn; intros H e Hin; [destruct Hin|].
  destruct (_are_references_similar ref x) eqn:E; [discriminate|].
  destruct Hin as [<-|Hin]; [exact E|]. apply IH; assumption.
Qed.

Lemma first_similar_Some_In (ref existing : ExtractedReference)
  (unique : list ExtractedReference) :
  first_similar ref unique = Some existing -> In existing unique.
Proof.
  induction unique as [|x unique IH]; cbn; [discriminate|].
  destruct (_are_references_similar ref x).
  - intros [= ->]. left. reflexivity.
  - intros H. right. apply IH. exact H.
Qed.

Lemma clean_from_snoc (x : ExtractedReference)
  (seen acc : list ExtractedReference) :
  clean_from seen acc ->
  (forall e, In e (seen ++ acc) -> _are_references_similar x e = false) ->
  clean_from seen (acc ++ [x]).
Proof.
  revert seen. induction acc as [|y acc IH]; intros seen Hc Hx; cbn.
  - split; [|exact I]. intros e Hin. apply Hx. rewrite app_nil_r. exact Hin.
  - destruct Hc as [Hy Hc]. split; [exact Hy|].
    apply IH; [exact Hc|]. intros e Hin. apply Hx.
    rewrite <- app_assoc in Hin. exact Hin.
Qed.

Lemma clean_from_split (seen l before after : list ExtractedReference)
  (x : ExtractedReference) :
  clean_from seen l -> l = before ++ x :: after ->
  forall e, In e (seen ++ before) -> _are_references_similar x e = false.
Proof.
  revert seen l. induction before as [|y before IH]; intros seen l Hc -> e Hin.
  - destruct Hc as [Hx _]. apply Hx. rewrite app_nil_r in Hin. exact Hin.
  - destruct Hc as [_ Hc]. apply (IH _ _ Hc eq_refl).
    rewrite <- app_assoc. exact Hin.
Qed.

(** On a clean list the Deduplicator changes nothing. *)
Lemma dedup_clean (rest acc : list ExtractedReference) :
  clean_from acc rest -> fold_left dedup_step rest acc = acc ++ rest.
Proof.
  revert acc. induction rest as [|x rest IH]; intros acc Hc; cbn.
  - rewrite app_nil_r. reflexivity.
  - destruct Hc as [Hx Hc]. unfold dedup_step at 2.
    rewrite (first_similar_none _ _ Hx).
    rewrite (IH _ Hc), <- app_assoc. reflexivity.
Qed.

(** Without a strictly more confident incoming record the loop only ever
    appends, and keeps its list clean. *)
Lemma dedup_no_replacement (l rest acc : list ExtractedReference) :
  (forall x y, In x l -> In y l ->
     (confidence_score x <= confidence_score y)%Q) ->
  incl rest l -> incl acc l -> clean_from [] acc ->
  clean_from [] (fold_left dedup_step rest acc).
Proof.
  intros Hconf. revert acc.
  induction rest as [|x rest IH]; intros acc Hr Ha Hc; cbn; [exact Hc|].
  assert (In x l) as Hx by (apply Hr; left; reflexivity).
  assert (incl rest l) as Hr' by (intros z Hz; apply Hr; right; exact Hz).
  unfold dedup_step at 2.
  destruct (first_similar x acc) as [existing|] eqn:E.
  - apply first_similar_Some_In in E.
    assert (Qgtb (confidence_score x) (confidence_score existing) = false)
      as -> by (apply Qgtb_false, Hconf; [exact Hx|apply Ha; exact E]).
    apply IH; assumption.
  - apply IH; [exact Hr'| |].
    + intros z Hz. apply in_app_or in Hz.
      destruct Hz as [Hz|[<-|[]]]; [apply Ha; exact Hz|exact Hx].
    + apply clean_from_snoc; [exact Hc|].
      cbn. apply first_similar_None_inv. exact E.
Qed.

(** C6, amended: on a list in which no reference is strictly more confident
    than another (so that no collision replaces an accepted entry, as when
    all confidences are equal) deduplication is idempotent, and its output
    holds no entry similar to an earlier one. *)
Theorem C6_dedup_idempotent_without_replacement
  (l : list ExtractedReference) :
  (forall x y, In x l -> In y l ->
     (confidence_score x <= confidence_score y)%Q) ->
  let out := _deduplicate_references l in
  _deduplicate_references out = out
  /\ (forall before x after e,
        out = before ++ x :: after -> In e before ->
        _are_references_similar x e = false).
Proof.
  intros Hconf out.
  assert (clean_from [] out) as Hc.
  { apply (dedup_no_replacement l); [exact Hconf|apply incl_refl| |exact I].
    intros z []. }
  split.
  - unfold _deduplicate_references at 1. apply (dedup_clean out []). exact Hc.
  - intros before x after e Hout Hin.
    apply (clean_from_split [] out before after x Hc Hout). exact Hin.
Qed.

(** C6 at a concrete list: two copies of [dup_a] and one [dup_b], all of
    confidence 0.3; the copy is dropped and a second run changes nothing. *)
Lemma C6_dedup_idempotent_without_replacement_witness :
  _deduplicate_references (_deduplicate_references [dup_a; dup_a; dup_b])
  = _deduplicate_references [dup_a; dup_a; dup_b]
  /\ _deduplicate_references [dup_a; dup_a; dup_b] = [dup_a; dup_b].
Proof.
  split; [|vm_compute; reflexivity].
  apply (C6_dedup_idempotent_without_replacement [dup_a; dup_a; dup_b]).
  intros x y [<-|[<-|[<-|[]]]] [<-|[<-|[<-|[]]]]; vm_compute; discriminate.
Defined.

(** ** Blank input (C9) *)

Section Blank.

Variable ok : ascii -> bool.

Lemma exec_Star (r1 : regex) (st : mstate) (k : mstate -> option mstate) :
  exec (Star r1) st k = star_loop r1 k (length (rest st)) st.
Proof. reflexivity. Qed.

Lemma exec_LazyStar (r1 : regex) (st : mstate) (k : mstate -> option mstate) :
  exec (LazyStar r1) st k = lazy_loop r1 k (length (rest st)) st.
Proof. reflexivity. Qed.

Lemma star_loop_0 (r1 : regex) (k : mstate -> option mstate) (st : mstate) :
  star_loop r1 k 0 st = k st.
Proof. reflexivity. Qed.

Lemma star_loop_S (r1 : regex) (k : mstate -> option mstate) (n : nat)
  (st : mstate) :
  star_loop r1 k (S n) st
  = match exec r1 st (fun st1 =>
             if progress st st1 then star_loop r1 k n st1 else None) with
    | Some m => Some m
    | None => k st
    end.
Proof. reflexivity. Qed.

Lemma lazy_loop_0 (r1 : regex) (k : mstate -> option mstate) (st : mstate) :
  lazy_loop r1 k 0 st = match k st with Some m => Some m | None => None end.
Proof. reflexivity. Qed.

Lemma lazy_loop_S (r1 : regex) (k : mstate -> option mstate) (n : nat)
  (st : mstate) :
  lazy_loop r1 k (S n) st
  = match k st with
    | Some m => Some m
    | None =>
        exec r1 st (fun st1 =>
          if progress st st1 then lazy_loop r1 k n st1 else None)
    end.
Proof. reflexivity. Qed.

Lemma all_in_advance (st : mstate) : all_in ok st -> all_in ok (advance st).
Proof.
  unfold all_in, advance. destruct (rest st) as [|c t] eqn:E; cbn.
  - rewrite E. trivial.
  - intros H. inversion H. assumption.
Qed.

(** A continuation that fails on every text of [ok] characters makes the
    matcher fail on such a text. *)
Lemma exec_dead_continuation (r : regex) :
  forall (st : mstate) (k : mstate -> option mstate),
    (forall st', all_in ok st' -> k st' = None) ->
    all_in ok st -> exec r st k = None.
Proof.
  induction r as [|p|r1 IH1 r2 IH2|r1 IH1 r2 IH2|r1 IH1|r1 IH1|i r1 IH1|r1 IH1| |];
    intros st k Hk Hst.
  - cbn [exec]. apply Hk, Hst.
  - cbn [exec]. destruct (rest st) as [|c t] eqn:E; [reflexivity|].
    destruct (p c); [|reflexivity]. apply Hk, all_in_advance, Hst.
  - cbn [exec]. apply IH1; [|exact Hst]. intros st' Hst'. apply IH2; assumption.
  - cbn [exec]. rewrite (IH1 st k Hk Hst). apply IH2; assumption.
  - rewrite exec_Star. generalize (length (rest st)). intros n.
    revert st Hst. induction n as [|n IHn]; intros st Hst.
    + rewrite star_loop_0. apply Hk, Hst.
    + rewrite star_loop_S, IH1; [apply Hk, Hst| |exact Hst].
      intros st' Hst'. destruct (progress st st'); [|reflexivity].
      apply IHn, Hst'.
  - rewrite exec_LazyStar. generalize (length (rest st)). intros n.
    revert st Hst. induction n as [|n IHn]; intros st Hst.
    + rewrite lazy_loop_0, (Hk st Hst). reflexivity.
    + rewrite lazy_loop_S, (Hk st Hst). apply IH1; [|exact Hst].
      intros st' Hst'. destruct (progress st st'); [|reflexivity].
      apply IHn, Hst'.
  - cbn [exec]. apply IH1; [|exact Hst]. intros st' Hst'. apply Hk. exact Hst'.
  - cbn [exec]. destruct (exec r1 st Some); [|reflexivity]. apply Hk. exact Hst.
  - cbn [exec]. destruct (pos st =? 0)%nat; [apply Hk, Hst|reflexivity].
  - cbn [exec]. destruct (rest st) as [|c t]; [apply Hk, Hst|].
    destruct (eqc newline c); [apply Hk, Hst|reflexivity].
Qed.

Lemma in_all_ascii (c : ascii) : In c all_ascii.
Proof.
  unfold all_ascii. rewrite <- (ascii_nat_embedding c).
  apply in_map, in_seq. pose proof (nat_ascii_bounded c). lia.
Qed.

(** A stuck pattern matches nowhere in a text of [ok] characters. *)
Lemma exec_stuck (r : regex) :
  forall (st : mstate) (k : mstate -> option mstate),
    stuck ok r = true -> all_in ok st -> exec r st k = None.
Proof.
  induction r as [|p|r1 IH1 r2 IH2|r1 IH1 r2 IH2|r1 IH1|r1 IH1|i r1 IH1|r1 IH1| |];
    intros st k Hs Hst; cbn [stuck] in Hs; try discriminate.
  - cbn [exec]. destruct (rest st) as [|c t] eqn:E; [reflexivity|].
    rewrite forallb_forall in Hs. specialize (Hs c (in_all_ascii c)).
    unfold all_in in Hst. rewrite E in Hst. inversion Hst as [|? ? Hc _].
    rewrite Hc in Hs. cbn in Hs. destruct (p c); [discriminate|reflexivity].
  - cbn [exec]. apply orb_true_iff in Hs. destruct Hs as [Hs|Hs].
    + apply IH1; assumption.
    + apply exec_dead_continuation; [|exact Hst].
      intros st' Hst'. apply IH2; assumption.
  - cbn [exec]. apply andb_true_iff in Hs. destruct Hs as [Hs1 Hs2].
    rewrite (IH1 st k Hs1 Hst). apply IH2; assumption.
  - cbn [exec]. apply IH1; assumption.
  - cbn [exec]. rewrite (IH1 st Some Hs Hst). reflexivity.
Qed.

Lemma search_from_stuck (r : regex) (s : str) (p : nat) :
  stuck ok r = true -> Forall (fun c => ok c = true) s ->
  search_from r p s = None.
Proof.
  intros Hs. revert p. induction s as [|c s IH]; intros p Hall; cbn;
    unfold match_at; rewrite (exec_stuck r _ _ Hs) by exact Hall.
  - reflexivity.
  - apply IH. inversion Hall. assumption.
Qed.

End Blank.

Lemma find_section_blank (patterns : list regex) (text : str) :
  forallb (stuck isspace) patterns = true -> blank text ->
  find_section patterns text = None.
Proof.
  intros Hp Hb. induction patterns as [|p ps IH]; cbn; [reflexivity|].
  cbn in Hp. apply andb_true_iff in Hp. destruct Hp as [Hp Hps].
  unfold search. rewrite (search_from_stuck isspace p text 0 Hp Hb).
  apply IH. exact Hps.
Qed.

(** On a blank text neither segmentation pass finds a candidate. *)
Lemma blank_text_no_references (text : str) :
  blank text -> extract_references_from_text text = [].
Proof.
  intros Hb. unfold extract_references_from_text, _find_references_section.
  rewrite (find_section_blank section_patterns text) by
    (vm_compute; reflexivity || exact Hb).
  unfold _find_numbered_references, finditer. cbn [matches_from].
  rewrite (search_from_stuck isspace numbered_reference_pattern text 0)
    by (vm_compute; reflexivity || exact Hb).
  reflexivity.
Qed.

(** C9, as stated, fails: on the empty text and on a text of blanks and
    line breaks the pipeline entry point raises nothing and returns a
    reference list, the empty one; the PDF entry point accepts the second
    text as well and answers with a success result that holds no
    reference. *)
Lemma C9_blank_text_is_not_rejected :
  extract_references_from_text [] = []
  /\ extract_references_from_text blank_page = []
  /\ PDFTextExtractor.text blank_page_extraction = blank_page
  /\ PDFReferenceExtractionAgent.extract_references_from_pdf
       blank_page_extraction
     = PDFReferenceExtractionAgent.PdfSuccess [] [].
Proof. repeat split; vm_compute; reflexivity. Qed.

(** C9, amended: for a raw text that is empty or made of whitespace only,
    the pipeline entry point [extract_references_from_text] reports no
    error and returns the empty reference list; the PDF entry point reports
    an error, "No text could be extracted from the PDF", when the
    extracted text is empty. *)
Theorem C9_blank_text_yields_empty_list (text : str) :
  blank text ->
  extract_references_from_text text = []
  /\ forall pages method quality results,
       PDFReferenceExtractionAgent.extract_references_from_pdf
         (PDFTextExtractor.mkExtraction [] pages method quality results)
       = PDFReferenceExtractionAgent.PdfError
           (py "No text could be extracted from the PDF").
Proof.
  intros Hb. split; [exact (blank_text_no_references text Hb)|].
  intros. reflexivity.
Qed.

(** C9 at a text of three blanks, a line break and a tab. *)
Lemma C9_blank_text_yields_empty_list_witness :
  extract_references_from_text (py "   " ++ [newline; ascii_of_N 9]) = [].
Proof.
  apply (C9_blank_text_yields_empty_list (py "   " ++ [newline; ascii_of_N 9])).
  repeat constructor.
Defined.

(** ** Bracket-numbered splitting (C8) *)

Lemma numbered_pattern_eq :
  numbered_pattern
  = Seq (Chr (eqc "["%char))
        (Seq (Grp 1 (Seq (Chr isdigit) (Star (Chr isdigit))))
             (Chr (eqc "]"%char))).
Proof. reflexivity. Qed.

Lemma span_app (p : ascii -> bool) (s : str) :
  s = fst (span p s) ++ snd (span p s).
Proof.
  induction s as [|c t IH]; cbn; [reflexivity|].
  destruct (p c); [|reflexivity].
  destruct (span p t) as [a b]. cbn in *. congruence.
Qed.

Lemma span_all (p : ascii -> bool) (d x : str) :
  forallb p d = true ->
  match x with [] => True | c :: _ => p c = false end ->
  span p (d ++ x) = (d, x).
Proof.
  intros Hd Hx. induction d as [|c d IH]; cbn.
  - destruct x as [|c x]; [reflexivity|]. cbn. rewrite Hx. reflexivity.
  - cbn in Hd. apply andb_true_iff in Hd. destruct Hd as [Hc Hd].
    rewrite Hc, (IH Hd). reflexivity.
Qed.

Lemma span_app_stop (p : ascii -> bool) (t x : str) (y : ascii) :
  p y = false ->
  span p (t ++ y :: x) = (fst (span p t), snd (span p t) ++ y :: x).
Proof.
  intros Hy. induction t as [|c t IH]; cbn.
  - rewrite Hy. reflexivity.
  - destruct (p c); [|reflexivity].
    rewrite IH. destruct (span p t). reflexivity.
Qed.

(** A greedy run over a character class, before a continuation that
    refuses the characters of the class: the run takes the longest prefix
    and never gives a character back. *)
Lemma star_chr (p : ascii -> bool) (k : mstate -> option mstate) :
  (forall n c s cs, p c = true -> k (MState n (c :: s) cs) = None) ->
  forall (s : str) (n : nat) (cs : list (nat * str)),
    star_loop (Chr p) k (length s) (MState n s cs)
    = k (MState (n + length (fst (span p s))) (snd (span p s)) cs).
Proof.
  intros Hk. induction s as [|c t IH]; intros n cs.
  - cbn [length]. rewrite star_loop_0. cbn. rewrite Nat.add_0_r. reflexivity.
  - cbn [length]. rewrite star_loop_S. cbn [exec rest span].
    destruct (p c) eqn:Hc.
    + unfold advance, progress. cbn [rest pos caps length].
      assert ((length t <? S (length t))%nat = true) as ->
        by (apply Nat.ltb_lt; lia).
      rewrite IH.
      destruct (span p t) as [a b]. cbn [fst snd length].
      rewrite Nat.add_succ_r, Nat.add_succ_l.
      destruct (k (MState (S (n + length a)) b cs)); [reflexivity|].
      apply Hk. exact Hc.
    + cbn. rewrite Nat.add_0_r. reflexivity.
Qed.

Lemma isdigit_not_close (c : ascii) : isdigit c = true -> eqc "]"%char c = false.
Proof. destruct c as [[] [] [] [] [] [] [] []]; vm_compute; congruence. Qed.

Lemma exec_Seq (a b : regex) (st : mstate) (k : mstate -> option mstate) :
  exec (Seq a b) st k = exec a st (fun st1 => exec b st1 k).
Proof. reflexivity. Qed.

Lemma exec_Chr (p : ascii -> bool) (st : mstate)
  (k : mstate -> option mstate) :
  exec (Chr p) st k
  = match rest st with
    | c :: _ => if p c then k (advance st) else None
    | [] => None
    end.
Proof. reflexivity. Qed.

Lemma exec_Grp (i : nat) (r : regex) (st : mstate)
  (k : mstate -> option mstate) :
  exec (Grp i r) st k
  = exec r st (fun st1 =>
      k (MState (pos st1) (rest st1) ((i, consumed st st1) :: caps st1))).
Proof. reflexivity. Qed.

(** The marker pattern at the head of a text is [scan_marker]. *)
Lemma match_at_numbered (p : nat) (s : str) :
  match_at numbered_pattern p s
  = match scan_marker s with
    | Some (ds, after) =>
        Some (RMatch p (p + 2 + length ds) after [(1%nat, ds)])
    | None => None
    end.
Proof.
  rewrite numbered_pattern_eq. unfold match_at, scan_marker.
  destruct s as [|c t]; [reflexivity|].
  rewrite exec_Seq, exec_Chr. cbn [rest].
  destruct (eqc "["%char c); [|reflexivity].
  unfold advance. cbn [rest pos caps].
  rewrite exec_Seq, exec_Grp, exec_Seq, exec_Chr. cbn [rest].
  destruct t as [|c1 t1]; [reflexivity|].
  cbn [span]. destruct (isdigit c1) eqn:Hc1; [|reflexivity].
  unfold advance. cbn [rest pos caps].
  rewrite exec_Star. cbn [rest].
  rewrite star_chr.
  2:{ intros n c0 s0 cs0 H0. rewrite exec_Chr. cbn [rest pos caps].
      rewrite (isdigit_not_close c0 H0). reflexivity. }
  pose proof (span_app isdigit t1) as Ht1.
  destruct (span isdigit t1) as [a b]. cbn [fst snd] in *.
  rewrite exec_Chr. cbn [rest pos caps].
  destruct b as [|c2 after]; [reflexivity|].
  destruct (eqc "]"%char c2); [|reflexivity].
  unfold advance, consumed. cbn [rest pos caps length].
  replace (S (S p) + length a - S p)%nat with (S (length a)) by lia.
  cbn [firstn]. rewrite Ht1, firstn_app, firstn_all, Nat.sub_diag.
  cbn [firstn]. rewrite app_nil_r.
  replace (S (S (S p) + length a))%nat with (p + 2 + S (length a))%nat by lia.
  reflexivity.
Qed.

Lemma str_isdigit_spec (d : str) :
  str_isdigit d = true -> d <> [] /\ forallb isdigit d = true.
Proof.
  unfold str_isdigit. intros H. apply andb_true_iff in H.
  destruct H as [H1 H2]. split; [|exact H2]. destruct d; [discriminate|congruence].
Qed.

(** A marker is scanned as such, whatever follows it. *)
Lemma scan_marker_marker (d after : str) :
  str_isdigit d = true -> scan_marker (marker d ++ after) = Some (d, after).
Proof.
  intros Hd. apply str_isdigit_spec in Hd. destruct Hd as [Hne Hall].
  unfold marker, scan_marker. cbn [list_ascii_of_string app].
  change (eqc "["%char "["%char) with true. cbv iota.
  rewrite <- app_assoc. cbn [app].
  rewrite (span_all isdigit d ("]"%char :: after) Hall) by reflexivity.
  destruct d; [congruence|]. reflexivity.
Qed.

(** No marker starts in [b], and none is completed by a bracket that
    follows [b]. *)
Lemma scan_marker_extend (b x : str) :
  scan_marker b = None -> b <> [] ->
  scan_marker (b ++ "["%char :: x) = None.
Proof.
  intros Hb Hne. destruct b as [|c t]; [congruence|].
  unfold scan_marker in *. cbn [app].
  destruct (eqc "["%char c); [|reflexivity].
  rewrite (span_app_stop isdigit t x "["%char) by reflexivity.
  destruct (span isdigit t) as [ds r]. cbn [fst snd].
  destruct ds as [|dc ds]; [reflexivity|].
  destruct r as [|c2 r]; [reflexivity|]. cbn [app].
  destruct (eqc "]"%char c2); [discriminate Hb|reflexivity].
Qed.

Lemma has_marker_false (c : ascii) (t : str) :
  has_marker (c :: t) = false ->
  scan_marker (c :: t) = None /\ has_marker t = false.
Proof.
  cbn [has_marker]. intros H. apply orb_false_iff in H.
  destruct H as [H1 H2]. split; [|exact H2].
  apply bool_decide_eq_false_1 in H1.
  destruct (scan_marker (c :: t)); [|reflexivity].
  exfalso. apply H1. eexists. reflexivity.
Qed.

(** In a text without marker the pattern is not found. *)
Lemma search_from_no_marker (s : str) (p : nat) :
  has_marker s = false -> search_from numbered_pattern p s = None.
Proof.
  revert p. induction s as [|c t IH]; intros p H.
  - reflexivity.
  - apply has_marker_false in H. destruct H as [H1 H2].
    cbn [search_from]. rewrite match_at_numbered, H1. apply IH. exact H2.
Qed.

(** The first marker after a text without marker is where the pattern is
    found first. *)
Lemma search_from_first_marker (pre d after : str) (p : nat) :
  has_marker pre = false -> str_isdigit d = true ->
  search_from numbered_pattern p (pre ++ marker d ++ after)
  = Some (RMatch (p + length pre) (p + length pre + 2 + length d) after
            [(1%nat, d)]).
Proof.
  intros Hpre Hd. revert p. induction pre as [|c t IH]; intros p.
  - cbn [app length]. rewrite Nat.add_0_r.
    destruct (marker d ++ after) as [|m0 ms] eqn:E.
    + discriminate E.
    + cbn [search_from]. rewrite match_at_numbered, <- E.
      rewrite (scan_marker_marker d after Hd). reflexivity.
  - apply has_marker_false in Hpre. destruct Hpre as [H1 H2].
    cbn [app search_from]. rewrite match_at_numbered.
    change (c :: t ++ marker d ++ after)
      with ((c :: t) ++ "["%char :: (d ++ py "]") ++ after).
    rewrite (scan_marker_extend (c :: t) _ H1) by discriminate.
    cbn [app length].
    change ("["%char :: (d ++ py "]") ++ after) with (marker d ++ after).
    rewrite (IH H2 (S p)).
    replace (S p + length t)%nat with (p + S (length t))%nat by lia.
    reflexivity.
Qed.

Lemma numbered_entries_length (entries : list (str * str)) :
  (length entries <= length (numbered_entries entries))%nat.
Proof.
  induction entries as [|[d b] es IH]; cbn; [lia|].
  rewrite !length_app. cbn. lia.
Qed.

(** The matches [re.finditer] produces on a numbered list. *)
Lemma matches_from_entries (entries : list (str * str)) :
  forall (pre : str) (p fuel : nat),
    has_marker pre = false ->
    Forall entry_ok entries ->
    (length entries < fuel)%nat ->
    matches_from fuel numbered_pattern p (pre ++ numbered_entries entries)
    = marker_matches p pre entries.
Proof.
  induction entries as [|[d b] es IH]; intros pre p fuel Hpre Hok Hfuel.
  - destruct fuel as [|fuel]; [cbn in Hfuel; lia|].
    cbn [matches_from numbered_entries marker_matches].
    rewrite app_nil_r, (search_from_no_marker pre p Hpre). reflexivity.
  - destruct fuel as [|fuel]; [cbn in Hfuel; lia|].
    inversion Hok as [|? ? [Hd [Hb _]] Hes]; subst.
    cbn [fst snd] in Hd, Hb.
    cbn [matches_from numbered_entries marker_matches].
    rewrite (search_from_first_marker pre d _ p Hpre Hd).
    cbn [m_start m_end m_rest].
    assert ((p + length pre <? p + length pre + 2 + length d)%nat = true) as ->
      by (apply Nat.ltb_lt; lia).
    rewrite (IH b _ fuel Hb Hes) by (cbn in Hfuel; lia).
    reflexivity.
Qed.

Lemma slice_middle (done pre tail : str) :
  slice (done ++ pre ++ tail) (length done) (length done + length pre) = pre.
Proof.
  unfold slice. rewrite drop_app_length.
  replace (length done + length pre - length done)%nat with (length pre) by lia.
  apply take_app_length.
Qed.

(** What [re.split] makes of these matches. *)
Lemma split_pieces_entries (entries : list (str * str)) :
  forall (done pre : str),
    split_pieces numbered_pattern (done ++ pre ++ numbered_entries entries)
      (length done) (marker_matches (length done) pre entries)
    = pieces pre entries.
Proof.
  induction entries as [|[d b] es IH]; intros done pre.
  - cbn [marker_matches split_pieces pieces numbered_entries].
    rewrite app_nil_r, drop_app_length. reflexivity.
  - cbn [marker_matches split_pieces pieces numbered_entries m_start m_end].
    rewrite slice_middle. f_equal.
    change (map (fun g => default [] g)
              (groups numbered_pattern
                 (RMatch (length done + length pre)
                    (length done + length pre + 2 + length d)
                    (b ++ numbered_entries es) [(1%nat, d)])))
      with [d].
    cbn [app]. f_equal.
    specialize (IH (done ++ pre ++ marker d) b).
    replace (length (done ++ pre ++ marker d))
      with (length done + length pre + 2 + length d)%nat in IH
      by (unfold marker; rewrite !length_app; cbn; lia).
    rewrite <- IH. f_equal.
    rewrite <- !app_assoc. reflexivity.
Qed.

Lemma pieces_head (pre : str) (entries : list (str * str)) :
  pieces pre entries = pre :: tl (pieces pre entries).
Proof. destruct entries as [|[d b] es]; reflexivity. Qed.

(** Strategy 1 on the split of a numbered list: one candidate per entry
    whose text is not blank. *)
Lemma bracket_refs_pieces (entries : list (str * str)) :
  forall pre,
    Forall entry_ok entries ->
    bracket_refs (tl (pieces pre entries))
    = map (fun e => py "[" ++ fst e ++ py "] " ++ strip (snd e)) entries.
Proof.
  induction entries as [|[d b] es IH]; intros pre Hok; [reflexivity|].
  inversion Hok as [|? ? [_ [_ Hs]] Hes]; subst. cbn [snd] in Hs.
  cbn [pieces tl]. rewrite (pieces_head b es). cbn [bracket_refs map fst snd].
  rewrite (IH b Hes).
  destruct (strip b); [congruence|]. reflexivity.
Qed.

Lemma span_forall (p : ascii -> bool) (s : str) :
  forallb p (fst (span p s)) = true.
Proof.
  induction s as [|c t IH]; cbn; [reflexivity|].
  destruct (p c) eqn:Hc; [|reflexivity].
  destruct (span p t) as [a b]. cbn in *. rewrite Hc. exact IH.
Qed.

Lemma eqc_eq (a c : ascii) : eqc a c = true -> c = a.
Proof. unfold eqc. intros H. apply Ascii.eqb_eq in H. congruence. Qed.

(** What [scan_marker] accepts is a marker. *)
Lemma scan_marker_Some (s ds after : str) :
  scan_marker s = Some (ds, after) ->
  s = marker ds ++ after /\ str_isdigit ds = true.
Proof.
  unfold scan_marker. destruct s as [|c t]; [discriminate|].
  destruct (eqc "["%char c) eqn:Hc; [|discriminate].
  apply eqc_eq in Hc. subst c.
  pose proof (span_app isdigit t) as Ht.
  pose proof (span_forall isdigit t) as Hall.
  destruct (span isdigit t) as [a b]. cbn [fst snd] in *.
  destruct a as [|d0 a]; [discriminate|].
  destruct b as [|c2 b]; [discriminate|].
  destruct (eqc "]"%char c2) eqn:Hc2; [|discriminate].
  apply eqc_eq in Hc2. subst c2. intros [= <- <-]. split.
  - unfold marker. rewrite Ht, <- !app_assoc. reflexivity.
  - unfold str_isdigit. rewrite Hall. reflexivity.
Qed.

(** [has_marker] says what it should: somewhere in the text there is an
    opening bracket, a non-empty digit string and a closing bracket. *)
Lemma has_marker_spec (s : str) :
  has_marker s = true
  <-> exists a d b, s = a ++ marker d ++ b /\ str_isdigit d = true.
Proof.
  split.
  - induction s as [|c t IH]; cbn [has_marker]; intros H;
      apply orb_true_iff in H; destruct H as [H|H].
    + apply bool_decide_eq_true_1 in H. destruct H as [x H]. discriminate H.
    + discriminate.
    + apply bool_decide_eq_true_1 in H. destruct H as [[ds after] H].
      apply scan_marker_Some in H. destruct H as [H1 H2].
      exists [], ds, after. split; assumption.
    + destruct (IH H) as (a & d & b & -> & Hd).
      exists (c :: a), d, b. split; [reflexivity|exact Hd].
  - intros (a & d & b & -> & Hd). induction a as [|c a IH].
    + cbn [app]. destruct (marker d ++ b) as [|m0 ms] eqn:E; [discriminate E|].
      cbn [has_marker]. rewrite <- E, (scan_marker_marker d b Hd).
      reflexivity.
    + cbn [app has_marker]. rewrite IH. apply orb_true_r.
Qed.

(** C8: a text made of a marker-free preamble followed by n >= 1 entries,
    each a bracket marker with a digit string followed by a text that holds
    no marker and is not blank, is split by the bracket-numbered strategy
    into exactly n candidates, one per marker in order: the candidate of an
    entry is its text up to the next marker, stripped, behind its bracket
    number. *)
Theorem C8_bracket_split_one_per_marker
  (pre : str) (entries : list (str * str)) :
  entries <> [] ->
  has_marker pre = false ->
  Forall entry_ok entries ->
  let candidates := _split_into_references (pre ++ numbered_entries entries) in
  candidates
  = map (fun e => py "[" ++ fst e ++ py "] " ++ strip (snd e)) entries
  /\ length candidates = length entries.
Proof.
  intros Hne Hpre Hok.
  assert (_split_into_references (pre ++ numbered_entries entries)
          = map (fun e => py "[" ++ fst e ++ py "] " ++ strip (snd e)) entries)
    as Heq.
  { unfold _split_into_references, search.
    destruct entries as [|[d b] es]; [congruence|].
    inversion Hok as [|? ? [Hd _] _]; subst. cbn [fst] in Hd.
    cbn [numbered_entries].
    rewrite (search_from_first_marker pre d _ 0 Hpre Hd).
    change (marker d ++ b ++ numbered_entries es)
      with (numbered_entries ((d, b) :: es)).
    unfold split, finditer.
    rewrite (matches_from_entries ((d, b) :: es) pre 0 _ Hpre Hok).
    - pose proof (split_pieces_entries ((d, b) :: es) [] pre) as Hsp.
      cbn [app length] in Hsp. rewrite Hsp.
      apply bracket_refs_pieces. exact Hok.
    - rewrite length_app.
      pose proof (numbered_entries_length ((d, b) :: es)). lia. }
  cbv zeta. rewrite Heq. split; [reflexivity|]. apply length_map.
Qed.

(** C8 at a bibliography of three entries [1], [2], [3] under a heading. *)
Lemma C8_bracket_split_one_per_marker_witness :
  _split_into_references (py "Sources " ++ numbered_entries three_entries)
  = [ py "[1] Smith, J. A. (2023). Machine learning in research.";
      py "[2] Johnson, M. (2022). Data Science [sic].";
      py "[3] Short one." ].
Proof.
  refine (eq_trans
            (proj1 (C8_bracket_split_one_per_marker (py "Sources ")
                      three_entries _ _ _)) _).
  - discriminate.
  - vm_compute. reflexivity.
  - repeat constructor; vm_compute; discriminate.
  - vm_compute. reflexivity.
Defined.

(** * Further properties of the code *)

(** ** The Deduplicator: what it keeps *)

Lemma remove_In (x y : ExtractedReference) (l : list ExtractedReference) :
  In y (remove x l) -> In y l.
Proof.
  induction l as [|z l IH]; cbn; [tauto|].
  destruct (ref_eqb z x); [tauto|]. intros [H|H]; [left; exact H|].
  right. apply IH. exact H.
Qed.

Lemma remove_keeps_others (x y : ExtractedReference)
  (l : list ExtractedReference) :
  In y l -> In y (remove x l) \/ ref_eqb y x = true.
Proof.
  induction l as [|z l IH]; cbn; [tauto|].
  destruct (ref_eqb z x) eqn:E.
  - intros [<-|H]; [right; exact E|left; exact H].
  - intros [<-|H]; [left; left; reflexivity|].
    destruct (IH H) as [H'|H']; [left; right; exact H'|right; exact H'].
Qed.

Lemma remove_length (x : ExtractedReference) (l : list ExtractedReference) :
  In x l -> S (length (remove x l)) = length l.
Proof.
  induction l as [|z l IH]; cbn; [tauto|].
  destruct (ref_eqb z x) eqn:E; [reflexivity|].
  intros [->|H]; [rewrite ref_eqb_refl in E; discriminate|].
  cbn. rewrite (IH H). reflexivity.
Qed.

Lemma ref_eqb_confidence (a b : ExtractedReference) :
  ref_eqb a b = true -> (confidence_score a == confidence_score b)%Q.
Proof.
  unfold ref_eqb. intros H.
  repeat (apply andb_prop in H; destruct H as [H ?]).
  apply Qeq_bool_iff. assumption.
Qed.

(** One turn of the loop: the accepted list stays within what it held and
    the incoming record, never becomes empty and grows by one at most. *)
Lemma dedup_step_shape (acc : list ExtractedReference)
  (ref : ExtractedReference) :
  (forall r, In r (dedup_step acc ref) -> In r acc \/ r = ref)
  /\ dedup_step acc ref <> []
  /\ (length acc <= length (dedup_step acc ref) <= S (length acc))%nat.
Proof.
  unfold dedup_step.
  destruct (first_similar ref acc) as [existing|] eqn:E.
  - pose proof (first_similar_Some_In _ _ _ E) as Hin.
    destruct (Qgtb (confidence_score ref) (confidence_score existing)).
    + split; [|split].
      * intros r Hr. apply in_app_or in Hr.
        destruct Hr as [Hr|[<-|[]]]; [left; eapply remove_In; exact Hr|].
        right; reflexivity.
      * intros H. apply app_eq_nil in H. destruct H as [_ H]. discriminate.
      * rewrite length_app. cbn. pose proof (remove_length _ _ Hin). lia.
    + split; [|split].
      * intros r Hr. left. exact Hr.
      * intros ->. destruct Hin.
      * lia.
  - split; [|split].
    + intros r Hr. apply in_app_or in Hr.
      destruct Hr as [Hr|[<-|[]]]; [left; exact Hr|right; reflexivity].
    + intros H. apply app_eq_nil in H. destruct H as [_ H]. discriminate.
    + rewrite length_app. cbn. lia.
Qed.

Lemma dedup_fold_shape (rest acc : list ExtractedReference) :
  (forall r, In r (fold_left dedup_step rest acc) -> In r acc \/ In r rest)
  /\ (length (fold_left dedup_step rest acc)
      <= length acc + length rest)%nat
  /\ (acc <> [] \/ rest <> [] -> fold_left dedup_step rest acc <> []).
Proof.
  revert acc. induction rest as [|x rest IH]; intros acc; cbn [fold_left].
  - split; [|split].
    + intros r Hr. left. exact Hr.
    + cbn. lia.
    + intros [H|H]; [exact H|congruence].
  - destruct (IH (dedup_step acc x)) as (I1 & I2 & I3).
    destruct (dedup_step_shape acc x) as (S1 & S2 & S3).
    split; [|split].
    + intros r Hr. destruct (I1 r Hr) as [H|H].
      * destruct (S1 r H) as [H' | ->]; [left; exact H'|right; left; reflexivity].
      * right. right. exact H.
    + cbn [length]. lia.
    + intros _. apply I3. left. exact S2.
Qed.

(** Deduplication invents no record. *)
Lemma dedup_In (l : list ExtractedReference) (r : ExtractedReference) :
  In r (_deduplicate_references l) -> In r l.
Proof.
  unfold _deduplicate_references. intros Hr.
  destruct (dedup_fold_shape l []) as (H1 & _).
  destruct (H1 r Hr) as [Hnil|H]; [destruct Hnil|exact H].
Qed.

(** X1: deduplication invents nothing and loses not everything: every
    record of the output is a record of the input, the output is not
    longer than the input, and it is empty only when the input is. *)
Theorem dedup_output_within_input (l : list ExtractedReference) :
  (forall r, In r (_deduplicate_references l) -> In r l)
  /\ (length (_deduplicate_references l) <= length l)%nat
  /\ (_deduplicate_references l = [] <-> l = []).
Proof.
  unfold _deduplicate_references.
  destruct (dedup_fold_shape l []) as (H1 & H2 & H3).
  split; [|split].
  - intros r Hr. destruct (H1 r Hr) as [Hnil|H]; [destruct Hnil|exact H].
  - exact H2.
  - split.
    + intros H. destruct l as [|x l]; [reflexivity|].
      exfalso. apply H3; [right; discriminate|exact H].
    + intros ->. reflexivity.
Qed.

(** A record is dominated in a list when the list holds a record that is at
    least as confident. *)
Lemma dedup_step_dominates (acc : list ExtractedReference)
  (ref x : ExtractedReference) :
  (exists y, In y acc /\ (confidence_score x <= confidence_score y)%Q)
  \/ x = ref ->
  exists y, In y (dedup_step acc ref)
            /\ (confidence_score x <= confidence_score y)%Q.
Proof.
  intros H. unfold dedup_step.
  destruct (first_similar ref acc) as [existing|] eqn:E.
  - pose proof (first_similar_Some_In _ _ _ E) as Hin.
    destruct (Qgtb (confidence_score ref) (confidence_score existing)) eqn:G.
    + apply Qgtb_true in G. destruct H as [(y & Hy & Hle)| ->].
      * destruct (remove_keeps_others existing y acc Hy) as [Hk|Hk].
        -- exists y. split; [apply in_or_app; left; exact Hk|exact Hle].
        -- exists ref. split; [apply in_or_app; right; left; reflexivity|].
           apply ref_eqb_confidence in Hk.
           apply Qle_trans with (confidence_score y); [exact Hle|].
           rewrite Hk. apply Qlt_le_weak. exact G.
      * exists ref. split; [apply in_or_app; right; left; reflexivity|].
        apply Qle_refl.
    + apply Qgtb_false in G. destruct H as [(y & Hy & Hle)| ->].
      * exists y. split; assumption.
      * exists existing. split; assumption.
  - destruct H as [(y & Hy & Hle)| ->].
    + exists y. split; [apply in_or_app; left; exact Hy|exact Hle].
    + exists ref. split; [apply in_or_app; right; left; reflexivity|].
      apply Qle_refl.
Qed.

Lemma dedup_fold_dominates (rest acc : list ExtractedReference)
  (x : ExtractedReference) :
  (exists y, In y acc /\ (confidence_score x <= confidence_score y)%Q)
  \/ In x rest ->
  exists y, In y (fold_left dedup_step rest acc)
            /\ (confidence_score x <= confidence_score y)%Q.
Proof.
  revert acc. induction rest as [|z rest IH]; intros acc H; cbn [fold_left].
  - destruct H as [H|[]]. exact H.
  - apply IH. destruct H as [H|[->|H]].
    + left. apply dedup_step_dominates. left. exact H.
    + left. apply dedup_step_dominates. right. reflexivity.
    + right. exact H.
Qed.

(** X2: deduplication never lowers the best confidence on offer: for every
    input record the output holds a record that is at least as confident
    (in particular the highest input confidence is still present). *)
Theorem dedup_keeps_best_confidence (l : list ExtractedReference)
  (x : ExtractedReference) :
  In x l ->
  exists y, In y (_deduplicate_references l)
            /\ (confidence_score x <= confidence_score y)%Q.
Proof.
  intros H. apply dedup_fold_dominates. right. exact H.
Qed.

(** X2 at the three records of the counterexample to idempotence: [dup_a]
    is replaced, and what replaces it is more confident. *)
Lemma dedup_keeps_best_confidence_witness :
  exists y, In y (_deduplicate_references [dup_a; dup_b; dup_c])
            /\ (confidence_score dup_a <= confidence_score y)%Q.
Proof.
  apply (dedup_keeps_best_confidence [dup_a; dup_b; dup_c] dup_a).
  left. reflexivity.
Defined.

Lemma clean_from_ordered (l seen : list ExtractedReference) :
  ForallOrdPairs (fun e x => _are_references_similar x e = false) l ->
  Forall (fun x => forall e, In e seen -> _are_references_similar x e = false)
         l ->
  clean_from seen l.
Proof.
  revert seen. induction l as [|x l IH]; intros seen Hp Hs; cbn; [exact I|].
  inversion Hp as [|? ? Hx Hl]; subst. inversion Hs as [|? ? Hsx Hsl]; subst.
  split; [exact Hsx|]. apply IH; [exact Hl|].
  rewrite Forall_forall in *. intros y Hy e He.
  apply in_app_or in He. destruct He as [He|[<-|[]]].
  - apply (Hsl y Hy). exact He.
  - apply (Hx y Hy).
Qed.

(** X3: no false merge: a list in which no record is similar to an earlier
    one passes through the Deduplicator unchanged, order included. *)
Theorem dedup_identity_on_dissimilar (l : list ExtractedReference) :
  ForallOrdPairs (fun e x => _are_references_similar x e = false) l ->
  _deduplicate_references l = l.
Proof.
  intros H. unfold _deduplicate_references.
  apply (dedup_clean l []). apply clean_from_ordered; [exact H|].
  apply Forall_forall. intros x _ e [].
Qed.

(** X3 at two records with different titles and texts. *)
Lemma dedup_identity_on_dissimilar_witness :
  _deduplicate_references [dup_a; dup_b] = [dup_a; dup_b].
Proof.
  apply (dedup_identity_on_dissimilar [dup_a; dup_b]).
  repeat constructor.
Defined.

Lemma str_eqb_sym (a b : str) : str_eqb a b = str_eqb b a.
Proof.
  unfold str_eqb. destruct (decide (a = b)) as [->|Hne]; [reflexivity|].
  rewrite !bool_decide_eq_false_2; congruence.
Qed.

Lemma string_similarity_sym (s1 s2 : str) :
  _calculate_string_similarity s1 s2 = _calculate_string_similarity s2 s1.
Proof.
  unfold _calculate_string_similarity.
  rewrite (orb_comm (negb (truthy s1))), (str_eqb_sym (str_lower s1)).
  rewrite (union_comm_L (word_set (str_lower s1))).
  rewrite (intersection_comm_L (word_set (str_lower s1))).
  reflexivity.
Qed.

(** X4: the similarity test does not depend on the order of its two
    arguments, and two records whose full texts are non-empty and equal up
    to letter case are always similar, whatever their titles. *)
Theorem references_similar_symmetric_and_copies
  (a b : ExtractedReference) :
  _are_references_similar a b = _are_references_similar b a
  /\ (full_text a <> [] ->
      str_lower (full_text a) = str_lower (full_text b) ->
      _are_references_similar a b = true).
Proof.
  split.
  - unfold _are_references_similar.
    rewrite (string_similarity_sym (title a)),
      (string_similarity_sym (full_text a)),
      (andb_comm (truthy (title a))).
    reflexivity.
  - intros Hne Heq. unfold _are_references_similar.
    destruct (truthy (title a) && truthy (title b) && _); [reflexivity|].
    unfold _calculate_string_similarity.
    assert (full_text b <> []) as Hne'.
    { intros Hb. rewrite Hb in Heq. destruct (full_text a); [congruence|].
      discriminate Heq. }
    destruct (full_text a); [congruence|]. destruct (full_text b); [congruence|].
    cbn [truthy negb orb]. unfold str_eqb.
    rewrite bool_decide_eq_true_2 by exact Heq. reflexivity.
Qed.

(** ** Where the records of the pipeline come from *)

Lemma lstrip_by_fixed (p : ascii -> bool) (s : str) :
  match s with [] => True | c :: _ => p c = false end ->
  lstrip_by p s = s.
Proof. destruct s as [|c t]; cbn; [reflexivity|]. intros ->. reflexivity. Qed.

Lemma lstrip_by_suffix (p : ascii -> bool) (s : str) :
  exists pre, s = pre ++ lstrip_by p s.
Proof.
  induction s as [|c t [pre IH]]; cbn.
  - exists []. reflexivity.
  - destruct (p c).
    + exists (c :: pre). cbn. rewrite <- IH. reflexivity.
    + exists []. reflexivity.
Qed.

Lemma lstrip_by_idem (p : ascii -> bool) (s : str) :
  lstrip_by p (lstrip_by p s) = lstrip_by p s.
Proof.
  apply lstrip_by_fixed. destruct (lstrip_by p s) as [|c t] eqn:E; [exact I|].
  eapply lstrip_by_head. exact E.
Qed.

(** [strip] is idempotent. *)
Lemma strip_by_idem (p : ascii -> bool) (s : str) :
  strip_by p (strip_by p s) = strip_by p s.
Proof.
  unfold strip_by, rstrip_by.
  set (a := lstrip_by p s). set (b := lstrip_by p (rev a)).
  assert (lstrip_by p (rev b) = rev b) as ->.
  { apply lstrip_by_fixed. destruct (rev b) as [|c t] eqn:E; [exact I|].
    destruct (lstrip_by_suffix p (rev a)) as [pre Hpre]. fold b in Hpre.
    assert (a = (c :: t) ++ rev pre) as Ha.
    { rewrite <- E, <- rev_app_distr, <- Hpre, rev_involutive. reflexivity. }
    eapply (lstrip_by_head p s). fold a. rewrite Ha. reflexivity. }
  rewrite rev_involutive. unfold b. rewrite lstrip_by_idem. reflexivity.
Qed.

Lemma parse_full_text (t : str) (n : Z) :
  full_text (_parse_single_reference t n) = strip t.
Proof.
  pose proof (parse_single_reference_style t n) as H. cbv zeta in H.
  destruct (first_style citation_patterns (strip t)) as [[style gs]|].
  - destruct H as (_ & _ & H). exact H.
  - rewrite H. reflexivity.
Qed.

Lemma parse_lines_In (lines : list str) (i : Z) (r : ExtractedReference) :
  In r (parse_lines i lines) ->
  exists t n, r = _parse_single_reference t n /\ (20 <= length (strip t))%nat.
Proof.
  revert i. induction lines as [|t lines IH]; intros i; cbn [parse_lines];
    [intros []|].
  destruct (Nat.ltb_spec (length (strip t)) 20).
  - apply IH.
  - intros [<-|H']; [|eapply IH; exact H'].
    exists t, (i + 1)%Z. split; [reflexivity|assumption].
Qed.

Lemma numbered_refs_In (ms : list rmatch) (r : ExtractedReference) :
  In r (numbered_refs ms) ->
  exists t n, r = _parse_single_reference t n /\ (20 <= length (strip t))%nat.
Proof.
  induction ms as [|m ms IH]; cbn [numbered_refs]; [intros []|].
  destruct (Nat.ltb_spec 20 (length (strip (default [] (group m 2))))).
  - intros [<-|H']; [|apply IH; exact H'].
    eexists _, _. split; [reflexivity|].
    unfold strip. rewrite strip_by_idem. fold strip. lia.
  - apply IH.
Qed.

(** The candidates behind the records the two passes hand to the
    Deduplicator. *)
Lemma pipeline_candidates (text : str) (r0 : ExtractedReference) :
  In r0 ((match _find_references_section text with
          | Some references_section =>
              if truthy references_section
              then [] ++ _parse_references_section references_section
              else []
          | None => []
          end) ++ _find_numbered_references text) ->
  exists t n, r0 = _parse_single_reference t n
              /\ (20 <= length (strip t))%nat.
Proof.
  intros H. apply in_app_or in H. destruct H as [H|H].
  - destruct (_find_references_section text) as [sec|]; [|destruct H].
    destruct (truthy sec); [|destruct H].
    cbn [app] in H. unfold _parse_references_section in H.
    eapply parse_lines_In. exact H.
  - eapply numbered_refs_In. exact H.
Qed.

(** Every record of the pipeline is an enhanced parsed candidate. *)
Lemma pipeline_records_shape (text : str) (r : ExtractedReference) :
  In r (extract_references_from_text text) ->
  exists t n, r = enhance_one (_parse_single_reference t n).
Proof.
  unfold extract_references_from_text, _enhance_reference_quality.
  intros H. apply in_map_iff in H. destruct H as (r0 & <- & H).
  apply dedup_In in H.
  destruct (pipeline_candidates text r0 H) as (t & n & -> & _).
  exists t, n. reflexivity.
Qed.

(** X5: every record the pipeline returns is the quality-enhanced record
    that the Style Matcher built for some candidate of at least 20
    characters (after stripping); shorter candidates never reach the
    output.  Its full text is the cleaned text of that candidate. *)
Theorem pipeline_records_come_from_long_candidates
  (text : str) (r : ExtractedReference) :
  In r (extract_references_from_text text) ->
  exists t n,
    r = enhance_one (_parse_single_reference t n)
    /\ (20 <= length (strip t))%nat
    /\ full_text r = _clean_reference_text (strip t).
Proof.
  unfold extract_references_from_text, _enhance_reference_quality.
  intros H. apply in_map_iff in H. destruct H as (r0 & <- & H).
  apply dedup_In in H.
  destruct (pipeline_candidates text r0 H) as (t & n & -> & Hlen).
  exists t, n. split; [reflexivity|]. split; [exact Hlen|].
  destruct (enhance_one_score (_parse_single_reference t n)) as (_ & F & _).
  rewrite F, parse_full_text. reflexivity.
Qed.

(** X5 at the bracket-numbered form of Example 2. *)
Lemma pipeline_records_come_from_long_candidates_witness :
  exists t n,
    enhance_one (_parse_single_reference example_2 1)
    = enhance_one (_parse_single_reference t n)
    /\ (20 <= length (strip t))%nat
    /\ full_text (enhance_one (_parse_single_reference example_2 1))
       = _clean_reference_text (strip t).
Proof.
  apply (pipeline_records_come_from_long_candidates (py "[1] " ++ example_2)).
  vm_compute. left. reflexivity.
Defined.

(** ** The threshold filter of the PDF entry point *)

Lemma parse_style_cases (t : str) (n : Z) :
  let r := _parse_single_reference t n in
  citation_style r = py "apa" \/ citation_style r = py "ieee"
  \/ (authors r = [] /\ title r = [] /\ year r = None /\ venue r = []).
Proof.
  cbv zeta. unfold _parse_single_reference.
  destruct (first_style citation_patterns (strip t)) as [[style gs]|].
  - unfold _create_reference_from_match.
    match goal with
    | |- context [_extract_additional_metadata ?r0 ?x] =>
        pose proof (extract_additional_metadata_keeps r0 x) as K;
        cbv zeta in K;
        destruct K as (_ & _ & K3 & K4 & K5 & K6 & K7 & _);
        rewrite K3, K4, K5, K6, K7; clear K3 K4 K5 K6 K7
    end.
    destruct (str_eqb style (py "apa") && (3 <=? length gs)%nat) eqn:Ea.
    + left. apply andb_true_iff in Ea. destruct Ea as [Ea _].
      apply bool_decide_eq_true_1 in Ea. subst style.
      destruct (3 <? length gs)%nat; reflexivity.
    + destruct (str_eqb style (py "ieee") && (4 <=? length gs)%nat) eqn:Ei.
      * right. left. apply andb_true_iff in Ei. destruct Ei as [Ei _].
        apply bool_decide_eq_true_1 in Ei. subst style.
        destruct (str_isdigit (grp gs 0)); reflexivity.
      * right. right. repeat split; reflexivity.
  - right. right. repeat split; reflexivity.
Qed.

Lemma count_truthy_le (fields : list str) :
  (count_truthy fields <= length fields)%nat.
Proof. unfold count_truthy. apply length_filter. Qed.

Lemma optional_share_le (k : nat) :
  (k <= 5)%nat -> (Qnat k / Qnat 5 * (2 # 10) <= 2 # 10)%Q.
Proof.
  intros H.
  assert (Qnat k <= Qnat 5)%Q as Hk by (unfold Qnat, Qle; simpl; lia).
  rewrite <- (Qmult_1_l (2 # 10)) at 2.
  apply Qmult_le_compat_r; [|discriminate].
  apply Qle_shift_div_r; [reflexivity|]. rewrite Qmult_1_l. exact Hk.
Qed.

(** A record without authors, title, year and venue scores 0.2 at most. *)
Lemma completeness_low (r : ExtractedReference) :
  authors r = [] -> title r = [] -> year r = None -> venue r = [] ->
  (_calculate_reference_completeness r <= 2 # 10)%Q.
Proof.
  intros Ha Ht Hy Hv. unfold _calculate_reference_completeness.
  rewrite Ha, Ht, Hy, Hv. cbn [truthy year_truthy].
  eapply Qle_trans; [apply Q.le_min_r|].
  rewrite Qplus_0_l.
  apply (optional_share_le _ (count_truthy_le [doi r; url r; volume r;
                                               issue r; pages r])).
Qed.

(** A record with authors scores 0.3 at least. *)
Lemma completeness_with_authors (r : ExtractedReference) :
  authors r <> [] -> (3 # 10 <= _calculate_reference_completeness r)%Q.
Proof.
  intros Ha. unfold _calculate_reference_completeness.
  destruct (authors r) as [|a l]; [congruence|]. cbn [truthy].
  apply Q.min_glb; [discriminate|].
  pose proof (optional_share_nonneg
    (count_truthy [doi r; url r; volume r; issue r; pages r])) as Ho.
  change (Qnat (length [doi r; url r; volume r; issue r; pages r]))
    with (Qnat 5).
  set (o := (Qnat _ / Qnat 5 * (2 # 10))%Q) in *.
  assert (forall a : Q, (3 # 10 <= a -> 3 # 10 <= a + o)%Q) as Hadd.
  { intros x Hx. rewrite <- (Qplus_0_r (3 # 10)).
    apply Qplus_le_compat; assumption. }
  assert (forall a : Q, (3 # 10 <= a -> 3 # 10 <= a + (2 # 10))%Q) as H2.
  { intros x Hx. rewrite <- (Qplus_0_r (3 # 10)).
    apply Qplus_le_compat; [assumption|discriminate]. }
  assert (forall a : Q, (3 # 10 <= a -> 3 # 10 <= a + (3 # 10))%Q) as H3.
  { intros x Hx. rewrite <- (Qplus_0_r (3 # 10)).
    apply Qplus_le_compat; [assumption|discriminate]. }
  apply Hadd.
  assert (3 # 10 <= 0 + (3 # 10))%Q as H0 by discriminate.
  destruct (truthy (title r)), (year_truthy (year r)), (truthy (venue r));
    repeat first [exact H0 | apply H2 | apply H3].
Qed.

Lemma enhance_one_keeps_empty (r : ExtractedReference) :
  authors r = [] -> title r = [] -> year r = None -> venue r = [] ->
  let r' := enhance_one r in
  authors r' = [] /\ title r' = [] /\ year r' = None /\ venue r' = [].
Proof.
  destruct r. simpl. intros -> -> -> ->.
  repeat split; reflexivity.
Qed.

Lemma enhance_one_style (r : ExtractedReference) :
  citation_style (enhance_one r) = citation_style r.
Proof.
  unfold enhance_one. cbv zeta.
  destruct (year_truthy _ && year_out_of_range _); reflexivity.
Qed.

(** X6: with the default threshold 0.3, the filter of the PDF entry point
    keeps every record matched by an APA pattern, and every record it keeps
    was matched by an APA or an IEEE pattern: the records of candidates
    matched by an MLA or a Chicago pattern, or by none, score 0.2 at most
    and are dropped. *)
Theorem threshold_filter_keeps_apa_and_only_apa_or_ieee
  (e : PDFTextExtractor.text_extraction)
  (references filtered : list ExtractedReference) :
  PDFReferenceExtractionAgent.extract_references_from_pdf e
  = PDFReferenceExtractionAgent.PdfSuccess references filtered ->
  (forall r, In r filtered ->
     In r references
     /\ (citation_style r = py "apa" \/ citation_style r = py "ieee")
     /\ (3 # 10 <= confidence_score r <= 1)%Q)
  /\ (forall r, In r references -> citation_style r = py "apa" ->
        In r filtered).
Proof.
  unfold PDFReferenceExtractionAgent.extract_references_from_pdf.
  destruct (negb (truthy (PDFTextExtractor.text e))); [discriminate|].
  intros [= <- <-]. split.
  - intros r Hr. apply list_elem_of_In, list_elem_of_filter in Hr.
    destruct Hr as [Hq Hin]. apply list_elem_of_In in Hin.
    apply Is_true_true, Qle_bool_iff in Hq. split; [exact Hin|].
    destruct (pipeline_records_shape _ _ Hin)
      as (t & n & ->).
    pose proof (enhance_one_score (_parse_single_reference t n)) as [Hs _].
    split; [|split; [exact Hq|rewrite Hs; apply completeness_bounded]].
    rewrite enhance_one_style.
    destruct (parse_style_cases t n) as [H|[H|(Ha & Ht & Hy & Hv)]];
      [left; exact H|right; exact H|].
    exfalso.
    destruct (enhance_one_keeps_empty _ Ha Ht Hy Hv) as (Ha' & Ht' & Hy' & Hv').
    pose proof (completeness_low _ Ha' Ht' Hy' Hv') as Hlow.
    rewrite <- Hs in Hlow.
    assert (3 # 10 <= 2 # 10)%Q as Habs by (eapply Qle_trans; eassumption).
    apply Habs. reflexivity.
  - intros r Hin Hstyle. apply list_elem_of_In, list_elem_of_filter.
    split; [|apply list_elem_of_In; exact Hin].
    apply Is_true_true, Qle_bool_iff.
    destruct (pipeline_records_shape _ _ Hin)
      as (t & n & ->).
    destruct (enhance_one_score (_parse_single_reference t n))
      as (Hs & _ & _ & _ & Hau).
    rewrite Hs. apply completeness_with_authors. rewrite Hau.
    rewrite enhance_one_style in Hstyle.
    pose proof (parse_single_reference_style t n) as Hp. cbv zeta in Hp.
    destruct (first_style citation_patterns (strip t)) as [[style gs]|] eqn:E.
    + destruct Hp as (Hp & _). rewrite Hstyle in Hp. subst style.
      destruct (apa_match_populates t n gs E) as (Hauth & _).
      rewrite Hauth. discriminate.
    + rewrite Hp in Hstyle. discriminate Hstyle.
Qed.

(** X6 at a one-page document that holds the bracket-numbered form of
    Example 2: its APA record is kept. *)
Lemma threshold_filter_keeps_apa_and_only_apa_or_ieee_witness :
  In (enhance_one (_parse_single_reference example_2 1))
     (filter (fun ref =>
                Qle_bool PDFReferenceExtractionAgent.min_confidence_threshold
                         (confidence_score ref))
             (extract_references_from_text (py "[1] " ++ example_2))).
Proof.
  refine (proj2 (threshold_filter_keeps_apa_and_only_apa_or_ieee
                   (PDFTextExtractor.extract_text_from_pdf
                      (PDFTextExtractor.Pages [Some (py "[1] " ++ example_2)])
                      (PDFTextExtractor.Raises (py "cannot read"))
                      (PDFTextExtractor.Raises (py "cannot read")))
                   _ _ _) _ _ _).
  - vm_compute. reflexivity.
  - vm_compute. left. reflexivity.
  - vm_compute. reflexivity.
Defined.

(** ** The completeness score grows with the fields *)

Lemma count_truthy_five (a b c d e : str) :
  count_truthy [a; b; c; d; e]
  = (Nat.b2n (truthy a) + Nat.b2n (truthy b) + Nat.b2n (truthy c)
     + Nat.b2n (truthy d) + Nat.b2n (truthy e))%nat.
Proof. destruct a, b, c, d, e; reflexivity. Qed.

Lemma b2n_truthy_mono (a b : str) :
  (a <> [] -> b <> []) -> (Nat.b2n (truthy a) <= Nat.b2n (truthy b))%nat.
Proof.
  intros H. destruct a; cbn; [lia|]. destruct b; cbn; [|lia].
  exfalso. apply H; [discriminate|reflexivity].
Qed.

Lemma indicator_mono (b b' : bool) (w : Q) :
  (0 <= w)%Q -> (b = true -> b' = true) ->
  (w * indicator b <= w * indicator b')%Q.
Proof.
  intros Hw H. destruct b.
  - rewrite (H eq_refl). apply Qle_refl.
  - unfold indicator at 1. rewrite Qmult_0_r.
    apply Qmult_le_0_compat; [exact Hw|]. destruct b'; discriminate.
Qed.

Lemma truthy_mono {A} (a b : list A) :
  (a <> [] -> b <> []) -> truthy a = true -> truthy b = true.
Proof.
  intros H Ha. destruct a; [discriminate|]. destruct b; [|reflexivity].
  exfalso. apply H; [discriminate|reflexivity].
Qed.

(** The score as one formula, with the year counted when it is truthy. *)
Lemma completeness_formula (ref : ExtractedReference) :
  (_calculate_reference_completeness ref
   == Qmin 1 ((3 # 10) * indicator (truthy (authors ref))
              + (3 # 10) * indicator (truthy (title ref))
              + (2 # 10) * indicator (year_truthy (year ref))
              + (2 # 10) * indicator (truthy (venue ref))
              + (2 # 10) * (Qnat (count_truthy [doi ref; url ref; volume ref;
                                                issue ref; pages ref]) / 5)))%Q.
Proof.
  unfold _calculate_reference_completeness.
  change (Qnat (length [doi ref; url ref; volume ref; issue ref; pages ref]))
    with (5%Q).
  set (k := Qnat (count_truthy _)).
  apply Q.min_compat; [reflexivity|].
  destruct (truthy (authors ref)), (truthy (title ref)),
    (year_truthy (year ref)), (truthy (venue ref));
    unfold indicator; field.
Qed.

(** X7: filling fields never lowers the completeness score: when a record
    has every field filled that another one has (authors, title, year,
    venue, DOI, URL, volume, issue, pages), its score is at least the
    other's. *)
Theorem completeness_monotone (r r' : ExtractedReference) :
  at_least_as_filled r r' ->
  (_calculate_reference_completeness r
   <= _calculate_reference_completeness r')%Q.
Proof.
  intros (Ha & Ht & Hy & Hv & H1 & H2 & H3 & H4 & H5).
  rewrite !completeness_formula.
  apply Q.min_le_compat_l.
  repeat apply Qplus_le_compat.
  - apply indicator_mono; [discriminate|]. apply truthy_mono. exact Ha.
  - apply indicator_mono; [discriminate|]. apply truthy_mono. exact Ht.
  - apply indicator_mono; [discriminate|]. exact Hy.
  - apply indicator_mono; [discriminate|]. apply truthy_mono. exact Hv.
  - apply Qmult_le_l; [reflexivity|].
    apply Qmult_le_compat_r; [|discriminate].
    rewrite !count_truthy_five.
    pose proof (b2n_truthy_mono _ _ H1). pose proof (b2n_truthy_mono _ _ H2).
    pose proof (b2n_truthy_mono _ _ H3). pose proof (b2n_truthy_mono _ _ H4).
    pose proof (b2n_truthy_mono _ _ H5).
    unfold Qnat, Qle. simpl. lia.
Qed.

(** X7 at the bare record of an unmatched candidate and the same record
    with a title. *)
Lemma completeness_monotone_witness :
  (_calculate_reference_completeness
     (_parse_single_reference unmatched_candidate 1)
   <= _calculate_reference_completeness
        (set_title (py "A title")
           (_parse_single_reference unmatched_candidate 1)))%Q.
Proof.
  apply completeness_monotone.
  vm_compute. repeat split; intros H; try exact H; try discriminate.
Defined.

(** ** The arbiter: quality scores and the text it returns *)

Section ArbiterExtras.

Import PDFTextExtractor.

Lemma quality_positive_parts (text : str) :
  text <> [] ->
  (0 < Qnat (length text) / 10000 * (3 # 10)
       + Qnat (length (split_ws text)) / 2000 * (3 # 10)
       + Qnat (indicator_count text) / Qnat (length academic_indicators)
         * (4 # 10))%Q.
Proof.
  intros Hne.
  assert (0 < Qnat (length text) / 10000 * (3 # 10))%Q as H1.
  { apply Qmult_lt_0_compat; [|reflexivity].
    apply Qlt_shift_div_l; [reflexivity|]. rewrite Qmult_0_l.
    apply Qnat_pos. destruct text; [congruence|discriminate]. }
  assert (0 <= Qnat (length (split_ws text)) / 2000 * (3 # 10))%Q as H2.
  { apply Qmult_le_0_compat; [|discriminate].
    apply Qle_shift_div_l; [reflexivity|]. rewrite Qmult_0_l.
    apply Qnat_nonneg. }
  assert (0 <= Qnat (indicator_count text) / Qnat (length academic_indicators)
               * (4 # 10))%Q as H3.
  { apply Qmult_le_0_compat; [|discriminate].
    apply Qle_shift_div_l; [reflexivity|]. rewrite Qmult_0_l.
    apply Qnat_nonneg. }
  set (a := (Qnat (length text) / 10000 * (3 # 10))%Q) in *.
  set (b := (Qnat (length (split_ws text)) / 2000 * (3 # 10))%Q) in *.
  set (c := (Qnat (indicator_count text) / Qnat (length academic_indicators)
             * (4 # 10))%Q) in *.
  apply Qlt_le_trans with (a + 0 + 0)%Q.
  - rewrite !Qplus_0_r. exact H1.
  - repeat apply Qplus_le_compat; try assumption. apply Qle_refl.
Qed.

(** Any text at all scores above 0. *)
Lemma text_quality_positive (text : str) :
  text <> [] -> (0 < _calculate_text_quality text)%Q.
Proof.
  intros Hne. unfold _calculate_text_quality.
  destruct text as [|c t]; [contradiction|]. cbn [truthy negb].
  apply Q.min_glb_lt; [reflexivity|].
  apply (quality_positive_parts (c :: t)). discriminate.
Qed.

Lemma text_quality_unit (text : str) :
  (0 <= _calculate_text_quality text <= 1)%Q.
Proof.
  destruct text as [|c t].
  - split; discriminate.
  - split.
    + apply Qlt_le_weak, text_quality_positive. discriminate.
    + unfold _calculate_text_quality. cbn [truthy negb]. apply Q.le_min_l.
Qed.

(** X8: the quality score of a text lies in [0, 1], and it is 0 exactly
    for the empty text: any text at all scores above 0. *)
Theorem text_quality_bounds (text : str) :
  (0 <= _calculate_text_quality text <= 1)%Q
  /\ (_calculate_text_quality text == 0 <-> text = [])%Q.
Proof.
  split; [apply text_quality_unit|]. split.
  - intros H0. destruct text as [|c t]; [reflexivity|]. exfalso.
    pose proof (text_quality_positive (c :: t)) as Hpos.
    specialize (Hpos ltac:(discriminate)).
    rewrite H0 in Hpos. discriminate Hpos.
  - intros ->. reflexivity.
Qed.

Lemma ocr_discount_bounds (q : Q) :
  (0 <= q <= 1)%Q ->
  (0 <= q * (8 # 10) <= 1)%Q /\ (0 < q -> 0 < q * (8 # 10))%Q
  /\ (q == 0 -> q * (8 # 10) == 0)%Q.
Proof.
  intros [H0 H1]. split; [split|split].
  - apply Qmult_le_0_compat; [exact H0|discriminate].
  - apply Qle_trans with (1 * (8 # 10))%Q; [|discriminate].
    apply Qmult_le_compat_r; [exact H1|discriminate].
  - intros Hq. apply Qmult_lt_0_compat; [exact Hq|reflexivity].
  - intros Hq. rewrite Hq. reflexivity.
Qed.

(** What holds of each successful entry of the dictionary of results. *)
Lemma run_backends_entries (a b c : backend_outcome)
  (entry : str * extraction_result) :
  In entry (run_backends a b c) -> success (snd entry) = true ->
  In (res_method (snd entry))
     [Some (py "pdfplumber"); Some (py "pypdf2"); Some (py "ocr")]
  /\ (0 <= quality_score (snd entry) <= 1)%Q
  /\ (res_text (snd entry) <> [] -> 0 < quality_score (snd entry))%Q
  /\ (res_text (snd entry) = [] -> quality_score (snd entry) == 0)%Q.
Proof.
  assert (forall t, t <> [] -> (0 < _calculate_text_quality t)%Q) as Hpos.
  { exact text_quality_positive. }
  assert (forall t, t = [] -> (_calculate_text_quality t == 0)%Q) as Hzero.
  { intros t ->. reflexivity. }
  intros [<-|[<-|[<-|[]]]] Hs.
  - destruct a as [pages|err]; [|discriminate Hs]. cbn.
    split; [left; reflexivity|]. split; [apply text_quality_unit|].
    split; [apply Hpos|apply Hzero].
  - destruct b as [pages|err]; [|discriminate Hs]. cbn.
    split; [right; left; reflexivity|].
    split; [apply text_quality_unit|]. split; [apply Hpos|apply Hzero].
  - destruct c as [pages|err]; [|discriminate Hs]. cbn.
    split; [right; right; left; reflexivity|].
    match goal with
    | |- context [_calculate_text_quality ?x] => set (t := x)
    end.
    destruct (ocr_discount_bounds (_calculate_text_quality t)
                (text_quality_unit t)) as (B & P & Z).
    split; [exact B|]. split.
    + intros Ht. apply P, Hpos, Ht.
    + intros Ht. apply Z, Hzero, Ht.
Qed.

(** X9: the arbiter hands back an empty text exactly when no backend
    succeeded with a non-empty text; the method it reports is then "none"
    and otherwise the name of a backend (never "unknown"), the quality it
    reports lies in [0, 1], and the PDF entry point answers with its
    "no text" error exactly in that case. *)
Theorem arbiter_text_empty_iff_no_backend_text (a b c : backend_outcome) :
  let e := extract_text_from_pdf a b c in
  (text e = []
   <-> forall entry, In entry (run_backends a b c) ->
         success (snd entry) = true -> res_text (snd entry) = [])
  /\ (method_used e = py "none" <-> text e = [])
  /\ In (method_used e) [py "pdfplumber"; py "pypdf2"; py "ocr"; py "none"]
  /\ (0 <= extraction_quality e <= 1)%Q
  /\ (PDFReferenceExtractionAgent.extract_references_from_pdf e
      = PDFReferenceExtractionAgent.PdfError
          (py "No text could be extracted from the PDF")
      <-> text e = []).
Proof.
  cbv zeta. unfold extract_text_from_pdf. cbn [text method_used extraction_quality].
  pose proof (run_backends_entries a b c) as Hent.
  destruct (select_fold (run_backends a b c) no_result)
    as [[Hb Hall]|(bf & m & af & Hr & Hsb & Hlt & _ & _)];
    fold (_select_best_extraction (run_backends a b c)) in *.
  - rewrite Hb. cbn [res_text res_method quality_score res_quality_score default].
    repeat split; try reflexivity; try discriminate.
    + intros _ entry Hin Hs.
      destruct (res_text (snd entry)) eqn:Et; [reflexivity|]. exfalso.
      destruct (Hent entry Hin Hs) as (_ & _ & Hp & _).
      assert (0 < quality_score (snd entry))%Q as Hq
        by (apply Hp; rewrite Et; discriminate).
      apply (Qlt_not_le _ _ Hq). apply (Hall entry Hin Hs).
    + right; right; right; left; reflexivity.
  - set (best := _select_best_extraction (run_backends a b c)) in *.
    assert (In (m, best) (run_backends a b c)) as Hin
      by (rewrite Hr; apply in_or_app; right; left; reflexivity).
    destruct (Hent (m, best) Hin Hsb) as (Hm & Hq & _ & Hz).
    cbn [snd] in *. change (quality_score no_result) with 0%Q in Hlt.
    assert (res_text best <> []) as Hne.
    { intros Ht. apply Hz in Ht. rewrite Ht in Hlt. discriminate Hlt. }
    assert (default (py "unknown") (res_method best) <> py "none"
            /\ In (default (py "unknown") (res_method best))
                 [py "pdfplumber"; py "pypdf2"; py "ocr"; py "none"]) as [Hn Hi].
    { destruct Hm as [<-|[<-|[<-|[]]]]; cbn [default];
        (split; [discriminate|]).
      - left; reflexivity.
      - right; left; reflexivity.
      - right; right; left; reflexivity. }
    split; [|split; [|split; [|split]]].
    + split; [intros Ht; contradiction|].
      intros H. exfalso. apply Hne. exact (H (m, best) Hin Hsb).
    + split; intros H; contradiction.
    + exact Hi.
    + exact Hq.
    + unfold PDFReferenceExtractionAgent.extract_references_from_pdf.
      cbn [text]. destruct (res_text best); [congruence|].
      split; discriminate.
Qed.

End ArbiterExtras.

(** ** Texts in which the segmenter finds nothing *)

Lemma find_section_stuck (ok : ascii -> bool) (patterns : list regex)
  (text : str) :
  forallb (stuck ok) patterns = true ->
  Forall (fun c => ok c = true) text ->
  find_section patterns text = None.
Proof.
  intros Hp Hb. induction patterns as [|p ps IH]; cbn [find_section];
    [reflexivity|].
  cbn [forallb] in Hp. apply andb_true_iff in Hp. destruct Hp as [Hp Hps].
  unfold search. rewrite (search_from_stuck ok p text 0 Hp Hb).
  apply IH. exact Hps.
Qed.

Lemma Forall_not_char (x : ascii) (text : str) :
  ~ In x text -> Forall (fun c => negb (eqc x c) = true) text.
Proof.
  intros H. apply Forall_forall. intros c Hc.
  destruct (eqc x c) eqn:E; [|reflexivity].
  apply eqc_eq in E. subst c. exfalso. apply H, list_elem_of_In. exact Hc.
Qed.

(** X10: a references header is only recognised after a line break and a
    numbered reference only at an opening bracket: in a text without line
    break no references section is found, in a text without opening bracket
    the global pass finds no numbered reference, and a text with neither
    (any single line without bracket) yields no reference at all. *)
Theorem no_line_break_no_bracket_no_reference (text : str) :
  (~ In newline text -> _find_references_section text = None)
  /\ (~ In "["%char text -> _find_numbered_references text = [])
  /\ (~ In newline text -> ~ In "["%char text ->
      extract_references_from_text text = []).
Proof.
  assert (~ In newline text -> _find_references_section text = None) as Hsec.
  { intros Hnl. unfold _find_references_section.
    apply (find_section_stuck (fun c => negb (eqc newline c)));
      [vm_compute; reflexivity|apply Forall_not_char; exact Hnl]. }
  assert (~ In "["%char text -> _find_numbered_references text = []) as Hnum.
  { intros Hbr. unfold _find_numbered_references, finditer.
    cbn [matches_from].
    rewrite (search_from_stuck (fun c => negb (eqc "["%char c))
               numbered_reference_pattern text 0);
      [reflexivity|vm_compute; reflexivity|apply Forall_not_char; exact Hbr]. }
  split; [exact Hsec|]. split; [exact Hnum|].
  intros Hnl Hbr. unfold extract_references_from_text.
  rewrite (Hsec Hnl), (Hnum Hbr). reflexivity.
Qed.

(** ** What a match consumes and captures *)

Section Trace.

Variable P : ascii -> bool.
Variable i : nat.

(** Where the matcher succeeds, its continuation succeeded on a state
    reached by consuming a prefix of the text; the prefix lies in [P] when
    the pattern is within [P], and group [i] still holds characters of [P]
    only when the pattern captures nothing else in it. *)
Lemma exec_trace (r : regex) :
  forall (st : mstate) (k : mstate -> option mstate) (m : mstate),
    exec r st k = Some m ->
    exists st' w,
      k st' = Some m
      /\ rest st = w ++ rest st'
      /\ pos st' = (pos st + length w)%nat
      /\ (within P r = true -> forallb P w = true)
      /\ (group_within i P r = true -> caps_within i P (caps st) ->
          caps_within i P (caps st')).
Proof.
  induction r as [|p|r1 IH1 r2 IH2|r1 IH1 r2 IH2|r1 IH1|r1 IH1|j r1 IH1|r1 IH1| |];
    intros st k m H.
  - exists st, []. cbn [exec] in H. rewrite Nat.add_0_r. auto.
  - rewrite exec_Chr in H. destruct (rest st) as [|c t] eqn:E; [discriminate|].
    destruct (p c) eqn:Hp; [|discriminate].
    exists (advance st), [c]. unfold advance. rewrite E. cbn [rest pos caps].
    split; [unfold advance in H; rewrite E in H; exact H|].
    split; [reflexivity|]. split; [cbn; lia|]. split; [|auto].
    cbn [within]. intros Hw. rewrite forallb_forall in Hw.
    specialize (Hw c (in_all_ascii c)). rewrite Hp in Hw. cbn in Hw.
    cbn. rewrite Hw. reflexivity.
  - rewrite exec_Seq in H.
    destruct (IH1 _ _ _ H) as (st1 & w1 & H1 & R1 & P1 & W1 & C1).
    destruct (IH2 _ _ _ H1) as (st2 & w2 & H2 & R2 & P2 & W2 & C2).
    exists st2, (w1 ++ w2). split; [exact H2|].
    split; [rewrite R1, R2, app_assoc; reflexivity|].
    split; [rewrite P2, P1, length_app; lia|]. cbn [within group_within].
    split.
    + intros Hw. apply andb_true_iff in Hw. destruct Hw as [Ha Hb].
      rewrite forallb_app, (W1 Ha), (W2 Hb). reflexivity.
    + intros Hg Hc. apply andb_true_iff in Hg. destruct Hg as [Ha Hb]. auto.
  - cbn [exec] in H. cbn [within group_within].
    destruct (exec r1 st k) as [m1|] eqn:E1.
    + injection H as <-.
      destruct (IH1 _ _ _ E1) as (st1 & w1 & H1 & R1 & P1 & W1 & C1).
      exists st1, w1. repeat split; try assumption.
      * intros Hw. apply andb_true_iff in Hw. apply W1, Hw.
      * intros Hg. apply andb_true_iff in Hg. apply C1, Hg.
    + destruct (IH2 _ _ _ H) as (st2 & w2 & H2 & R2 & P2 & W2 & C2).
      exists st2, w2. repeat split; try assumption.
      * intros Hw. apply andb_true_iff in Hw. apply W2, Hw.
      * intros Hg. apply andb_true_iff in Hg. apply C2, Hg.
  - rewrite exec_Star in H. revert H. generalize (length (rest st)).
    intros n. revert st. induction n as [|n IHn]; intros st H.
    + rewrite star_loop_0 in H. exists st, []. rewrite Nat.add_0_r. auto.
    + rewrite star_loop_S in H.
      destruct (exec r1 st _) as [m1|] eqn:E1.
      * injection H as <-.
        destruct (IH1 _ _ _ E1) as (st1 & w1 & H1 & R1 & P1 & W1 & C1).
        destruct (progress st st1); [|discriminate].
        destruct (IHn _ H1) as (st2 & w2 & H2 & R2 & P2 & W2 & C2).
        exists st2, (w1 ++ w2). split; [exact H2|].
        split; [rewrite R1, R2, app_assoc; reflexivity|].
        split; [rewrite P2, P1, length_app; lia|]. cbn [within group_within] in *.
        split.
        -- intros Hw. rewrite forallb_app, (W1 Hw), (W2 Hw). reflexivity.
        -- auto.
      * exists st, []. rewrite Nat.add_0_r. auto.
  - rewrite exec_LazyStar in H. revert H. generalize (length (rest st)).
    intros n. revert st. induction n as [|n IHn]; intros st H.
    + rewrite lazy_loop_0 in H. destruct (k st) as [m1|] eqn:E; [|discriminate].
      exists st, []. rewrite Nat.add_0_r, E. auto.
    + rewrite lazy_loop_S in H. destruct (k st) as [m1|] eqn:E.
      * exists st, []. rewrite Nat.add_0_r, E. auto.
      * destruct (IH1 _ _ _ H) as (st1 & w1 & H1 & R1 & P1 & W1 & C1).
        destruct (progress st st1); [|discriminate].
        destruct (IHn _ H1) as (st2 & w2 & H2 & R2 & P2 & W2 & C2).
        exists st2, (w1 ++ w2). split; [exact H2|].
        split; [rewrite R1, R2, app_assoc; reflexivity|].
        split; [rewrite P2, P1, length_app; lia|]. cbn [within group_within] in *.
        split.
        -- intros Hw. rewrite forallb_app, (W1 Hw), (W2 Hw). reflexivity.
        -- auto.
  - rewrite exec_Grp in H.
    destruct (IH1 _ _ _ H) as (st1 & w1 & H1 & R1 & P1 & W1 & C1).
    exists (MState (pos st1) (rest st1) ((j, consumed st st1) :: caps st1)), w1.
    cbn [rest pos caps]. split; [exact H1|]. split; [exact R1|].
    split; [exact P1|]. cbn [within group_within]. split; [exact W1|].
    intros Hg Hc. apply andb_true_iff in Hg. destruct Hg as [Hj Hg].
    intros w [Hw|Hw]; [|exact (C1 Hg Hc w Hw)].
    injection Hw as Hji <-. subst j. rewrite Nat.eqb_refl in Hj.
    unfold consumed. rewrite P1, R1.
    replace (pos st + length w1 - pos st)%nat with (length w1) by lia.
    rewrite take_app_length. apply W1, Hj.
  - cbn [exec] in H. destruct (exec r1 st Some) as [st1|] eqn:E1; [|discriminate].
    destruct (IH1 _ _ _ E1) as (st2 & w2 & H2 & _ & _ & _ & C2).
    injection H2 as ->.
    exists (MState (pos st) (rest st) (caps st1)), []. cbn [rest pos caps].
    split; [exact H|]. split; [reflexivity|].
    split; [cbn; lia|]. split; [reflexivity|]. exact C2.
  - cbn [exec] in H. destruct (pos st =? 0)%nat; [|discriminate].
    exists st, []. rewrite Nat.add_0_r. auto.
  - cbn [exec] in H. exists st, []. rewrite Nat.add_0_r.
    destruct (rest st) as [|c t]; [auto|].
    destruct (eqc newline c); [auto|discriminate].
Qed.

(** The group [i] of a match found by [search_from]. *)
Lemma search_from_group (r : regex) (s : str) (p : nat) (m : rmatch) :
  group_within i P r = true ->
  search_from r p s = Some m -> caps_within i P (m_caps m).
Proof.
  intros Hg. revert p. induction s as [|c s IH]; intros p; cbn [search_from];
    unfold match_at.
  - destruct (exec r (MState p [] []) Some) as [st|] eqn:E; [|discriminate].
    intros [= <-]. cbn [m_caps].
    destruct (exec_trace r _ _ _ E) as (st' & w & H' & _ & _ & _ & C).
    injection H' as ->. apply C; [exact Hg|]. intros w0 [].
  - destruct (exec r (MState p (c :: s) []) Some) as [st|] eqn:E.
    + intros [= <-]. cbn [m_caps].
      destruct (exec_trace r _ _ _ E) as (st' & w & H' & _ & _ & _ & C).
      injection H' as ->. apply C; [exact Hg|]. intros w0 [].
    + apply IH.
Qed.

Lemma matches_from_group (r : regex) (fuel : nat) :
  group_within i P r = true ->
  forall (s : str) (p : nat) (m : rmatch),
    In m (matches_from fuel r p s) -> caps_within i P (m_caps m).
Proof.
  intros Hg. induction fuel as [|fuel IH]; intros s p m; cbn [matches_from];
    [intros []|].
  destruct (search_from r p s) as [m0|] eqn:E; [|intros []].
  intros [<-|H]; [eapply search_from_group; eassumption|].
  destruct (m_start m0 <? m_end m0)%nat; [eapply IH; exact H|].
  destruct (m_rest m0); [destruct H|eapply IH; exact H].
Qed.

Lemma lookup_In (cs : list (nat * str)) (w : str) :
  lookup i cs = Some w -> In (i, w) cs.
Proof.
  induction cs as [|[j v] cs IH]; cbn [lookup]; [discriminate|].
  destruct (Nat.eqb_spec i j) as [->|Hne].
  - intros [= ->]. left. reflexivity.
  - intros H. right. apply IH. exact H.
Qed.

Lemma lstrip_by_forallb (q : ascii -> bool) (s : str) :
  forallb P s = true -> forallb P (lstrip_by q s) = true.
Proof.
  induction s as [|c t IH]; cbn; [reflexivity|]. intros H.
  destruct (q c); [|exact H]. apply andb_true_iff in H. apply IH, H.
Qed.

Lemma forallb_rev (s : str) : forallb P (rev s) = forallb P s.
Proof.
  induction s as [|c t IH]; cbn; [reflexivity|].
  rewrite forallb_app, IH. cbn. rewrite andb_true_r. apply andb_comm.
Qed.

Lemma strip_by_forallb (q : ascii -> bool) (s : str) :
  forallb P s = true -> forallb P (strip_by q s) = true.
Proof.
  intros H. unfold strip_by, rstrip_by. rewrite forallb_rev.
  apply lstrip_by_forallb. rewrite forallb_rev.
  apply lstrip_by_forallb. exact H.
Qed.

End Trace.

(** ** The global pass never yields an IEEE record *)

Lemma numbered_refs_no_bracket (ms : list rmatch) :
  (forall m, In m ms ->
     caps_within 2 (fun c => negb (eqc "["%char c)) (m_caps m)) ->
  forall r, In r (numbered_refs ms) ->
    exists t n,
      r = _parse_single_reference t n
      /\ forallb (fun c => negb (eqc "["%char c)) t = true
      /\ (20 < length t)%nat
      /\ strip t = t.
Proof.
  induction ms as [|m ms IH]; intros Hms r; cbn [numbered_refs]; [intros []|].
  assert (forall r, In r (numbered_refs ms) ->
            exists t n,
              r = _parse_single_reference t n
              /\ forallb (fun c => negb (eqc "["%char c)) t = true
              /\ (20 < length t)%nat /\ strip t = t) as IH'.
  { apply IH. intros m' Hm'. apply Hms. right. exact Hm'. }
  destruct (Nat.ltb_spec 20 (length (strip (default [] (group m 2)))));
    [|apply IH'].
  intros [<-|Hr]; [|apply IH'; exact Hr].
  eexists _, _. split; [reflexivity|]. split; [|split; [assumption|]].
  - apply strip_by_forallb. unfold group.
    destruct (lookup 2 (m_caps m)) as [w|] eqn:E; [|reflexivity].
    cbn [default]. apply (Hms m (or_introl eq_refl) w).
    apply lookup_In. exact E.
  - apply strip_by_idem.
Qed.

(** X11: every record of the global pass ([_find_numbered_references])
    stems from a candidate of more than 20 characters that holds no opening
    bracket, so no IEEE pattern can match it: the citation style of such a
    record is never "ieee", and its full text holds no opening bracket. *)
Theorem global_pass_never_ieee (text : str) (r : ExtractedReference) :
  In r (_find_numbered_references text) ->
  citation_style r <> py "ieee"
  /\ ~ In "["%char (full_text r)
  /\ (20 < length (full_text r))%nat.
Proof.
  intros Hr. unfold _find_numbered_references in Hr.
  destruct (numbered_refs_no_bracket (finditer numbered_reference_pattern text))
    with (r := r) as (t & n & -> & Hall & Hlen & Hst); [|exact Hr|].
  { intros m Hm. unfold finditer in Hm.
    eapply (matches_from_group _ 2 numbered_reference_pattern);
      [vm_compute; reflexivity|exact Hm]. }
  rewrite parse_full_text, Hst.
  assert (Forall (fun c => negb (eqc "["%char c) = true) t) as HF.
  { apply Forall_forall. intros c Hc. rewrite forallb_forall in Hall.
    apply Hall, list_elem_of_In. exact Hc. }
  split; [|split; [|exact Hlen]].
  - pose proof (parse_single_reference_style t n) as Hp. cbv zeta in Hp.
    rewrite Hst in Hp. rewrite first_style_order in Hp. unfold search in Hp.
    assert (stuck (fun c => negb (eqc "["%char c)) ieee_1 = true) as S1
      by (vm_compute; reflexivity).
    assert (stuck (fun c => negb (eqc "["%char c)) ieee_2 = true) as S2
      by (vm_compute; reflexivity).
    rewrite (search_from_stuck _ ieee_1 t 0 S1 HF) in Hp.
    rewrite (search_from_stuck _ ieee_2 t 0 S2 HF) in Hp.
    destruct (search_from apa_1 0 t), (search_from apa_2 0 t),
      (search_from mla_1 0 t), (search_from mla_2 0 t),
      (search_from chicago_1 0 t), (search_from chicago_2 0 t);
      first [ destruct Hp as (-> & _); discriminate
            | rewrite Hp; discriminate ].
  - intros Hin. rewrite forallb_forall in Hall.
    specialize (Hall _ Hin). discriminate Hall.
Qed.

(** X11 at the document with the year 0000. *)
Lemma global_pass_never_ieee_witness :
  citation_style
    (_parse_single_reference
       (py "Smith, J. (0000). Machine learning in research. AI Journal, 15(3), 45-62.")
       1)
  <> py "ieee".
Proof.
  refine (proj1 (global_pass_never_ieee year_zero_document _ _)).
  vm_compute. left. reflexivity.
Defined.

(** ** Line-based splitting loses no word *)

Lemma split_ws_aux_app_space (a b cur : str) (c : ascii) :
  isspace c = true ->
  split_ws_aux cur (a ++ c :: b) = split_ws_aux cur a ++ split_ws b.
Proof.
  intros Hc. revert cur. induction a as [|x a IH]; intros cur; cbn [app].
  - cbn [split_ws_aux]. rewrite Hc. unfold split_ws.
    destruct (truthy cur); reflexivity.
  - cbn [split_ws_aux]. destruct (isspace x).
    + destruct (truthy cur); rewrite IH; reflexivity.
    + apply IH.
Qed.

Lemma split_ws_aux_trailing (s w cur : str) :
  forallb isspace w = true -> split_ws_aux cur (s ++ w) = split_ws_aux cur s.
Proof.
  intros Hw. revert s cur. induction w as [|c w IH]; intros s cur.
  - rewrite app_nil_r. reflexivity.
  - cbn [forallb] in Hw. apply andb_true_iff in Hw. destruct Hw as [Hc Hw].
    rewrite (split_ws_aux_app_space s w cur c Hc).
    assert (split_ws w = []) as ->.
    { unfold split_ws. rewrite <- (app_nil_l w), (IH Hw). reflexivity. }
    apply app_nil_r.
Qed.

Lemma lstrip_by_split (p : ascii -> bool) (s : str) :
  exists pre, s = pre ++ lstrip_by p s /\ forallb p pre = true.
Proof.
  induction s as [|c t (pre & IH & Hp)]; cbn.
  - exists []. split; reflexivity.
  - destruct (p c) eqn:E.
    + exists (c :: pre). cbn. rewrite E, Hp, <- IH. split; reflexivity.
    + exists []. split; reflexivity.
Qed.

Lemma split_ws_leading (w s : str) :
  forallb isspace w = true -> split_ws (w ++ s) = split_ws s.
Proof.
  intros Hw. induction w as [|c w IH]; [reflexivity|].
  cbn [forallb] in Hw. apply andb_true_iff in Hw. destruct Hw as [Hc Hw].
  unfold split_ws in *. cbn [app split_ws_aux]. rewrite Hc. cbn [truthy].
  apply IH, Hw.
Qed.

(** Stripping a string does not change its words. *)
Lemma split_ws_strip (s : str) : split_ws (strip s) = split_ws s.
Proof.
  unfold strip, strip_by, rstrip_by.
  destruct (lstrip_by_split isspace s) as (pre & Hs & Hpre).
  set (a := lstrip_by isspace s) in *.
  destruct (lstrip_by_split isspace (rev a)) as (post & Ha & Hpost).
  set (b := lstrip_by isspace (rev a)) in *.
  assert (a = rev b ++ rev post) as Ha'.
  { rewrite <- rev_app_distr, <- Ha, rev_involutive. reflexivity. }
  rewrite Hs, (split_ws_leading pre a Hpre), Ha'.
  unfold split_ws. rewrite split_ws_aux_trailing; [reflexivity|].
  clear -Hpost. induction post as [|c t IH]; [reflexivity|].
  cbn in *. apply andb_true_iff in Hpost. destruct Hpost as [Hc Ht].
  rewrite forallb_app, (IH Ht). cbn. rewrite Hc. reflexivity.
Qed.

Lemma strip_nil_no_words (s : str) : strip s = [] -> split_ws s = [].
Proof. intros H. rewrite <- split_ws_strip, H. reflexivity. Qed.

Lemma isspace_newline : isspace newline = true.
Proof. reflexivity. Qed.

(** The words of a text are the words of its lines, in order. *)
Lemma split_ws_lines_aux (s cur : str) :
  split_ws (rev cur ++ s)
  = concat (map split_ws (split_on_aux newline cur s)).
Proof.
  revert cur. induction s as [|c t IH]; intros cur; cbn [split_on_aux].
  - cbn. rewrite !app_nil_r. reflexivity.
  - destruct (eqc newline c) eqn:E.
    + apply eqc_eq in E. subst c. cbn [map concat].
      rewrite <- (IH []). cbn [rev app].
      unfold split_ws. apply split_ws_aux_app_space. reflexivity.
    + rewrite <- IH. cbn [rev]. rewrite <- app_assoc. reflexivity.
Qed.

Lemma split_ws_lines (s : str) :
  split_ws s = concat (map split_ws (split_on newline s)).
Proof. exact (split_ws_lines_aux s []). Qed.

Lemma split_ws_join_space (a b : str) :
  split_ws (a ++ py " " ++ b) = split_ws a ++ split_ws b.
Proof.
  unfold split_ws. cbn [list_ascii_of_string app].
  apply split_ws_aux_app_space. reflexivity.
Qed.

Lemma concat_snoc (l : list (list str)) (x : list str) :
  concat (l ++ [x]) = concat l ++ x.
Proof. rewrite concat_app. cbn. rewrite app_nil_r. reflexivity. Qed.

(** One turn of the loop keeps the words seen so far. *)
Lemma line_step_words (st : list str * str) (line : str) :
  let st' := line_step st line in
  concat (map split_ws (fst st')) ++ split_ws (snd st')
  = (concat (map split_ws (fst st)) ++ split_ws (snd st)) ++ split_ws line.
Proof.
  destruct st as [refs cur]. cbv zeta. unfold line_step.
  rewrite <- (split_ws_strip line).
  destruct (strip line) as [|c l] eqn:E.
  - cbn [truthy negb]. destruct cur as [|x cur]; cbn [truthy fst snd].
    + cbn. rewrite !app_nil_r. reflexivity.
    + rewrite map_app. cbn [map]. rewrite concat_snoc. cbn. rewrite !app_nil_r.
      reflexivity.
  - cbn [truthy negb]. destruct (_is_reference_start (c :: l)).
    + destruct cur as [|x cur]; cbn [truthy fst snd].
      * cbn. rewrite !app_nil_r. reflexivity.
      * rewrite map_app. cbn [map]. rewrite concat_snoc. reflexivity.
    + destruct cur as [|x cur]; cbn [truthy fst snd].
      * cbn. rewrite !app_nil_r. reflexivity.
      * rewrite split_ws_join_space, app_assoc. reflexivity.
Qed.

Lemma line_fold_words (lines : list str) (st : list str * str) :
  let st' := fold_left line_step lines st in
  concat (map split_ws (fst st')) ++ split_ws (snd st')
  = (concat (map split_ws (fst st)) ++ split_ws (snd st))
    ++ concat (map split_ws lines).
Proof.
  revert st. induction lines as [|l lines IH]; intros st; cbn [fold_left].
  - cbn. rewrite app_nil_r. reflexivity.
  - cbv zeta in *. rewrite IH, line_step_words. cbn [map concat].
    rewrite <- !app_assoc. reflexivity.
Qed.

(** X12: the line-based strategy loses nothing: read one after the other,
    the candidates it returns hold exactly the words of the text, in the
    order of the text. *)
Theorem line_refs_keep_all_words (text : str) :
  concat (map split_ws (line_refs text)) = split_ws text.
Proof.
  unfold line_refs.
  pose proof (line_fold_words (split_on newline text) ([], [])) as H.
  cbv zeta in H. cbn [fst snd map concat app] in H.
  rewrite <- split_ws_lines in H.
  destruct (fold_left line_step (split_on newline text) ([], []))
    as [refs cur]. cbn [fst snd] in H.
  change (split_ws []) with (@nil str) in H. cbn [app] in H.
  destruct cur as [|c cur]; cbn [truthy].
  - change (split_ws []) with (@nil str) in H. rewrite app_nil_r in H. exact H.
  - rewrite map_app. cbn [map]. rewrite concat_snoc. exact H.
Qed.

(** ** Text cleaning *)

Lemma star_chr_some (p : ascii -> bool) :
  forall (s : str) (n : nat) (cs : list (nat * str)),
    star_loop (Chr p) Some (length s) (MState n s cs)
    = Some (MState (n + length (fst (span p s))) (snd (span p s)) cs).
Proof.
  induction s as [|c t IH]; intros n cs.
  - cbn [length]. rewrite star_loop_0. cbn. rewrite Nat.add_0_r. reflexivity.
  - cbn [length]. rewrite star_loop_S, exec_Chr. cbn [rest span].
    destruct (p c) eqn:Hc.
    + unfold advance, progress. cbn [rest pos caps length].
      assert ((length t <? S (length t))%nat = true) as ->
        by (apply Nat.ltb_lt; lia).
      rewrite IH. destruct (span p t) as [a b]. cbn [fst snd length].
      rewrite Nat.add_succ_r, Nat.add_succ_l. reflexivity.
    + cbn. rewrite Nat.add_0_r. reflexivity.
Qed.

(** The pattern [\s+] at the head of a text takes the whole run of
    whitespace. *)
Lemma match_at_spaces (p : nat) (s : str) :
  match_at (plus ws) p s
  = match s with
    | c :: t =>
        if isspace c
        then Some (RMatch p (S p + length (fst (span isspace t)))
                     (snd (span isspace t)) [])
        else None
    | [] => None
    end.
Proof.
  unfold match_at, plus, ws. rewrite exec_Seq, exec_Chr. cbn [rest].
  destruct s as [|c t]; [reflexivity|]. destruct (isspace c); [|reflexivity].
  unfold advance. cbn [rest pos caps]. rewrite exec_Star. cbn [rest].
  rewrite star_chr_some. reflexivity.
Qed.

Lemma search_from_spaces (s : str) (p : nat) :
  search_from (plus ws) p s
  = match snd (span (fun c => negb (isspace c)) s) with
    | [] => None
    | _ :: t =>
        let u := fst (span (fun c => negb (isspace c)) s) in
        Some (RMatch (p + length u)
                (S (p + length u) + length (fst (span isspace t)))
                (snd (span isspace t)) [])
    end.
Proof.
  revert p. induction s as [|c t IH]; intros p.
  - reflexivity.
  - cbn [search_from]. rewrite match_at_spaces. cbn [span].
    destruct (isspace c) eqn:Hc; cbn [negb].
    + cbn. rewrite Nat.add_0_r. reflexivity.
    + rewrite IH. destruct (span (fun c0 => negb (isspace c0)) t) as [u v].
      cbn [fst snd length]. destruct v as [|x v]; [reflexivity|].
      cbv zeta. rewrite Nat.add_succ_r, Nat.add_succ_l. reflexivity.
Qed.

Lemma span_head_stop (p : ascii -> bool) (s : str) :
  match snd (span p s) with [] => True | c :: _ => p c = false end.
Proof.
  induction s as [|c t IH]; cbn; [exact I|].
  destruct (p c) eqn:E; [|cbn; exact E].
  destruct (span p t). exact IH.
Qed.

Lemma collapse_nonspace (u x : str) :
  forallb (fun c => negb (isspace c)) u = true ->
  collapse_aux false (u ++ x) = u ++ collapse_aux false x.
Proof.
  induction u as [|c u IH]; [reflexivity|]. cbn [forallb app collapse_aux].
  intros H. apply andb_true_iff in H. destruct H as [Hc Hu].
  apply negb_true_iff in Hc. rewrite Hc, (IH Hu). reflexivity.
Qed.

Lemma collapse_skip_spaces (a b : str) :
  forallb isspace a = true ->
  collapse_aux true (a ++ b) = collapse_aux true b.
Proof.
  induction a as [|c a IH]; [reflexivity|]. cbn [forallb app collapse_aux].
  intros H. apply andb_true_iff in H. destruct H as [Hc Ha].
  rewrite Hc. apply IH, Ha.
Qed.

Lemma collapse_flag (b : str) :
  match b with [] => True | c :: _ => isspace c = false end ->
  collapse_aux true b = collapse_aux false b.
Proof. destruct b as [|c t]; [reflexivity|]. cbn. intros ->. reflexivity. Qed.

(** [re.sub(r'\s+', ' ', s)] is [collapse_aux false s]. *)
Lemma sub_spaces_from (fuel : nat) :
  forall (s done : str),
    (length s < fuel)%nat ->
    sub_pieces (py " ") (done ++ s) (length done)
      (matches_from fuel (plus ws) (length done) s)
    = collapse_aux false s.
Proof.
  induction fuel as [|fuel IH]; intros s done Hlen; [lia|].
  cbn [matches_from]. rewrite search_from_spaces.
  pose proof (span_app (fun c => negb (isspace c)) s) as Hs.
  pose proof (span_forall (fun c => negb (isspace c)) s) as Hu.
  pose proof (span_head_stop (fun c => negb (isspace c)) s) as Hv.
  destruct (span (fun c => negb (isspace c)) s) as [u v]. cbn [fst snd] in *.
  destruct v as [|c t].
  - cbn [sub_pieces]. rewrite drop_app_length, Hs, app_nil_r.
    rewrite <- (app_nil_r u) at 2. rewrite (collapse_nonspace u [] Hu).
    cbn. rewrite app_nil_r. reflexivity.
  - apply negb_false_iff in Hv. cbv zeta.
    pose proof (span_app isspace t) as Ht.
    pose proof (span_forall isspace t) as Ha.
    pose proof (span_head_stop isspace t) as Hb.
    destruct (span isspace t) as [a b]. cbn [fst snd] in *.
    cbn [m_start m_end m_rest].
    assert ((length done + length u
             <? S (length done + length u) + length a)%nat = true) as ->
      by (apply Nat.ltb_lt; lia).
    cbn [sub_pieces m_start m_end].
    assert (done ++ s = (done ++ u ++ c :: a) ++ b) as Hds.
    { rewrite Hs, Ht, <- !app_assoc. reflexivity. }
    assert (length (done ++ u ++ c :: a)
            = (S (length done + length u) + length a)%nat) as Hl.
    { rewrite !length_app. cbn. lia. }
    rewrite <- Hl. rewrite Hds at 2. rewrite IH.
    + rewrite Hs at 1. rewrite slice_middle.
      rewrite Hs, (collapse_nonspace u _ Hu). cbn [collapse_aux].
      rewrite Hv, Ht, (collapse_skip_spaces a b Ha), (collapse_flag b Hb).
      reflexivity.
    + rewrite Hs, Ht in Hlen. rewrite !length_app in Hlen.
      cbn [length] in Hlen. rewrite length_app in Hlen. lia.
Qed.

Lemma sub_spaces (s : str) : sub (plus ws) (py " ") s = collapse_aux false s.
Proof.
  unfold sub, finditer. apply (sub_spaces_from (S (length s)) s []). lia.
Qed.

Lemma clean_reference_text_eq (s : str) :
  _clean_reference_text s
  = match s with
    | [] => []
    | _ :: _ => strip_by edge_char (collapse_aux false s)
    end.
Proof.
  unfold _clean_reference_text. destruct s as [|c t]; [reflexivity|].
  cbn [truthy negb]. rewrite sub_spaces. reflexivity.
Qed.

Lemma tidy_collapse (s : str) : forall b, tidy b (collapse_aux b s) = true.
Proof.
  induction s as [|c t IH]; intros b; [reflexivity|]. cbn [collapse_aux].
  destruct (isspace c) eqn:Hc.
  - destruct b; [apply IH|]. cbn [tidy].
    assert (isspace " "%char = true) as -> by reflexivity.
    rewrite IH. reflexivity.
  - cbn [tidy]. rewrite Hc. apply IH.
Qed.

Lemma tidy_weaken (b : bool) (s : str) : tidy b s = true -> tidy false s = true.
Proof.
  destruct b; [|exact (fun H => H)]. destruct s as [|c t]; [reflexivity|].
  cbn [tidy]. destruct (isspace c); [|exact (fun H => H)].
  rewrite andb_false_r. discriminate.
Qed.

Lemma tidy_fixed (s : str) : forall b, tidy b s = true -> collapse_aux b s = s.
Proof.
  induction s as [|c t IH]; intros b; [reflexivity|]. cbn [tidy collapse_aux].
  destruct (isspace c).
  - intros H. apply andb_true_iff in H. destruct H as [H Ht].
    apply andb_true_iff in H. destruct H as [Hc Hb].
    apply eqc_eq in Hc. subst c. destruct b; [discriminate|].
    rewrite (IH true Ht). reflexivity.
  - intros H. rewrite (IH false H). reflexivity.
Qed.

Lemma tidy_tail (b : bool) (c : ascii) (t : str) :
  tidy b (c :: t) = true -> tidy false t = true.
Proof.
  cbn [tidy]. destruct (isspace c); [|exact (fun H => H)].
  intros H. apply andb_true_iff in H. apply (tidy_weaken true), H.
Qed.

Lemma tidy_lstrip (q : ascii -> bool) (s : str) :
  tidy false s = true -> tidy false (lstrip_by q s) = true.
Proof.
  induction s as [|c t IH]; [reflexivity|]. intros H. cbn [lstrip_by].
  destruct (q c); [|exact H]. apply IH, (tidy_tail false c), H.
Qed.

Lemma tidy_prefix (x y : str) :
  forall b, tidy b (x ++ y) = true -> tidy b x = true.
Proof.
  induction x as [|c t IH]; intros b; [reflexivity|]. cbn [app tidy].
  destruct (isspace c); [|apply IH].
  intros H. apply andb_true_iff in H. destruct H as [H Ht].
  rewrite H, (IH true Ht). reflexivity.
Qed.

Lemma rstrip_by_split (p : ascii -> bool) (s : str) :
  exists suf, s = rstrip_by p s ++ suf /\ forallb p suf = true.
Proof.
  unfold rstrip_by. destruct (lstrip_by_split p (rev s)) as (pre & Hs & Hp).
  exists (rev pre). split.
  - rewrite <- rev_app_distr, <- Hs, rev_involutive. reflexivity.
  - rewrite forallb_forall in *. intros c Hc. apply Hp, in_rev, Hc.
Qed.

Lemma tidy_strip (q : ascii -> bool) (s : str) :
  tidy false s = true -> tidy false (strip_by q s) = true.
Proof.
  intros H. unfold strip_by.
  destruct (rstrip_by_split q (lstrip_by q s)) as (suf & Hs & _).
  apply (tidy_prefix _ suf). rewrite <- Hs. apply tidy_lstrip, H.
Qed.

Lemma strip_by_first (p : ascii -> bool) (s : str) (c : ascii) (t : str) :
  strip_by p s = c :: t -> p c = false.
Proof.
  unfold strip_by. intros H.
  destruct (rstrip_by_split p (lstrip_by p s)) as (suf & Hs & _).
  rewrite H in Hs. cbn [app] in Hs. apply (lstrip_by_head p s c _ Hs).
Qed.

Lemma strip_by_last (p : ascii -> bool) (s : str) (t : str) (c : ascii) :
  strip_by p s = t ++ [c] -> p c = false.
Proof.
  unfold strip_by, rstrip_by. intros H.
  apply (f_equal (@rev ascii)) in H.
  rewrite rev_involutive, rev_app_distr in H. cbn [rev app] in H.
  apply (lstrip_by_head p _ c _ H).
Qed.

Lemma tidy_only_blanks (s : str) :
  forall b c, tidy b s = true -> In c s -> isspace c = true -> c = " "%char.
Proof.
  induction s as [|x t IH]; intros b c H Hin Hc; [destruct Hin|].
  cbn [tidy] in H. destruct Hin as [-> | Hin].
  - rewrite Hc in H. apply andb_true_iff in H. destruct H as [H _].
    apply andb_true_iff in H. destruct H as [H _].
    apply eqc_eq in H. congruence.
  - destruct (isspace x); [|exact (IH false c H Hin Hc)].
    apply andb_true_iff in H. exact (IH true c (proj2 H) Hin Hc).
Qed.

Lemma tidy_no_run (a : str) :
  forall b c d rest,
    tidy b (a ++ c :: d :: rest) = true -> isspace c = true ->
    isspace d = false.
Proof.
  induction a as [|x a IH]; intros b c d rest H Hc.
  - cbn [app tidy] in H. rewrite Hc in H.
    apply andb_true_iff in H. destruct H as [_ H].
    destruct (isspace d); [|reflexivity].
    rewrite andb_false_r in H. discriminate.
  - eapply (IH false). 2: exact Hc.
    apply (tidy_tail b x). exact H.
Qed.

Lemma clean_reference_text_tidy (s : str) :
  tidy false (_clean_reference_text s) = true.
Proof.
  rewrite clean_reference_text_eq. destruct s as [|c t]; [reflexivity|].
  apply tidy_strip, tidy_collapse.
Qed.

Lemma clean_reference_text_idem (s : str) :
  _clean_reference_text (_clean_reference_text s) = _clean_reference_text s.
Proof.
  pose proof (clean_reference_text_tidy s) as Ht.
  rewrite (clean_reference_text_eq (_clean_reference_text s)).
  destruct (_clean_reference_text s) as [|c t] eqn:E; [reflexivity|].
  rewrite (tidy_fixed _ false Ht), <- E.
  rewrite clean_reference_text_eq. destruct s as [|x s]; [reflexivity|].
  apply strip_by_idem.
Qed.

Lemma edge_char_In (c : ascii) :
  edge_char c = false -> ~ In c (py " .,;:").
Proof.
  unfold edge_char. intros H Hin.
  assert (existsb (eqc c) (py " .,;:") = true) as E.
  { apply existsb_exists. exists c. split; [exact Hin|].
    unfold eqc. apply Ascii.eqb_refl. }
  rewrite E in H. discriminate.
Qed.

(** X13 ([_clean_reference_text], lines 657-670).  The cleaned text is in
    normal form: cleaning it again changes nothing; its only whitespace
    characters are blanks, and no whitespace character follows another;
    it neither begins nor ends with a blank, a full stop, a comma, a
    semicolon or a colon. *)
Theorem clean_reference_text_normal_form (s : str) :
  let r := _clean_reference_text s in
  _clean_reference_text r = r
  /\ (forall c, In c r -> isspace c = true -> c = " "%char)
  /\ (forall a c d b,
        r = a ++ c :: d :: b -> isspace c = true -> isspace d = false)
  /\ (forall c t, r = c :: t -> ~ In c (py " .,;:"))
  /\ (forall t c, r = t ++ [c] -> ~ In c (py " .,;:")).
Proof.
  cbv zeta. pose proof (clean_reference_text_tidy s) as Ht.
  split; [apply clean_reference_text_idem|].
  split; [intros c; apply (tidy_only_blanks _ false c Ht)|].
  split.
  { intros a c d b E. rewrite E in Ht. apply (tidy_no_run a false c d b Ht). }
  rewrite clean_reference_text_eq in *.
  destruct s as [|x s].
  - split; [discriminate|]. intros [|? ?] c E; discriminate E.
  - split.
    + intros c t E. apply edge_char_In, (strip_by_first _ _ _ _ E).
    + intros t c E. apply edge_char_In, (strip_by_last _ _ _ _ E).
Qed.

Lemma ref_ext (a b : ExtractedReference) :
  reference_number a = reference_number b -> full_text a = full_text b ->
  authors a = authors b -> title a = title b -> year a = year b ->
  venue a = venue b -> volume a = volume b -> issue a = issue b ->
  pages a = pages b -> doi a = doi b -> url a = url b -> isbn a = isbn b ->
  reference_type a = reference_type b ->
  citation_style a = citation_style b ->
  confidence_score a = confidence_score b ->
  extraction_notes a = extraction_notes b ->
  a = b.
Proof. destruct a, b. simpl. intros. subst. reflexivity. Qed.

(** The fields the quality pass leaves alone. *)
Lemma enhance_one_frame (r : ExtractedReference) :
  let r' := enhance_one r in
  reference_number r' = reference_number r
  /\ authors r' = authors r
  /\ volume r' = volume r /\ issue r' = issue r /\ pages r' = pages r
  /\ doi r' = doi r /\ url r' = url r /\ isbn r' = isbn r
  /\ reference_type r' = reference_type r
  /\ citation_style r' = citation_style r.
Proof.
  unfold enhance_one. cbv zeta.
  destruct (year_truthy _ && year_out_of_range _); repeat split; reflexivity.
Qed.

(** The year and the notes after the quality pass. *)
Lemma enhance_one_year_notes (r : ExtractedReference) :
  let bad := year_truthy (year r) && year_out_of_range (year r) in
  let r' := enhance_one r in
  year r' = (if bad then None else year r)
  /\ extraction_notes r'
     = (if bad then extraction_notes r ++ invalid_year_note
        else extraction_notes r).
Proof.
  unfold enhance_one. cbv zeta.
  cbn [year set_full_text set_title set_venue].
  destruct (year_truthy (year r) && year_out_of_range (year r));
    split; reflexivity.
Qed.

Lemma enhance_one_year_settled (r : ExtractedReference) :
  year_truthy (year (enhance_one r))
  && year_out_of_range (year (enhance_one r)) = false.
Proof.
  destruct (enhance_one_year_notes r) as [Hy _]. cbv zeta in Hy. rewrite Hy.
  destruct (year_truthy (year r) && year_out_of_range (year r)) eqn:E;
    [reflexivity|exact E].
Qed.

Lemma completeness_ext (a b : ExtractedReference) :
  authors a = authors b -> title a = title b -> year a = year b ->
  venue a = venue b -> doi a = doi b -> url a = url b ->
  volume a = volume b -> issue a = issue b -> pages a = pages b ->
  _calculate_reference_completeness a = _calculate_reference_completeness b.
Proof.
  unfold _calculate_reference_completeness.
  intros -> -> -> -> -> -> -> -> ->. reflexivity.
Qed.

Lemma enhance_one_idem (r : ExtractedReference) :
  enhance_one (enhance_one r) = enhance_one r.
Proof.
  pose proof (enhance_one_frame (enhance_one r)) as F. cbv zeta in F.
  destruct F as (F1 & F2 & F3 & F4 & F5 & F6 & F7 & F8 & F9 & F10).
  pose proof (enhance_one_score (enhance_one r)) as S2. cbv zeta in S2.
  destruct S2 as (C2 & T2 & Ti2 & V2 & _).
  pose proof (enhance_one_score r) as S1. cbv zeta in S1.
  destruct S1 as (C1 & T1 & Ti1 & V1 & _).
  pose proof (enhance_one_year_notes (enhance_one r)) as Y. cbv zeta in Y.
  rewrite enhance_one_year_settled in Y. destruct Y as [Y N].
  assert (full_text (enhance_one (enhance_one r)) = full_text (enhance_one r))
    as Eft by (rewrite T2, T1; apply clean_reference_text_idem).
  assert (title (enhance_one (enhance_one r)) = title (enhance_one r))
    as Eti by (rewrite Ti2, Ti1; apply clean_reference_text_idem).
  assert (venue (enhance_one (enhance_one r)) = venue (enhance_one r))
    as Eve by (rewrite V2, V1; apply clean_reference_text_idem).
  apply ref_ext; try assumption.
  rewrite C2, C1. apply completeness_ext; assumption.
Qed.

(** X14 ([_enhance_reference_quality], lines 637-655).  The quality pass
    is idempotent: a second pass over its own output changes no field of
    any record (texts are already clean, an invalid year has already been
    dropped and noted once, the score is recomputed from the same
    fields). *)
Theorem enhance_reference_quality_idempotent
  (references : list ExtractedReference) :
  _enhance_reference_quality (_enhance_reference_quality references)
  = _enhance_reference_quality references.
Proof.
  unfold _enhance_reference_quality. rewrite map_map. apply map_ext.
  apply enhance_one_idem.
Qed.

(** ** Statistics and batch runs *)

Section AgentRuns.

Import PDFReferenceExtractionAgent AgentState.

Lemma str_eqb_eq (a b : str) : str_eqb a b = true <-> a = b.
Proof.
  unfold str_eqb. split.
  - apply bool_decide_eq_true_1.
  - apply bool_decide_eq_true_2.
Qed.

Lemma str_eqb_refl (a : str) : str_eqb a a = true.
Proof. apply str_eqb_eq. reflexivity. Qed.

Lemma str_eqb_neq (a b : str) : a <> b -> str_eqb a b = false.
Proof.
  intros H. destruct (str_eqb a b) eqn:E; [|reflexivity].
  apply str_eqb_eq in E. contradiction.
Qed.

Lemma dict_get_set {V : Type} (k k' : str) (v : V) (d : list (str * V)) :
  dict_get k (dict_set k' v d)
  = if str_eqb k k' then Some v else dict_get k d.
Proof.
  induction d as [|[k0 v0] d IH]; cbn [dict_set dict_get].
  - reflexivity.
  - destruct (str_eqb k' k0) eqn:E0; cbn [dict_get].
    + apply str_eqb_eq in E0. subst k0. destruct (str_eqb k k'); reflexivity.
    + destruct (str_eqb k k0) eqn:E1.
      * apply str_eqb_eq in E1. subst k0.
        destruct (str_eqb k k') eqn:E2; [|reflexivity].
        apply str_eqb_eq in E2. subst k'. rewrite str_eqb_refl in E0.
        discriminate.
      * exact IH.
Qed.

Lemma dict_set_fresh {V : Type} (k : str) (v : V) (d : list (str * V)) :
  ~ In k (map fst d) -> dict_set k v d = d ++ [(k, v)].
Proof.
  induction d as [|[k0 v0] d IH]; cbn [dict_set map fst In app];
    [reflexivity|].
  intros H. rewrite str_eqb_neq by (intros ->; apply H; left; reflexivity).
  rewrite IH by (intros Hin; apply H; right; exact Hin). reflexivity.
Qed.

Lemma dict_set_length {V : Type} (k : str) (v : V) (d : list (str * V)) :
  (length d <= length (dict_set k v d) <= length d + 1)%nat.
Proof.
  induction d as [|[k0 v0] d IH]; cbn [dict_set length]; [lia|].
  destruct (str_eqb k k0); cbn [length]; lia.
Qed.

Lemma total_references_cons (k : str) (v : pdf_result)
  (d : list (str * pdf_result)) :
  total_references ((k, v) :: d)
  = (references_count v + total_references d)%nat.
Proof. unfold total_references. destruct v; reflexivity. Qed.

Lemma total_references_set (k : str) (v : pdf_result)
  (d : list (str * pdf_result)) :
  (total_references (dict_set k v d)
   <= total_references d + references_count v)%nat.
Proof.
  induction d as [|[k0 v0] d IH]; cbn [dict_set].
  - rewrite total_references_cons. lia.
  - destruct (str_eqb k k0); rewrite !total_references_cons; lia.
Qed.

Lemma total_references_app (a b : list (str * pdf_result)) :
  total_references (a ++ b) = (total_references a + total_references b)%nat.
Proof.
  unfold total_references. rewrite List.filter_app, map_app, list_sum_app.
  reflexivity.
Qed.

Lemma batch_step_eq (st : batch_state) (job : str * pdf_input) :
  let result := run_pdf (snd job) in
  stats (batch_step st job) = update_statistics (stats st) (fst job) result
  /\ batch_results (batch_step st job)
     = dict_set (fst job) result (batch_results st)
  /\ successful_extractions (batch_step st job)
     = (successful_extractions st + if is_success result then 1 else 0)%nat
  /\ failed_extractions (batch_step st job)
     = (failed_extractions st + if is_success result then 0 else 1)%nat.
Proof.
  cbv zeta. unfold batch_step, AgentState.extract_references_from_pdf.
  destruct (is_success (run_pdf (snd job))); cbn; repeat split; lia.
Qed.

Lemma update_statistics_counters (s : processing_stats) (p : str)
  (r : pdf_result) :
  total_pdfs_processed (update_statistics s p r)
  = (total_pdfs_processed s + if is_success r then 1 else 0)%nat
  /\ length (processing_errors (update_statistics s p r))
     = (length (processing_errors s) + if is_success r then 0 else 1)%nat
  /\ total_references_extracted (update_statistics s p r)
     = (total_references_extracted s + references_count r)%nat.
Proof.
  destruct r; cbn; rewrite ?length_app; cbn; repeat split; lia.
Qed.

Lemma batch_fold_counters (jobs : list (str * pdf_input)) :
  forall st : batch_state,
    let st' := fold_left batch_step jobs st in
    (successful_extractions st' + failed_extractions st'
     = successful_extractions st + failed_extractions st + length jobs
     /\ total_pdfs_processed (stats st') + successful_extractions st
        = total_pdfs_processed (stats st) + successful_extractions st'
     /\ length (processing_errors (stats st')) + failed_extractions st
        = length (processing_errors (stats st)) + failed_extractions st'
     /\ length (batch_results st')
        <= length (batch_results st) + length jobs
     /\ total_references_extracted (stats st)
        + total_references (batch_results st')
        <= total_references_extracted (stats st')
           + total_references (batch_results st))%nat.
Proof.
  induction jobs as [|job jobs IH]; intros st; cbv zeta.
  - cbn [fold_left length]. repeat split; lia.
  - cbn [fold_left length]. specialize (IH (batch_step st job)).
    cbv zeta in IH. destruct IH as (I1 & I2 & I3 & I4 & I5).
    destruct (batch_step_eq st job) as (E1 & E2 & E3 & E4). cbv zeta in *.
    destruct (update_statistics_counters (stats st) (fst job)
                (run_pdf (snd job))) as (U1 & U2 & U3).
    rewrite <- E1 in U1, U2, U3.
    pose proof (dict_set_length (fst job) (run_pdf (snd job))
                  (batch_results st)) as L.
    pose proof (total_references_set (fst job) (run_pdf (snd job))
                  (batch_results st)) as T.
    rewrite <- E2 in L, T.
    destruct (is_success (run_pdf (snd job)));
      cbv iota in E3, E4, U1, U2; repeat split; lia.
Qed.

(** X15 ([batch_extract_references], lines 1242-1326; the statistics of
    [extract_references_from_pdf], lines 1185-1197 and 1225-1231).  In a
    batch run every file is counted once, as a success or as a failure;
    the agent's statistics grow by the successes (files processed) and by
    the failures (errors recorded); there are at most as many individual
    results as files; and the total of references in the summary never
    exceeds what the run added to the agent's statistics. *)
Theorem batch_counters (stats0 : processing_stats)
  (pdf_paths : list (str * pdf_input)) :
  let '(stats1, summary, results) :=
    batch_extract_references stats0 pdf_paths in
  total_files summary = length pdf_paths
  /\ (summary_successful_extractions summary
      + summary_failed_extractions summary = total_files summary)%nat
  /\ total_pdfs_processed stats1
     = (total_pdfs_processed stats0
        + summary_successful_extractions summary)%nat
  /\ length (processing_errors stats1)
     = (length (processing_errors stats0)
        + summary_failed_extractions summary)%nat
  /\ (length results <= total_files summary)%nat
  /\ (total_references_extracted stats0
      + summary_total_references_extracted summary
      <= total_references_extracted stats1)%nat.
Proof.
  unfold batch_extract_references.
  pose proof (batch_fold_counters pdf_paths (mkBatch stats0 [] 0 0)) as H.
  cbv zeta in H. cbn [stats batch_results successful_extractions
                      failed_extractions length] in H.
  destruct H as (I1 & I2 & I3 & I4 & I5).
  cbn [total_files summary_successful_extractions summary_failed_extractions
       summary_total_references_extracted].
  change (total_references []) with 0%nat in I5.
  repeat split; lia.
Qed.

Lemma batch_fold_distinct (jobs : list (str * pdf_input)) :
  forall st : batch_state,
    NoDup (map fst jobs) ->
    (forall k, In k (map fst jobs) -> ~ In k (map fst (batch_results st))) ->
    batch_results (fold_left batch_step jobs st)
    = batch_results st ++ map (fun job => (fst job, run_pdf (snd job))) jobs.
Proof.
  induction jobs as [|job jobs IH]; intros st Hnd Hfresh.
  - cbn. rewrite app_nil_r. reflexivity.
  - cbn [fold_left map]. cbn [map] in Hnd, Hfresh.
    apply NoDup_cons in Hnd. destruct Hnd as [Hjob Hnd].
    destruct (batch_step_eq st job) as (_ & E2 & _). cbv zeta in E2.
    rewrite dict_set_fresh in E2 by (apply Hfresh; left; reflexivity).
    rewrite IH.
    + rewrite E2, <- app_assoc. reflexivity.
    + exact Hnd.
    + intros k Hk. rewrite E2, map_app, in_app_iff. cbn [map fst In].
      intros [H | [H | []]].
      * apply (Hfresh k); [right; exact Hk|exact H].
      * subst k. apply Hjob, list_elem_of_In, Hk.
Qed.

Lemma total_references_jobs (jobs : list (str * pdf_input)) :
  total_references (map (fun job => (fst job, run_pdf (snd job))) jobs)
  = list_sum (map (fun job => references_count (run_pdf (snd job))) jobs).
Proof.
  induction jobs as [|job jobs IH]; [reflexivity|].
  simpl. rewrite total_references_cons, IH. reflexivity.
Qed.

Lemma stats_fold_references (jobs : list (str * pdf_input)) :
  forall st : batch_state,
    total_references_extracted (stats (fold_left batch_step jobs st))
    = (total_references_extracted (stats st)
       + list_sum (map (fun job => references_count (run_pdf (snd job)))
                     jobs))%nat.
Proof.
  induction jobs as [|job jobs IH]; intros st; simpl.
  - lia.
  - rewrite IH. destruct (batch_step_eq st job) as (E1 & _). cbv zeta in E1.
    destruct (update_statistics_counters (stats st) (fst job)
                (run_pdf (snd job))) as (_ & _ & U3).
    rewrite E1, U3. lia.
Qed.

(** X16 ([batch_extract_references], lines 1242-1326).  When the paths of
    a batch are pairwise distinct, there is one individual result per
    file, in the order of the files, and the total of references in the
    summary is exactly what the run added to the agent's statistics. *)
Theorem batch_distinct_paths (stats0 : processing_stats)
  (pdf_paths : list (str * pdf_input)) :
  NoDup (map fst pdf_paths) ->
  let '(stats1, summary, results) :=
    batch_extract_references stats0 pdf_paths in
  results = map (fun job => (fst job, run_pdf (snd job))) pdf_paths
  /\ total_references_extracted stats1
     = (total_references_extracted stats0
        + summary_total_references_extracted summary)%nat.
Proof.
  intros Hnd. unfold batch_extract_references.
  cbn [summary_total_references_extracted].
  rewrite (batch_fold_distinct pdf_paths (mkBatch stats0 [] 0 0) Hnd)
    by (intros k _ []).
  cbn [batch_results app]. split; [reflexivity|].
  rewrite total_references_jobs, stats_fold_references. reflexivity.
Qed.

(** X16 at a batch of a readable file and a missing one. *)
Lemma batch_distinct_paths_witness :
  let '(stats1, summary, results) :=
    batch_extract_references reset_statistics [example_job; missing_job] in
  results = map (fun job => (fst job, run_pdf (snd job)))
              [example_job; missing_job]
  /\ total_references_extracted stats1
     = (total_references_extracted reset_statistics
        + summary_total_references_extracted summary)%nat.
Proof.
  apply (batch_distinct_paths reset_statistics [example_job; missing_job]).
  apply (bool_decide_eq_true_1 (NoDup (map fst [example_job; missing_job]))).
  vm_compute. reflexivity.
Defined.

End AgentRuns.

Section RunningAverage.

Import PDFReferenceExtractionAgent AgentState.
Local Open Scope Q_scope.

Lemma Qnat_succ (n : nat) : Qnat (n + 1) == Qnat n + 1.
Proof.
  unfold Qnat. rewrite Nat2Z.inj_add, inject_Z_plus. reflexivity.
Qed.

Lemma sum_confidence_bounds (refs : list ExtractedReference) :
  Forall (fun r => 0 <= confidence_score r <= 1) refs ->
  forall acc : Q,
    acc <= fold_left (fun a ref => a + confidence_score ref) refs acc
    /\ fold_left (fun a ref => a + confidence_score ref) refs acc
       <= acc + Qnat (length refs).
Proof.
  induction 1 as [|r refs [Hlo Hhi] _ IH]; intros acc.
  - cbn [fold_left length]. change (Qnat 0) with 0. lra.
  - cbn [fold_left length]. destruct (IH (acc + confidence_score r)) as [A B].
    replace (S (length refs)) with (length refs + 1)%nat by lia.
    rewrite Qnat_succ. lra.
Qed.

Lemma average_confidence_bounds (refs : list ExtractedReference) :
  refs <> [] ->
  Forall (fun r => 0 <= confidence_score r <= 1) refs ->
  0 <= average_confidence refs <= 1.
Proof.
  intros Hne H. unfold average_confidence, sum_confidence.
  destruct (sum_confidence_bounds refs H 0) as [A B].
  assert (0 < Qnat (length refs)) as Hpos.
  { apply Qnat_pos. destruct refs; [contradiction|discriminate]. }
  split.
  - apply Qle_shift_div_l; [exact Hpos|]. lra.
  - apply Qle_shift_div_r; [exact Hpos|]. lra.
Qed.

Lemma run_pdf_scores (input : pdf_input)
  (references filtered : list ExtractedReference) :
  run_pdf input = PdfSuccess references filtered ->
  Forall (fun r => 0 <= confidence_score r <= 1) filtered.
Proof.
  destruct input as [e|a b c]; cbn [run_pdf]; [discriminate|].
  unfold PDFReferenceExtractionAgent.extract_references_from_pdf.
  destruct (negb (truthy _)); [discriminate|]. intros [= <- <-].
  apply Forall_forall. intros r Hr.
  apply list_elem_of_filter in Hr. destruct Hr as [_ Hr].
  pose proof (pipeline_confidence_bounded
                (PDFTextExtractor.text
                   (PDFTextExtractor.extract_text_from_pdf a b c))) as P.
  rewrite Forall_forall in P. apply P, Hr.
Qed.

(** One update of the running average keeps it between 0 and 1. *)
Lemma running_average_step (cur new : Q) (n : nat) :
  0 <= cur <= 1 -> 0 <= new <= 1 ->
  0 <= (cur * (Qnat (n + 1) - 1) + new) / Qnat (n + 1) <= 1.
Proof.
  intros [C0 C1] [N0 N1].
  assert (0 < Qnat (n + 1)) as Hpos by (apply Qnat_pos; lia).
  pose proof (Qnat_nonneg n) as Hn. pose proof (Qnat_succ n) as Hs.
  split.
  - apply Qle_shift_div_l; [exact Hpos|]. rewrite Hs. nra.
  - apply Qle_shift_div_r; [exact Hpos|]. rewrite Hs. nra.
Qed.

Lemma update_statistics_average (s : processing_stats) (p : str)
  (input : pdf_input) :
  0 <= average_confidence_score s <= 1 ->
  0 <= average_confidence_score (update_statistics s p (run_pdf input)) <= 1.
Proof.
  intros H. destruct (run_pdf input) as [e|references filtered] eqn:E;
    cbn [update_statistics average_confidence_score]; [exact H|].
  destruct filtered as [|r filtered]; cbn [truthy]; [exact H|].
  apply running_average_step; [exact H|].
  apply average_confidence_bounds; [discriminate|].
  exact (run_pdf_scores input _ _ E).
Qed.

Lemma batch_fold_average (jobs : list (str * pdf_input)) :
  forall st : batch_state,
    0 <= average_confidence_score (stats st) <= 1 ->
    0 <= average_confidence_score (stats (fold_left batch_step jobs st)) <= 1.
Proof.
  induction jobs as [|job jobs IH]; intros st H; [exact H|].
  cbn [fold_left]. apply IH.
  destruct (batch_step_eq st job) as (E1 & _). cbv zeta in E1. rewrite E1.
  apply update_statistics_average, H.
Qed.

(** X17 (the running average of [extract_references_from_pdf], lines
    1185-1197, over the calls of [batch_extract_references]).  If the
    agent's average confidence lies between 0 and 1 before a batch run,
    as it does for a new agent, it does so afterwards. *)
Theorem running_average_bounded (stats0 : processing_stats)
  (pdf_paths : list (str * pdf_input)) :
  0 <= average_confidence_score stats0 <= 1 ->
  0 <= average_confidence_score
         (fst (fst (batch_extract_references stats0 pdf_paths))) <= 1.
Proof.
  intros H. unfold batch_extract_references. cbn [fst].
  apply batch_fold_average. exact H.
Qed.

(** X17 at a new agent and a batch of a readable file and a missing
    one. *)
Lemma running_average_bounded_witness :
  0 <= average_confidence_score
         (fst (fst (batch_extract_references reset_statistics
                      [example_job; missing_job]))) <= 1.
Proof.
  apply (running_average_bounded reset_statistics [example_job; missing_job]).
  cbn. lra.
Defined.

Lemma update_statistics_mean (s : processing_stats) (job : str * pdf_input) :
  accepts_some job ->
  let s' := update_statistics s (fst job) (run_pdf (snd job)) in
  average_confidence_score s' * Qnat (total_pdfs_processed s')
  == average_confidence_score s * Qnat (total_pdfs_processed s)
     + job_average job.
Proof.
  unfold accepts_some, job_average.
  destruct (run_pdf (snd job)) as [e|references filtered];
    cbn [update_statistics average_confidence_score total_pdfs_processed].
  - intros _. lra.
  - intros Hne. destruct filtered as [|r filtered]; [contradiction|].
    cbn [truthy].
    assert (0 < Qnat (total_pdfs_processed s + 1)) as Hpos
      by (apply Qnat_pos; lia).
    pose proof (Qnat_succ (total_pdfs_processed s)) as Hs.
    set (N := Qnat (total_pdfs_processed s + 1)) in *.
    set (a := average_confidence (r :: filtered)).
    assert ((average_confidence_score s * (N - 1) + a) / N * N
            == average_confidence_score s * (N - 1) + a) as ->
      by (field; lra).
    rewrite Hs. lra.
Qed.

Lemma batch_fold_mean (jobs : list (str * pdf_input)) :
  Forall accepts_some jobs ->
  forall st : batch_state,
    let s' := stats (fold_left batch_step jobs st) in
    average_confidence_score s' * Qnat (total_pdfs_processed s')
    == average_confidence_score (stats st)
       * Qnat (total_pdfs_processed (stats st))
       + fold_right Qplus 0 (map job_average jobs).
Proof.
  induction 1 as [|job jobs Hjob _ IH]; intros st; cbv zeta.
  - cbn [fold_left map fold_right]. lra.
  - cbn [fold_left map fold_right]. specialize (IH (batch_step st job)).
    cbv zeta in IH. rewrite IH.
    destruct (batch_step_eq st job) as (E1 & _). cbv zeta in E1. rewrite E1.
    pose proof (update_statistics_mean (stats st) job Hjob) as M.
    cbv zeta in M. rewrite M. lra.
Qed.

(** X18 (the running average of [extract_references_from_pdf], lines
    1185-1197).  If every call of a batch run that succeeds accepts at
    least one reference, the running average maintains the sum of the
    per-file mean confidences: average times files processed grows by
    that sum.  For a new agent the average is the arithmetic mean of the
    per-file means. *)
Theorem running_average_is_mean (stats0 : processing_stats)
  (pdf_paths : list (str * pdf_input)) :
  Forall accepts_some pdf_paths ->
  let stats1 := fst (fst (batch_extract_references stats0 pdf_paths)) in
  average_confidence_score stats1 * Qnat (total_pdfs_processed stats1)
  == average_confidence_score stats0 * Qnat (total_pdfs_processed stats0)
     + fold_right Qplus 0 (map job_average pdf_paths).
Proof.
  intros H. unfold batch_extract_references. cbn [fst].
  apply (batch_fold_mean pdf_paths H (mkBatch stats0 [] 0 0)).
Qed.

(** X18 at the same batch: the readable file yields an accepted
    reference. *)
Lemma running_average_is_mean_witness :
  let stats1 :=
    fst (fst (batch_extract_references reset_statistics
                [example_job; missing_job])) in
  average_confidence_score stats1 * Qnat (total_pdfs_processed stats1)
  == average_confidence_score reset_statistics
     * Qnat (total_pdfs_processed reset_statistics)
     + fold_right Qplus 0 (map job_average [example_job; missing_job]).
Proof.
  apply (running_average_is_mean reset_statistics [example_job; missing_job]).
  repeat constructor; vm_compute; discriminate.
Defined.

End RunningAverage.

(** ** Storage *)

Section Storage.

Import ReferenceStorageManager.

Lemma dict_set_keys {V : Type} (k : str) (v : V) (d : list (str * V)) :
  map fst (dict_set k v d)
  = if existsb (str_eqb k) (map fst d) then map fst d else map fst d ++ [k].
Proof.
  induction d as [|[k0 v0] d IH]; cbn [dict_set map fst existsb app];
    [reflexivity|].
  destruct (str_eqb k k0); cbn [orb map fst]; [reflexivity|].
  rewrite IH. destruct (existsb (str_eqb k) (map fst d)); reflexivity.
Qed.

Lemma existsb_str_eqb (k : str) (ks : list str) :
  existsb (str_eqb k) ks = true <-> In k ks.
Proof.
  rewrite existsb_exists. split.
  - intros (x & Hx & E). apply str_eqb_eq in E. subst x. exact Hx.
  - intros H. exists k. split; [exact H|apply str_eqb_refl].
Qed.

Lemma dict_set_NoDup {V : Type} (k : str) (v : V) (d : list (str * V)) :
  NoDup (map fst d) -> NoDup (map fst (dict_set k v d)).
Proof.
  intros H. rewrite dict_set_keys.
  destruct (existsb (str_eqb k) (map fst d)) eqn:E; [exact H|].
  apply (proj2 (NoDup_app _ _)). split; [exact H|]. split.
  - intros x Hx Hk. apply list_elem_of_In in Hx, Hk.
    destruct Hk as [<- | []].
    apply existsb_str_eqb in Hx. rewrite Hx in E. discriminate.
  - apply NoDup_singleton.
Qed.

Lemma dict_set_sum (k : str) (d : list (str * nat)) :
  list_sum (map snd (dict_set k (default 0 (dict_get k d) + 1) d))
  = (list_sum (map snd d) + 1)%nat.
Proof.
  induction d as [|[k0 v0] d IH]; cbn [dict_set dict_get]; [reflexivity|].
  destruct (str_eqb k k0); simpl; [lia|].
  simpl in IH. rewrite IH. lia.
Qed.

(** How many references are counted under a key. *)
Lemma count_fold (field : ExtractedReference -> str)
  (references : list ExtractedReference) :
  forall counts : list (str * nat),
    let counts' := fold_left (count_step field) references counts in
    list_sum (map snd counts')
    = (list_sum (map snd counts) + length references)%nat
    /\ (NoDup (map fst counts) -> NoDup (map fst counts'))
    /\ (forall k,
          default 0%nat (dict_get k counts')
          = (default 0 (dict_get k counts)
             + length (List.filter
                         (fun ref => str_eqb k (count_key field ref))
                         references))%nat)
    /\ ((forall k, dict_get k counts <> Some 0%nat) ->
        forall k, dict_get k counts' <> Some 0%nat).
Proof.
  induction references as [|ref references IH]; intros counts; cbv zeta.
  - cbn [fold_left length List.filter]. repeat split; auto; intros; lia.
  - cbn [fold_left length List.filter].
    specialize (IH (count_step field counts ref)). cbv zeta in IH.
    destruct IH as (I1 & I2 & I3 & I4). unfold count_step in *.
    set (key := count_key field ref) in *.
    repeat split.
    + rewrite I1, dict_set_sum. lia.
    + intros H. apply I2, dict_set_NoDup, H.
    + intros k. rewrite I3, dict_get_set.
      destruct (str_eqb k key) eqn:E; cbn [length default].
      * apply str_eqb_eq in E. subst k. simpl. lia.
      * lia.
    + intros H. apply I4. intros k. rewrite dict_get_set.
      destruct (str_eqb k key); [|apply H].
      intros [= E]. lia.
Qed.

(** X19 (the summaries of [_save_as_excel], lines 947-955, and of
    [_save_as_markdown], lines 1005-1008).  The counts per reference type
    and per citation style add up to the number of references; no key is
    listed twice; and a key is listed exactly when some reference falls
    under it (one with an empty field falls under "unknown"), with the
    number of these references. *)
Theorem summary_counts (references : list ExtractedReference) :
  (list_sum (map snd (reference_types references)) = length references
   /\ NoDup (map fst (reference_types references))
   /\ forall k,
        dict_get k (reference_types references)
        = match length (List.filter
                          (fun ref => str_eqb k (count_key reference_type ref))
                          references) with
          | O => None
          | S n => Some (S n)
          end)
  /\ (list_sum (map snd (citation_styles references)) = length references
      /\ NoDup (map fst (citation_styles references))
      /\ forall k,
           dict_get k (citation_styles references)
           = match length (List.filter
                             (fun ref =>
                                str_eqb k (count_key citation_style ref))
                             references) with
             | O => None
             | S n => Some (S n)
             end).
Proof.
  assert (forall field,
            let counts := fold_left (count_step field) references [] in
            list_sum (map snd counts) = length references
            /\ NoDup (map fst counts)
            /\ forall k,
                 dict_get k counts
                 = match length (List.filter
                                   (fun ref =>
                                      str_eqb k (count_key field ref))
                                   references) with
                   | O => None
                   | S n => Some (S n)
                   end) as G.
  { intros field. cbv zeta.
    destruct (count_fold field references []) as (I1 & I2 & I3 & I4).
    cbv zeta in *. repeat split.
    - rewrite I1. reflexivity.
    - apply I2. constructor.
    - intros k. specialize (I3 k). cbn [dict_get default] in I3.
      rewrite Nat.add_0_l in I3.
      assert (dict_get k (fold_left (count_step field) references [])
              <> Some 0%nat) as Hpos by (apply I4; discriminate).
      destruct (dict_get k (fold_left (count_step field) references []))
        as [v|]; cbn [default] in I3; rewrite <- I3.
      + destruct v; [contradiction|reflexivity].
      + reflexivity. }
  split; [apply (G reference_type)|apply (G citation_style)].
Qed.

(** The text a format stands for in [output_files]. *)
Lemma dispatch_known (env : environment) (files : gset str)
  (references : list ExtractedReference) (output_path format_type : str) :
  match dispatch env files references output_path format_type with
  | None => ~ In format_type output_formats
  | Some (files', outcome) =>
      In format_type output_formats
      /\ (files' = files
          \/ files' = {[ output_path ++ py "." ++ format_type ]} ∪ files
             /\ (format_type = py "csv" -> references <> [])
             /\ (format_type = py "xlsx" ->
                 SPREADSHEET_LIBRARIES_AVAILABLE env = true))
      /\ match outcome with
         | Returned file_path =>
             file_path = output_path ++ py "." ++ format_type
         | Raised message =>
             write_error env (output_path ++ py "." ++ format_type)
             = Some message
             \/ (format_type = py "xlsx"
                 /\ SPREADSHEET_LIBRARIES_AVAILABLE env = false
                 /\ message = py "Spreadsheet libraries not available")
         end
  end.
Proof.
  unfold dispatch, output_formats.
  destruct (str_eqb format_type (py "json")) eqn:E1.
  { apply str_eqb_eq in E1. subst.
    unfold _save_as_json, write. destruct (write_error env _).
    - split; [left; reflexivity|]. split; [left; reflexivity|left; reflexivity].
    - split; [left; reflexivity|]. split; [|reflexivity].
      right. split; [reflexivity|]. split; discriminate. }
  destruct (str_eqb format_type (py "csv")) eqn:E2.
  { apply str_eqb_eq in E2. subst.
    unfold _save_as_csv, write. destruct references as [|r rs]; cbn [truthy negb].
    - split; [right; left; reflexivity|]. split; [left; reflexivity|].
      reflexivity.
    - destruct (write_error env _).
      + split; [right; left; reflexivity|].
        split; [left; reflexivity|left; reflexivity].
      + split; [right; left; reflexivity|]. split; [|reflexivity].
        right. split; [reflexivity|]. split; discriminate. }
  destruct (str_eqb format_type (py "txt")) eqn:E3.
  { apply str_eqb_eq in E3. subst.
    unfold _save_as_text, write. destruct (write_error env _).
    - split; [right; right; left; reflexivity|].
      split; [left; reflexivity|left; reflexivity].
    - split; [right; right; left; reflexivity|]. split; [|reflexivity].
      right. split; [reflexivity|]. split; discriminate. }
  destruct (str_eqb format_type (py "xlsx")) eqn:E4.
  { apply str_eqb_eq in E4. subst.
    unfold _save_as_excel, write.
    destruct (SPREADSHEET_LIBRARIES_AVAILABLE env); cbn [negb].
    - destruct (write_error env _).
      + split; [do 3 right; left; reflexivity|].
        split; [left; reflexivity|left; reflexivity].
      + split; [do 3 right; left; reflexivity|]. split; [|reflexivity].
        right. split; [reflexivity|]. split; [discriminate|reflexivity].
    - split; [do 3 right; left; reflexivity|].
      split; [left; reflexivity|]. right. repeat split; reflexivity. }
  destruct (str_eqb format_type (py "md")) eqn:E5.
  { apply str_eqb_eq in E5. subst.
    unfold _save_as_markdown, write. destruct (write_error env _).
    - split; [do 4 right; left; reflexivity|].
      split; [left; reflexivity|left; reflexivity].
    - split; [do 4 right; left; reflexivity|]. split; [|reflexivity].
      right. split; [reflexivity|]. split; discriminate. }
  intros [H|[H|[H|[H|[H|[]]]]]]; subst format_type;
    rewrite str_eqb_refl in *; discriminate.
Qed.

Lemma dict_get_other {V : Type} (k k' : str) (v : V) (d : list (str * V)) :
  k <> k' -> dict_get k (dict_set k' v d) = dict_get k d.
Proof. intros H. rewrite dict_get_set, str_eqb_neq by exact H. reflexivity. Qed.

Lemma dict_get_same {V : Type} (k : str) (v : V) (d : list (str * V)) :
  dict_get k (dict_set k v d) = Some v.
Proof. rewrite dict_get_set, str_eqb_refl. reflexivity. Qed.

(** What one turn of the loop does to the entry of a format and to the
    files. *)
Lemma store_step_spec (env : environment)
  (references : list ExtractedReference) (output_path : str)
  (state : gset str * list (str * str)) (g : str) :
  let state' := store_step env references output_path state g in
  (forall f, f <> g -> dict_get f (snd state') = dict_get f (snd state))
  /\ (In g output_formats ->
      exists v, dict_get g (snd state') = Some v
        /\ (v = output_path ++ py "." ++ g
            \/ exists message, v = py "Error: " ++ message
                 /\ (write_error env (output_path ++ py "." ++ g)
                     = Some message
                     \/ (g = py "xlsx"
                         /\ SPREADSHEET_LIBRARIES_AVAILABLE env = false
                         /\ message
                            = py "Spreadsheet libraries not available"))))
  /\ (~ In g output_formats -> state' = state)
  /\ (fst state' = fst state
      \/ fst state' = {[ output_path ++ py "." ++ g ]} ∪ fst state
         /\ In g output_formats
         /\ (g = py "csv" -> references <> [])
         /\ (g = py "xlsx" -> SPREADSHEET_LIBRARIES_AVAILABLE env = true)).
Proof.
  cbv zeta. unfold store_step.
  pose proof (dispatch_known env (fst state) references output_path g) as D.
  destruct (dispatch env (fst state) references output_path g)
    as [[files' outcome]|].
  - destruct D as (Hk & Hf & Ho).
    assert (fst (files', snd state) = fst state
            \/ files' = {[ output_path ++ py "." ++ g ]} ∪ fst state
               /\ In g output_formats
               /\ (g = py "csv" -> references <> [])
               /\ (g = py "xlsx" ->
                   SPREADSHEET_LIBRARIES_AVAILABLE env = true)) as Hfiles.
    { destruct Hf as [-> | (-> & H1 & H2)]; [left; reflexivity|].
      right. repeat split; assumption. }
    destruct outcome as [file_path|message]; cbn [fst snd].
    + split; [intros f Hne; apply dict_get_other, Hne|].
      split; [intros _; exists file_path; rewrite dict_get_same;
              split; [reflexivity|left; exact Ho]|].
      split; [intros Hn; contradiction|exact Hfiles].
    + split; [intros f Hne; apply dict_get_other, Hne|].
      split; [intros _; exists (py "Error: " ++ message);
              rewrite dict_get_same; split; [reflexivity|];
              right; exists message; split; [reflexivity|exact Ho]|].
      split; [intros Hn; contradiction|exact Hfiles].
  - split; [reflexivity|]. split; [intros Hk; contradiction|].
    split; [reflexivity|left; reflexivity].
Qed.

Lemma store_fold_spec (env : environment)
  (references : list ExtractedReference) (output_path : str)
  (formats : list str) :
  forall state : gset str * list (str * str),
    let state' :=
      fold_left (store_step env references output_path) formats state in
    (forall f,
       dict_get f (snd state') <> None
       <-> dict_get f (snd state) <> None
           \/ (In f formats /\ In f output_formats))
    /\ (forall f v,
          dict_get f (snd state') = Some v ->
          dict_get f (snd state) = Some v
          \/ (In f formats /\ entry_of env output_path f v))
    /\ fst state ⊆ fst state'
    /\ (forall p,
          p ∈ fst state' ->
          p ∈ fst state
          \/ exists f,
               In f formats /\ In f output_formats
               /\ p = output_path ++ py "." ++ f
               /\ (f = py "csv" -> references <> [])
               /\ (f = py "xlsx" ->
                   SPREADSHEET_LIBRARIES_AVAILABLE env = true)).
Proof.
  induction formats as [|g formats IH]; intros state; cbv zeta.
  - cbn [fold_left]. split; [|split; [|split]].
    + intros f. split; [intros H; left; exact H|].
      intros [H | [[] _]]. exact H.
    + intros f v H. left. exact H.
    + reflexivity.
    + intros p H. left. exact H.
  - cbn [fold_left].
    specialize (IH (store_step env references output_path state g)).
    cbv zeta in IH. destruct IH as (A & B & C & D).
    destruct (store_step_spec env references output_path state g)
      as (S1 & S2 & S3 & S4). cbv zeta in *.
    set (state1 := store_step env references output_path state g) in *.
    split; [|split; [|split]].
    + intros f. rewrite A. destruct (decide (f = g)) as [-> | Hne].
      * split.
        -- intros [H | [H K]].
           ++ destruct (decide (In g output_formats)) as [Hk | Hk].
              ** right. split; [left; reflexivity|exact Hk].
              ** left. rewrite (S3 Hk) in H. exact H.
           ++ right. split; [right; exact H|exact K].
        -- intros [H | [[_ | H] K]].
           ++ destruct (decide (In g output_formats)) as [Hk | Hk].
              ** left. destruct (S2 Hk) as (v & -> & _). discriminate.
              ** left. rewrite (S3 Hk). exact H.
           ++ left. destruct (S2 K) as (v & -> & _). discriminate.
           ++ right. split; assumption.
      * rewrite (S1 f Hne). split.
        -- intros [H | [H K]]; [left; exact H|].
           right. split; [right; exact H|exact K].
        -- intros [H | [[E | H] K]]; [left; exact H| |].
           ++ symmetry in E. contradiction.
           ++ right. split; assumption.
    + intros f v H. destruct (B f v H) as [H1 | [H1 H2]].
      * destruct (decide (f = g)) as [-> | Hne].
        -- destruct (decide (In g output_formats)) as [Hk | Hk].
           ++ right. split; [left; reflexivity|].
              destruct (S2 Hk) as (v' & E & G). rewrite E in H1.
              injection H1 as <-. exact G.
           ++ left. rewrite (S3 Hk) in H1. exact H1.
        -- left. rewrite <- (S1 f Hne). exact H1.
      * right. split; [right; exact H1|exact H2].
    + etransitivity; [|exact C].
      destruct S4 as [-> | (-> & _)]; [reflexivity|apply union_subseteq_r].
    + intros p Hp. destruct (D p Hp) as [H | (f & H1 & H2)].
      * destruct S4 as [E | (E & K1 & K2 & K3)]; rewrite E in H.
        -- left. exact H.
        -- apply elem_of_union in H. destruct H as [H | H]; [|left; exact H].
           apply elem_of_singleton in H. right. exists g.
           split; [left; reflexivity|]. repeat split; assumption.
      * right. exists f. split; [right; exact H1|exact H2].
Qed.

(** X20 ([store_references], lines 715-754, with the savers it calls).
    The dictionary returned has an entry exactly for the requested
    formats among json, csv, txt, xlsx and md (any other is skipped); an
    entry is the path [output_path.format] or the text of an error of the
    saver of that very format, so that a failing format never hides
    another; files already there stay, and the only files written are
    those of requested formats. *)
Theorem store_references_entries (env : environment) (files : gset str)
  (references : list ExtractedReference) (output_path : str)
  (formats : option (list str)) :
  let requested := default output_formats formats in
  let '(files', output_files) :=
    store_references env files references output_path formats in
  (forall f,
     dict_get f output_files <> None
     <-> In f requested /\ In f output_formats)
  /\ (forall f v,
        dict_get f output_files = Some v -> entry_of env output_path f v)
  /\ files ⊆ files'
  /\ (forall p,
        p ∈ files' ->
        p ∈ files
        \/ exists f,
             In f requested /\ In f output_formats
             /\ p = output_path ++ py "." ++ f).
Proof.
  cbv zeta. unfold store_references.
  pose proof (store_fold_spec env references output_path
                (default output_formats formats) (files, [])) as H.
  cbv zeta in H.
  destruct (fold_left (store_step env references output_path)
              (default output_formats formats) (files, []))
    as [files' output_files].
  cbn [fst snd dict_get] in H. destruct H as (A & B & C & D).
  split; [|split; [|split]].
  - intros f. rewrite A. split; [|intros H; right; exact H].
    intros [H | H]; [contradiction|exact H].
  - intros f v H. destruct (B f v H) as [H1 | [_ H1]];
      [discriminate|exact H1].
  - exact C.
  - intros p Hp. destruct (D p Hp) as [H | (f & H1 & H2 & H3 & _)];
      [left; exact H|].
    right. exists f. repeat split; assumption.
Qed.

Lemma store_fold_fixed (env : environment)
  (references : list ExtractedReference) (output_path f v : str) :
  (forall state,
     dict_get f (snd (store_step env references output_path state f))
     = Some v) ->
  forall (formats : list str) (state : gset str * list (str * str)),
    In f formats \/ dict_get f (snd state) = Some v ->
    dict_get f (snd (fold_left (store_step env references output_path)
                       formats state))
    = Some v.
Proof.
  intros Hf. induction formats as [|g formats IH]; intros state H.
  - destruct H as [[] | H]. exact H.
  - cbn [fold_left]. apply IH. destruct (decide (f = g)) as [<- | Hne].
    + right. apply Hf.
    + destruct (store_step_spec env references output_path state g)
        as (S1 & _). cbv zeta in S1. rewrite (S1 f Hne).
      destruct H as [[E | H] | H];
        [symmetry in E; contradiction|left; exact H|right; exact H].
Qed.

Lemma path_of_format (output_path f g : str) :
  output_path ++ py "." ++ f = output_path ++ py "." ++ g -> f = g.
Proof. intros H. apply app_inv_head in H. injection H as H. exact H. Qed.

(** X21 ([_save_as_csv], lines 782-813, under [store_references]).
    With no reference to store, a request for csv is answered by the
    path of a csv file that is not written: the entry names
    [output_path.csv], and that file exists afterwards only if it did
    before. *)
Theorem csv_of_no_references (env : environment) (files : gset str)
  (output_path : str) (formats : option (list str)) :
  In (py "csv") (default output_formats formats) ->
  output_path ++ py ".csv" ∉ files ->
  let '(files', output_files) :=
    store_references env files [] output_path formats in
  dict_get (py "csv") output_files = Some (output_path ++ py ".csv")
  /\ output_path ++ py ".csv" ∉ files'.
Proof.
  intros Hin Hnew. unfold store_references.
  pose proof (store_fold_spec env [] output_path
                (default output_formats formats) (files, [])) as H.
  pose proof (store_fold_fixed env [] output_path (py "csv")
                (output_path ++ py ".csv")) as F.
  cbv zeta in H.
  specialize (fun K => F K (default output_formats formats) (files, [])
                         (or_introl Hin)).
  destruct (fold_left (store_step env [] output_path)
              (default output_formats formats) (files, []))
    as [files' output_files].
  cbn [fst snd] in *. destruct H as (_ & _ & _ & D). split.
  - apply F. intros state. unfold store_step, dispatch.
    rewrite (str_eqb_neq (py "csv") (py "json")) by discriminate.
    rewrite str_eqb_refl. unfold _save_as_csv. cbn [truthy negb snd].
    apply dict_get_same.
  - intros Hp. destruct (D _ Hp) as [H | (f & _ & _ & E & Hcsv & _)];
      [contradiction|].
    apply (path_of_format output_path (py "csv") f) in E.
    apply Hcsv; [symmetry; exact E|reflexivity].
Qed.

(** X21 at the default formats and an empty file system. *)
Lemma csv_of_no_references_witness :
  let '(files', output_files) :=
    store_references plain_environment ∅ [] (py "out") None in
  dict_get (py "csv") output_files = Some (py "out" ++ py ".csv")
  /\ py "out" ++ py ".csv" ∉ files'.
Proof.
  apply (csv_of_no_references plain_environment ∅ (py "out") None).
  - right. left. reflexivity.
  - apply not_elem_of_empty.
Defined.

(** X22 ([_save_as_excel], lines 877-880, under [store_references]).
    Without the spreadsheet libraries a request for xlsx is answered by
    the text of the import error, and no xlsx file is written. *)
Theorem xlsx_without_libraries (env : environment) (files : gset str)
  (references : list ExtractedReference) (output_path : str)
  (formats : option (list str)) :
  SPREADSHEET_LIBRARIES_AVAILABLE env = false ->
  In (py "xlsx") (default output_formats formats) ->
  output_path ++ py ".xlsx" ∉ files ->
  let '(files', output_files) :=
    store_references env files references output_path formats in
  dict_get (py "xlsx") output_files
  = Some (py "Error: Spreadsheet libraries not available")
  /\ output_path ++ py ".xlsx" ∉ files'.
Proof.
  intros Hlib Hin Hnew. unfold store_references.
  pose proof (store_fold_spec env references output_path
                (default output_formats formats) (files, [])) as H.
  pose proof (store_fold_fixed env references output_path (py "xlsx")
                (py "Error: Spreadsheet libraries not available")) as F.
  cbv zeta in H.
  specialize (fun K => F K (default output_formats formats) (files, [])
                         (or_introl Hin)).
  destruct (fold_left (store_step env references output_path)
              (default output_formats formats) (files, []))
    as [files' output_files].
  cbn [fst snd] in *. destruct H as (_ & _ & _ & D). split.
  - apply F. intros state. unfold store_step, dispatch.
    rewrite (str_eqb_neq (py "xlsx") (py "json")) by discriminate.
    rewrite (str_eqb_neq (py "xlsx") (py "csv")) by discriminate.
    rewrite (str_eqb_neq (py "xlsx") (py "txt")) by discriminate.
    rewrite str_eqb_refl. unfold _save_as_excel. rewrite Hlib.
    cbn [negb snd]. apply dict_get_same.
  - intros Hp. destruct (D _ Hp) as [H | (f & _ & _ & E & _ & Hx)];
      [contradiction|].
    apply (path_of_format output_path (py "xlsx") f) in E.
    rewrite Hx in Hlib; [discriminate|symmetry; exact E].
Qed.

(** X22 at the default formats and an empty file system. *)
Lemma xlsx_without_libraries_witness :
  let '(files', output_files) :=
    store_references plain_environment ∅ [] (py "out") None in
  dict_get (py "xlsx") output_files
  = Some (py "Error: Spreadsheet libraries not available")
  /\ py "out" ++ py ".xlsx" ∉ files'.
Proof.
  apply (xlsx_without_libraries plain_environment ∅ [] (py "out") None).
  - reflexivity.
  - do 3 right. left. reflexivity.
  - apply not_elem_of_empty.
Defined.

End Storage.

(** ** Integration with ARAS *)

Section ArasIntegration.

Import PDFReferenceExtractionAgent Aras.


Lemma validate_ref_notes (answer : validation) (ref : ExtractedReference) :
  exists note,
    validate_ref answer ref
    = set_extraction_notes (extraction_notes ref ++ note) ref.
Proof.
  destruct ref. destruct answer as [message|status c]; cbn [validate_ref].
  - eexists. reflexivity.
  - destruct (str_eqb status (py "success")).
    + destruct c as [|rendered|message]; cbv zeta.
      * eexists. reflexivity.
      * exists (py " ARAS validation completed."
                ++ py " ARAS suggestions: " ++ rendered).
        unfold set_extraction_notes. cbn. rewrite <- app_assoc. reflexivity.
      * exists (py " ARAS validation completed."
                ++ py " ARAS integration error: " ++ message).
        unfold set_extraction_notes. cbn. rewrite <- app_assoc. reflexivity.
    + exists []. unfold set_extraction_notes. cbn. rewrite app_nil_r.
      reflexivity.
Qed.

Lemma validate_from_notes (aras_system : nat -> str -> validation)
  (references : list ExtractedReference) :
  forall i,
    Forall2 (fun ref ref' =>
               exists note,
                 ref' = set_extraction_notes (extraction_notes ref ++ note)
                          ref)
      references (validate_from aras_system i references).
Proof.
  induction references as [|ref rest IH]; intros i; cbn [validate_from].
  - constructor.
  - constructor; [apply validate_ref_notes|apply IH].
Qed.

(** X23 ([integrate_with_aras], lines 1342-1380).  An error result is
    returned as it is.  On a success, whatever the validations answer or
    raise, the references keep their number and order, each keeps every
    field but its notes, and its notes are only extended. *)
Theorem aras_only_extends_notes
  (pdf_extraction_result : pdf_result)
  (aras_system : nat -> str -> validation) :
  match pdf_extraction_result with
  | PdfError _ =>
      integrate_with_aras pdf_extraction_result aras_system
      = (pdf_extraction_result, false)
  | PdfSuccess found references =>
      exists references',
        integrate_with_aras pdf_extraction_result aras_system
        = (PdfSuccess found references', true)
        /\ Forall2 (fun ref ref' =>
                      exists note,
                        ref' = set_extraction_notes
                                 (extraction_notes ref ++ note) ref)
             references references'
  end.
Proof.
  destruct pdf_extraction_result as [e|found references];
    cbn [integrate_with_aras]; [reflexivity|].
  eexists. split; [reflexivity|apply validate_from_notes].
Qed.

End ArasIntegration.
